(** * Temperature-ramp orchestration of [vna_temperature_control_pid.py]

    A shallow embedding of the control core of the data-acquisition
    script: the ramp planner ([calculate_intermediate_temps]), the
    stabilization detector with its overshoot pre-phase
    ([wait_for_stability]), the ramp driver ([ramp_to_temperature]), the
    sampling task ([vna_sweep_thread]) and the orchestrator
    ([collect_data]).

    Temperatures and times are Python floats in the source; they are
    modelled as rationals ([Q]) and the model's arithmetic is exact.
    Statements whose truth could depend on binary64 rounding say so in
    their premises (section "Binary64 rounding").  Equality of
    temperatures is [Qeq] ([==]) unless a value is copied unchanged, in
    which case it is Leibniz equality. *)

From Stdlib Require Import String.
From Stdlib Require Import QArith Qabs Qround ZArith List Bool Lia Lqa.
From Stdlib Require Import Sorted DecimalString.
From Stdlib Require Floats.
Import ListNotations.

Open Scope Q_scope.

(** ** Configuration constants (lines 25-30) *)

Definition SAMPLING_INTERVAL_SECONDS : Q := 5.
Definition VNA_SWEEP_INTERVAL : Q := 60.
Definition TEMP_TOLERANCE : Q := 0.5.
Definition STABILITY_DURATION : Q := 5.
Definition INTERMEDIATE_STEP_SIZE : Q := 1.

(** ** Exceptions and outcomes

    Python's [KeyboardInterrupt] derives from [BaseException] and is not
    caught by [except Exception]; every other error the script can meet
    is an [Exception]. *)

Inductive exn : Type :=
| KeyboardInterrupt
| Exception (what : string).

Definition is_Exception (e : exn) : bool :=
  match e with
  | KeyboardInterrupt => false
  | Exception _ => true
  end.

(** The outcome of running a piece of code: a value, a raised exception,
    or [OutOfFuel] when a [while] loop was still running after the number
    of iterations the model allows. *)

Inductive outcome (A : Type) : Type :=
| Ret (a : A)
| Raise (e : exn)
| OutOfFuel.

Arguments Ret {A} a.
Arguments Raise {A} e.
Arguments OutOfFuel {A}.

(** ** Numeric helpers *)

(** [a < b] on floats, as a boolean. *)
Definition Qlt_bool (a b : Q) : bool := negb (Qle_bool b a).

(** Python's [int(x)] on a float: truncation toward zero. *)
Definition py_int (x : Q) : Z := Z.quot (Qnum x) (Zpos (Qden x)).

(** Python's [round(x)]: nearest integer, ties to the even one. *)
Definition py_round (x : Q) : Z :=
  let f := Qfloor x in
  let r := x - inject_Z f in
  if Qlt_bool r (1 # 2) then f
  else if Qlt_bool (1 # 2) r then (f + 1)%Z
  else if Z.even f then f else (f + 1)%Z.

(** [range(lo, lo + n)] as integers. *)
Definition py_range (lo : nat) (n : nat) : list Z :=
  map Z.of_nat (seq lo n).

(** ** Ramp planner (lines 190-227) *)

Module Planner.

(** [intermediate_temp] of line 216 for loop index [i]. *)
Definition setpoint (current_temp direction : Q) (i : Z) : Q :=
  current_temp + (direction * INTERMEDIATE_STEP_SIZE * inject_Z i).

Definition calculate_intermediate_temps
    (current_temp target_temp ramp_rate : Q) : outcome (list Q * Q) :=
  let temp_change := target_temp - current_temp in
  let direction : Q := if Qlt_bool 0 temp_change then 1 else -1 in
  let num_steps := py_int (Qabs temp_change / INTERMEDIATE_STEP_SIZE) in
  if (num_steps =? 0)%Z then
    Ret ([target_temp], 0)
  else
    let intermediate_temps :=
      map (setpoint current_temp direction)
          (py_range 1 (Z.to_nat num_steps)) in
    let intermediate_temps :=
      if Qlt_bool 0.1 (Qabs (last intermediate_temps 0 - target_temp))
      then intermediate_temps ++ [target_temp]
      else intermediate_temps in
    if Qeq_bool ramp_rate 0 then
      Raise (Exception "ZeroDivisionError"%string)
    else
      let time_per_step := (INTERMEDIATE_STEP_SIZE / ramp_rate) * 60 in
      Ret (intermediate_temps, time_per_step).

(** Differences between consecutive setpoints of a sequence. *)
Fixpoint deltas (l : list Q) : list Q :=
  match l with
  | a :: (b :: _) as t => (b - a) :: deltas t
  | _ => []
  end.

(** The distance still to cover after the whole steps. *)
Definition remainder (current_temp target_temp : Q) : Q :=
  Qabs (target_temp - current_temp)
  - inject_Z (py_int (Qabs (target_temp - current_temp) / INTERMEDIATE_STEP_SIZE)).

(** The whole steps of a plan, as a function of the loop index. *)
Definition whole_step (current_temp direction : Q) (k : nat) : Q :=
  setpoint current_temp direction (Z.of_nat k).

End Planner.

(** ** Observable events

    Every interaction with the temperature controller, every sink
    operation and every assignment to the shared stop flag is recorded,
    in program order, in the [trace] of the world.  Console output is
    recorded only for the messages that carry state; banners are
    omitted. *)

Inductive dev_call : Type :=
| CGetTemp                (* device.get_temp()   *)
| CGetTemp2               (* device.get_temp2()  *)
| CGetOutput              (* device.get_output() *)
| CSetTemp (setpoint : Q) (* device.set_temp(sp) *)
| CSetIdle.               (* device.set_idle()   *)

Inductive reply : Type :=
| Done (v : Q)
| Failed (e : exn).

(** A row of [temperature_log.csv]. *)
Record LogRow : Type := {
  Timestamp : Q;
  Elapsed_Time_s : Z;
  Target_Temp_C : Q;
  Sensor_Temp_1_C : Q;
  Sensor_Temp_2_C : Q;
  Current_Step : nat
}.

(** The record dumped to [metadata.json]. *)
Record Metadata : Type := {
  experiment_start : Q;
  temperature_targets : list Q;
  ramp_mode_controlled : bool;
  ramp_rate_C_per_min : option Q;
  overshoot_enabled : bool;
  overshoot_amount_C : option Q;
  experiment_end : Q;
  total_sweeps : nat;
  completed : bool
}.

Inductive message : Type :=
| MsgOvershoot (cooling : bool) (overshoot_temp : Q)
| MsgCrossed (current_temp : Q)
| MsgApproaching (current_temp : Q)
| MsgEntered (current_temp : Q)
| MsgLeft (current_temp : Q)
| MsgStabilized (current_temp stable_duration : Q)
| MsgTemp (step : nat) (target current_temp power : Q)
| MsgStepComplete (step : nat) (current_temp : Q)
| MsgAllComplete
| MsgInterrupted
| MsgIdle
| MsgThreadStarted
| MsgSweep (sweep_num : nat) (current_temp : Q)
| MsgSweepError (e : exn).

Inductive event : Type :=
| EvDev (c : dev_call) (r : reply)
| EvLogRow (row : LogRow)
| EvSleep (seconds : Q)
| EvPrint (m : message)
| EvSignal (running : bool)     (* experiment_running = running *)
| EvThreadStart                 (* vna_thread.start() *)
| EvAssign (sweep_num : nat)    (* sweep_num = vna_sweep_count, line 459 *)
| EvSweepFile (sweep_num : nat) (temperature : Q)
              (rows : list (Z * Q * Q * Q))
| EvMetadata (md : Metadata).

(** ** The environment and the world

    The environment fixes what the outside does: the readings of the
    controller, which device call fails and how, what the analyzer
    answers, and at which blocking point of the sampling task the
    orchestrator's stop signal lands.

    Faults -- device errors and the operator's Ctrl+C alike -- are
    delivered at calls to the temperature controller.  Every pass of
    every loop of the orchestrator makes such a call, so a run can be cut
    short in any pass.  Sleeping and the sinks (log rows, sweep files,
    the metadata record) are taken to succeed, and the clock is virtual:
    it advances by sleeping only. *)

Record Env : Type := {
  temp_of : nat -> Q;            (* k-th reading returned by get_temp *)
  temp2_of : nat -> Q;           (* get_temp2 at device call n *)
  output_of : nat -> Q;          (* get_output at device call n *)
  fault_of : nat -> option exn;  (* device call n raises *)
  sweep_of : nat -> string + list Q; (* k-th analyzer query: error or values *)
  stop_during : nat -> bool      (* stop flag cleared at blocking point n *)
}.

Record World : Type := {
  dev_calls : nat;
  temp_reads : nat;
  now : Q;                                (* time.time() *)
  tracker : Q;                            (* current_temp_tracker['temp'] *)
  experiment_running : bool;              (* global *)
  experiment_start_time : option Q;       (* global, None until set *)
  vna_sweep_count : nat;                  (* global *)
  keyboard_interrupt_count : nat;         (* global *)
  experiment_completed : bool;            (* local of collect_data *)
  vna_queries : nat;
  blocking_points : nat;
  trace : list event
}.

Definition with_dev_calls (w : World) (n : nat) : World :=
  {| dev_calls := n; temp_reads := temp_reads w; now := now w;
     tracker := tracker w; experiment_running := experiment_running w;
     experiment_start_time := experiment_start_time w;
     vna_sweep_count := vna_sweep_count w;
     keyboard_interrupt_count := keyboard_interrupt_count w;
     experiment_completed := experiment_completed w;
     vna_queries := vna_queries w; blocking_points := blocking_points w;
     trace := trace w |}.

Definition with_temp_reads (w : World) (n : nat) : World :=
  {| dev_calls := dev_calls w; temp_reads := n; now := now w;
     tracker := tracker w; experiment_running := experiment_running w;
     experiment_start_time := experiment_start_time w;
     vna_sweep_count := vna_sweep_count w;
     keyboard_interrupt_count := keyboard_interrupt_count w;
     experiment_completed := experiment_completed w;
     vna_queries := vna_queries w; blocking_points := blocking_points w;
     trace := trace w |}.

Definition with_now (w : World) (t : Q) : World :=
  {| dev_calls := dev_calls w; temp_reads := temp_reads w; now := t;
     tracker := tracker w; experiment_running := experiment_running w;
     experiment_start_time := experiment_start_time w;
     vna_sweep_count := vna_sweep_count w;
     keyboard_interrupt_count := keyboard_interrupt_count w;
     experiment_completed := experiment_completed w;
     vna_queries := vna_queries w; blocking_points := blocking_points w;
     trace := trace w |}.

Definition with_tracker (w : World) (t : Q) : World :=
  {| dev_calls := dev_calls w; temp_reads := temp_reads w; now := now w;
     tracker := t; experiment_running := experiment_running w;
     experiment_start_time := experiment_start_time w;
     vna_sweep_count := vna_sweep_count w;
     keyboard_interrupt_count := keyboard_interrupt_count w;
     experiment_completed := experiment_completed w;
     vna_queries := vna_queries w; blocking_points := blocking_points w;
     trace := trace w |}.

Definition with_experiment_running (w : World) (b : bool) : World :=
  {| dev_calls := dev_calls w; temp_reads := temp_reads w; now := now w;
     tracker := tracker w; experiment_running := b;
     experiment_start_time := experiment_start_time w;
     vna_sweep_count := vna_sweep_count w;
     keyboard_interrupt_count := keyboard_interrupt_count w;
     experiment_completed := experiment_completed w;
     vna_queries := vna_queries w; blocking_points := blocking_points w;
     trace := trace w |}.

Definition with_experiment_start_time (w : World) (t : option Q) : World :=
  {| dev_calls := dev_calls w; temp_reads := temp_reads w; now := now w;
     tracker := tracker w; experiment_running := experiment_running w;
     experiment_start_time := t;
     vna_sweep_count := vna_sweep_count w;
     keyboard_interrupt_count := keyboard_interrupt_count w;
     experiment_completed := experiment_completed w;
     vna_queries := vna_queries w; blocking_points := blocking_points w;
     trace := trace w |}.

Definition with_vna_sweep_count (w : World) (n : nat) : World :=
  {| dev_calls := dev_calls w; temp_reads := temp_reads w; now := now w;
     tracker := tracker w; experiment_running := experiment_running w;
     experiment_start_time := experiment_start_time w;
     vna_sweep_count := n;
     keyboard_interrupt_count := keyboard_interrupt_count w;
     experiment_completed := experiment_completed w;
     vna_queries := vna_queries w; blocking_points := blocking_points w;
     trace := trace w |}.

Definition with_keyboard_interrupt_count (w : World) (n : nat) : World :=
  {| dev_calls := dev_calls w; temp_reads := temp_reads w; now := now w;
     tracker := tracker w; experiment_running := experiment_running w;
     experiment_start_time := experiment_start_time w;
     vna_sweep_count := vna_sweep_count w;
     keyboard_interrupt_count := n;
     experiment_completed := experiment_completed w;
     vna_queries := vna_queries w; blocking_points := blocking_points w;
     trace := trace w |}.

Definition with_experiment_completed (w : World) (b : bool) : World :=
  {| dev_calls := dev_calls w; temp_reads := temp_reads w; now := now w;
     tracker := tracker w; experiment_running := experiment_running w;
     experiment_start_time := experiment_start_time w;
     vna_sweep_count := vna_sweep_count w;
     keyboard_interrupt_count := keyboard_interrupt_count w;
     experiment_completed := b;
     vna_queries := vna_queries w; blocking_points := blocking_points w;
     trace := trace w |}.

Definition with_vna_queries (w : World) (n : nat) : World :=
  {| dev_calls := dev_calls w; temp_reads := temp_reads w; now := now w;
     tracker := tracker w; experiment_running := experiment_running w;
     experiment_start_time := experiment_start_time w;
     vna_sweep_count := vna_sweep_count w;
     keyboard_interrupt_count := keyboard_interrupt_count w;
     experiment_completed := experiment_completed w;
     vna_queries := n; blocking_points := blocking_points w;
     trace := trace w |}.

Definition with_blocking_points (w : World) (n : nat) : World :=
  {| dev_calls := dev_calls w; temp_reads := temp_reads w; now := now w;
     tracker := tracker w; experiment_running := experiment_running w;
     experiment_start_time := experiment_start_time w;
     vna_sweep_count := vna_sweep_count w;
     keyboard_interrupt_count := keyboard_interrupt_count w;
     experiment_completed := experiment_completed w;
     vna_queries := vna_queries w; blocking_points := n;
     trace := trace w |}.

Definition with_trace (w : World) (t : list event) : World :=
  {| dev_calls := dev_calls w; temp_reads := temp_reads w; now := now w;
     tracker := tracker w; experiment_running := experiment_running w;
     experiment_start_time := experiment_start_time w;
     vna_sweep_count := vna_sweep_count w;
     keyboard_interrupt_count := keyboard_interrupt_count w;
     experiment_completed := experiment_completed w;
     vna_queries := vna_queries w; blocking_points := blocking_points w;
     trace := t |}.

(** A world at the start of a process: nothing has happened yet. *)
Definition initial_world : World :=
  {| dev_calls := 0; temp_reads := 0; now := 0; tracker := 0;
     experiment_running := true; experiment_start_time := None;
     vna_sweep_count := 0; keyboard_interrupt_count := 0;
     experiment_completed := false; vna_queries := 0;
     blocking_points := 0; trace := [] |}.

(** ** The monad of the script: state, exceptions and fuel *)

Definition M (A : Type) : Type := World -> outcome A * World.

Definition ret {A} (a : A) : M A := fun w => (Ret a, w).

Definition bind {A B} (m : M A) (f : A -> M B) : M B :=
  fun w =>
    match m w with
    | (Ret a, w') => f a w'
    | (Raise e, w') => (Raise e, w')
    | (OutOfFuel, w') => (OutOfFuel, w')
    end.

Declare Scope script_scope.
Delimit Scope script_scope with script.
Notation "x <- m ;; k" := (bind m (fun x => k))
  (at level 61, m at next level, right associativity) : script_scope.
Notation "m ;; k" := (bind m (fun _ => k))
  (at level 61, right associativity) : script_scope.
Open Scope script_scope.

Definition raise {A} (e : exn) : M A := fun w => (Raise e, w).

Definition lift {A} (r : outcome A) : M A := fun w => (r, w).

Definition emit (ev : event) : M unit :=
  fun w => (Ret tt, with_trace w (trace w ++ [ev])).

Definition print (m : message) : M unit := emit (EvPrint m).

Definition when (b : bool) (m : M unit) : M unit :=
  if b then m else ret tt.

(** [try: body / except <catches>: handler]. *)
Definition try_except {A} (body : M A) (catches : exn -> bool)
    (handler : exn -> M A) : M A :=
  fun w =>
    match body w with
    | (Raise e, w') => if catches e then handler e w' else (Raise e, w')
    | r => r
    end.

(** [try: body / finally: final].  The final block runs however the body
    ends; an exception of the final block replaces the body's outcome.
    A body that never ends never reaches it. *)
Definition try_finally {A} (body : M A) (final : M unit) : M A :=
  fun w =>
    match body w with
    | (OutOfFuel, w') => (OutOfFuel, w')
    | (r, w') =>
      match final w' with
      | (Ret _, w'') => (r, w'')
      | (Raise e, w'') => (Raise e, w'')
      | (OutOfFuel, w'') => (OutOfFuel, w'')
      end
    end.

(** A [while] loop with loop state [S]: the body either continues with a
    new state ([inl]) or leaves the loop with a result ([inr]). *)
Fixpoint iterate {S R} (fuel : nat) (body : S -> M (S + R)) (s : S) : M R :=
  match fuel with
  | O => lift OutOfFuel
  | Datatypes.S fuel' =>
    x <- body s ;;
    match x with
    | inl s' => iterate fuel' body s'
    | inr r => ret r
    end
  end.

(** A [for] loop over a list. *)
Fixpoint for_each {X} (xs : list X) (body : X -> M unit) : M unit :=
  match xs with
  | [] => ret tt
  | x :: rest => body x ;; for_each rest body
  end.

(** [enumerate(xs, 1)]. *)
Definition enumerate1 {X} (xs : list X) : list (nat * X) :=
  combine (seq 1 (length xs)) xs.

(** ** Primitive operations *)

Section Script.

Variable E : Env.

Definition get {A} (field : World -> A) : M A := fun w => (Ret (field w), w).

(** A call to the temperature controller.  The environment decides
    whether call number [dev_calls] fails; a failed call consumes no
    reading.  Successful and failed calls are both recorded. *)
Definition device (c : dev_call) : M Q :=
  fun w =>
    let n := dev_calls w in
    let w1 := with_dev_calls w (S n) in
    match fault_of E n with
    | Some e => (Raise e, with_trace w1 (trace w ++ [EvDev c (Failed e)]))
    | None =>
      match c with
      | CGetTemp =>
        let v := temp_of E (temp_reads w) in
        (Ret v, with_trace (with_temp_reads w1 (S (temp_reads w)))
                           (trace w ++ [EvDev c (Done v)]))
      | CGetTemp2 =>
        let v := temp2_of E n in
        (Ret v, with_trace w1 (trace w ++ [EvDev c (Done v)]))
      | CGetOutput =>
        let v := output_of E n in
        (Ret v, with_trace w1 (trace w ++ [EvDev c (Done v)]))
      | CSetTemp _ | CSetIdle =>
        (Ret 0, with_trace w1 (trace w ++ [EvDev c (Done 0)]))
      end
    end.

Definition get_temp : M Q := device CGetTemp.
Definition get_temp2 : M Q := device CGetTemp2.
Definition get_output : M Q := device CGetOutput.
Definition set_temp (sp : Q) : M unit := _ <- device (CSetTemp sp) ;; ret tt.
Definition set_idle : M unit := _ <- device CSetIdle ;; ret tt.

(** [time.time()]: the clock of the model advances by sleeping only. *)
Definition time_time : M Q := get now.

Definition sleep (seconds : Q) : M unit :=
  fun w => (Ret tt, with_trace (with_now w (now w + seconds))
                               (trace w ++ [EvSleep seconds])).

(** [temp_log_callback['temp'] = current_temp]. *)
Definition set_tracker (current_temp : Q) : M unit :=
  fun w => (Ret tt, with_tracker w current_temp).

(** Assignment to the global [experiment_running]. *)
Definition set_experiment_running (b : bool) : M unit :=
  fun w => (Ret tt, with_trace (with_experiment_running w b)
                               (trace w ++ [EvSignal b])).

Definition set_experiment_start_time (t : Q) : M unit :=
  fun w => (Ret tt, with_experiment_start_time w (Some t)).

Definition set_vna_sweep_count (n : nat) : M unit :=
  fun w => (Ret tt, with_vna_sweep_count w n).

Definition set_keyboard_interrupt_count (n : nat) : M unit :=
  fun w => (Ret tt, with_keyboard_interrupt_count w n).

Definition set_experiment_completed (b : bool) : M unit :=
  fun w => (Ret tt, with_experiment_completed w b).

(** [csvwriter.writerow({...}); csvfile.flush()]: the row dictionary is
    built after the time stamps were taken and reads the second sensor. *)
Definition writerow (current_time : Q) (elapsed_time : Z)
    (target current_temp : Q) (step_idx : nat) : M unit :=
  temp2 <- get_temp2 ;;
  emit (EvLogRow {| Timestamp := current_time;
                    Elapsed_Time_s := elapsed_time;
                    Target_Temp_C := target;
                    Sensor_Temp_1_C := current_temp;
                    Sensor_Temp_2_C := temp2;
                    Current_Step := step_idx |}).

(** ** Stabilization detector (lines 230-354) *)

Definition in_tolerance (target_temp current_temp : Q) : bool :=
  Qle_bool (Qabs (current_temp - target_temp)) TEMP_TOLERANCE.

(** What one pass of the core loop decides (lines 340-352) from the loop
    variable [stable_start], the clock and the reading. *)
Inductive verdict : Type :=
| Stabilized (stable_start stable_duration : Q)  (* return True *)
| Entered (stable_start : Q)                     (* window opened *)
| Holding (stable_start : Q)                     (* window still too short *)
| Reset (was_open : bool).                       (* outside the band *)

Definition stability_check (target_temp : Q) (stable_start : option Q)
    (t current_temp : Q) : verdict :=
  if in_tolerance target_temp current_temp then
    match stable_start with
    | None => Entered t
    | Some s =>
      let stable_duration := t - s in
      if Qle_bool STABILITY_DURATION stable_duration
      then Stabilized s stable_duration
      else Holding s
    end
  else
    Reset (match stable_start with Some _ => true | None => false end).

(** The optional logging block of [wait_for_stability]: active when the
    writer, the file and the start time are all supplied. *)
Definition log_if (logging : option Q) (target current_temp : Q)
    (step_idx : nat) : M unit :=
  match logging with
  | Some start_time =>
    t <- time_time ;;
    writerow t (py_round (t - start_time)) target current_temp step_idx
  | None => ret tt
  end.

(** One pass of the [while True] loop of lines 319-354. *)
Definition stability_poll (target_temp : Q) (track : bool)
    (logging : option Q) (step_idx : nat) (stable_start : option Q)
    : M (option Q + bool) :=
  current_temp <- get_temp ;;
  when track (set_tracker current_temp) ;;
  log_if logging target_temp current_temp step_idx ;;
  t <- time_time ;;
  match stability_check target_temp stable_start t current_temp with
  | Stabilized _ stable_duration =>
    print (MsgStabilized current_temp stable_duration) ;;
    ret (inr true)
  | Entered s =>
    print (MsgEntered current_temp) ;;
    sleep 2 ;;
    ret (inl (Some s))
  | Holding s =>
    sleep 2 ;;
    ret (inl (Some s))
  | Reset was_open =>
    when was_open (print (MsgLeft current_temp)) ;;
    sleep 2 ;;
    ret (inl None)
  end.

Definition stability_loop (fuel : nat) (target_temp : Q) (track : bool)
    (logging : option Q) (step_idx : nat) (stable_start : option Q)
    : M bool :=
  iterate fuel (stability_poll target_temp track logging step_idx)
          stable_start.

(** Direction and temporary setpoint of the overshoot (lines 250-259). *)
Definition overshoot_setpoint (current_temp target_temp overshoot_amount : Q)
    : bool * Q :=
  if Qlt_bool target_temp current_temp
  then (true, target_temp - overshoot_amount)
  else (false, target_temp + overshoot_amount).

(** The crossing predicate (lines 294-299). *)
Definition has_crossed (cooling : bool) (target_temp current_temp : Q) : bool :=
  if cooling then Qle_bool current_temp target_temp
  else Qle_bool target_temp current_temp.

(** One pass of the [while overshoot_active] loop (lines 271-310). *)
Definition overshoot_poll (cooling : bool) (overshoot_temp target_temp : Q)
    (track : bool) (logging : option Q) (step_idx : nat) (_ : unit)
    : M (unit + unit) :=
  current_temp <- get_temp ;;
  when track (set_tracker current_temp) ;;
  log_if logging overshoot_temp current_temp step_idx ;;
  if has_crossed cooling target_temp current_temp then
    print (MsgCrossed current_temp) ;;
    set_temp target_temp ;;
    sleep 2 ;;
    ret (inr tt)
  else
    print (MsgApproaching current_temp) ;;
    sleep 2 ;;
    ret (inl tt).

(** The overshoot sub-phase (lines 248-312), entered with the reading
    taken at line 246. *)
Definition overshoot_phase (fuel : nat)
    (current_temp target_temp overshoot_amount : Q)
    (track : bool) (logging : option Q) (step_idx : nat) : M unit :=
  let '(cooling, overshoot_temp) :=
    overshoot_setpoint current_temp target_temp overshoot_amount in
  print (MsgOvershoot cooling overshoot_temp) ;;
  set_temp overshoot_temp ;;
  iterate fuel
    (overshoot_poll cooling overshoot_temp target_temp track logging step_idx)
    tt ;;
  sleep 1.

Definition wait_for_stability (fuel : nat) (target_temp : Q)
    (use_overshoot : bool) (overshoot_amount : Q)
    (track : bool) (logging : option Q) (step_idx : nat) : M bool :=
  current_temp <- get_temp ;;
  when use_overshoot
    (overshoot_phase fuel current_temp target_temp overshoot_amount
                     track logging step_idx) ;;
  stability_loop fuel target_temp track logging step_idx None.

(** ** Ramp driver (lines 357-442) *)

(** Body shared by the two polling loops: read, publish, log, report. *)
Definition ramp_poll (target : Q) (start_time : Q) (step_idx : nat) : M Q :=
  current_temp <- get_temp ;;
  set_tracker current_temp ;;
  t <- time_time ;;
  power <- get_output ;;
  writerow t (py_round (t - start_time)) target current_temp step_idx ;;
  print (MsgTemp step_idx target current_temp power) ;;
  ret current_temp.

(** One pass of the fast-mode loop (lines 379-404). *)
Definition fast_poll (target_temp start_time : Q) (step_idx : nat)
    (_ : unit) : M (unit + unit) :=
  current_temp <- ramp_poll target_temp start_time step_idx ;;
  if Qle_bool (Qabs (current_temp - target_temp)) (TEMP_TOLERANCE * 2)
  then ret (inr tt)
  else sleep SAMPLING_INTERVAL_SECONDS ;; ret (inl tt).

(** One pass of the dwell loop of a controlled step (lines 421-442). *)
Definition dwell_poll (intermediate_temp step_start time_per_step : Q)
    (start_time : Q) (step_idx : nat) (_ : unit) : M (unit + unit) :=
  t <- time_time ;;
  if Qlt_bool (t - step_start) time_per_step then
    _ <- ramp_poll intermediate_temp start_time step_idx ;;
    sleep SAMPLING_INTERVAL_SECONDS ;;
    ret (inl tt)
  else ret (inr tt).

Definition ramp_to_temperature (fuel : nat) (target_temp : Q)
    (ramp_rate : option Q) (start_time : Q) (step_idx : nat) : M unit :=
  current_temp <- get_temp ;;
  match ramp_rate with
  | None =>
    set_temp target_temp ;;
    iterate fuel (fast_poll target_temp start_time step_idx) tt
  | Some rate =>
    plan <- lift (Planner.calculate_intermediate_temps
                    current_temp target_temp rate) ;;
    let '(intermediate_temps, time_per_step) := plan in
    for_each (enumerate1 intermediate_temps)
      (fun '(i, intermediate_temp) =>
         set_temp intermediate_temp ;;
         step_start <- time_time ;;
         iterate fuel
           (dwell_poll intermediate_temp step_start time_per_step
                       start_time step_idx) tt)
  end.

(** ** Sampling task (lines 445-505)

    The task runs concurrently with the orchestrator.  It is modelled on
    its own, the orchestrator's only influence on it being the stop
    signal, which the environment delivers at one of the task's blocking
    points (the analyzer query and the sleeps). *)

Definition blocked : M unit :=
  fun w =>
    let w1 := with_blocking_points w (S (blocking_points w)) in
    (Ret tt, if stop_during E (blocking_points w)
             then with_experiment_running w1 false else w1).

(** [vna.query_ascii_values('CALCulate:DATA:SNP? 1')]. *)
Definition query_ascii_values : M (list Q) :=
  blocked ;;
  fun w =>
    let k := vna_queries w in
    let w1 := with_vna_queries w (S k) in
    match sweep_of E k with
    | inl what => (Raise (Exception what), w1)
    | inr values => (Ret values, w1)
    end.

(** [time.sleep] inside the task. *)
Definition task_sleep (seconds : Q) : M unit := blocked ;; sleep seconds.

(** The rows written to a sweep file (lines 487-495). *)
Definition sweep_rows (temp_values : list Q) : list (Z * Q * Q * Q) :=
  let total_len := length temp_values in
  let points_per_var := (total_len / 3)%nat in
  let freq := firstn points_per_var temp_values in
  let real := firstn points_per_var (skipn points_per_var temp_values) in
  let imag := firstn points_per_var (skipn (2 * points_per_var) temp_values) in
  map (fun i => ((Z.of_nat i + 1)%Z, nth i freq 0, nth i real 0, nth i imag 0))
      (seq 0 points_per_var).

(** The [try] suite of one cycle (lines 453-500). *)
Definition vna_sweep_cycle : M unit :=
  current_temp <- get tracker ;;
  n <- get vna_sweep_count ;;
  set_vna_sweep_count (n + 1) ;;
  sweep_num <- get vna_sweep_count ;;
  emit (EvAssign sweep_num) ;;
  collection_time <- time_time ;;
  started <- get experiment_start_time ;;
  elapsed_seconds <-
    match started with
    | Some t0 => ret (collection_time - t0)
    | None => raise (Exception "TypeError")
    end ;;
  temp_values <- query_ascii_values ;;
  emit (EvSweepFile sweep_num current_temp (sweep_rows temp_values)) ;;
  print (MsgSweep sweep_num current_temp) ;;
  task_sleep VNA_SWEEP_INTERVAL.

(** The [except Exception as e] suite (lines 502-505). *)
Definition vna_sweep_handler (e : exn) : M unit :=
  running <- get experiment_running ;;
  when running (print (MsgSweepError e)) ;;
  task_sleep 5.

(** One pass of [while experiment_running]. *)
Definition vna_sweep_iteration (_ : unit) : M (unit + unit) :=
  running <- get experiment_running ;;
  if running then
    try_except vna_sweep_cycle is_Exception vna_sweep_handler ;;
    ret (inl tt)
  else ret (inr tt).

Definition vna_sweep_thread (fuel : nat) : M unit :=
  print MsgThreadStarted ;;
  iterate fuel vna_sweep_iteration tt.

(** ** Orchestrator (lines 508-646) *)

(** Python truthiness of the optional ramp rate ([if ramp_rate]). *)
Definition truthy (ramp_rate : option Q) : bool :=
  match ramp_rate with
  | Some r => negb (Qeq_bool r 0)
  | None => false
  end.

(** One pass of the per-target loop (lines 561-607). *)
Definition experiment_step (fuel : nat) (ramp_rate : option Q)
    (use_overshoot : bool) (overshoot_amount start_time : Q)
    (p : nat * Q) : M unit :=
  let '(step_idx, target_temp) := p in
  ramp_to_temperature fuel target_temp ramp_rate start_time step_idx ;;
  _ <- wait_for_stability fuel target_temp use_overshoot overshoot_amount
                          true (Some start_time) step_idx ;;
  current_temp <- get_temp ;;
  set_tracker current_temp ;;
  t <- time_time ;;
  writerow t (py_round (t - start_time)) target_temp current_temp step_idx ;;
  print (MsgStepComplete step_idx current_temp).

(** The [try] suite (lines 561-615). *)
Definition experiment_body (fuel : nat) (temps : list Q)
    (ramp_rate : option Q) (use_overshoot : bool)
    (overshoot_amount start_time : Q) : M unit :=
  for_each (enumerate1 temps)
    (experiment_step fuel ramp_rate use_overshoot overshoot_amount
                     start_time) ;;
  set_experiment_completed true ;;
  print MsgAllComplete.

Definition is_KeyboardInterrupt (e : exn) : bool := negb (is_Exception e).

(** The [except KeyboardInterrupt] suite (lines 617-619). *)
Definition interrupted (_ : exn) : M unit :=
  print MsgInterrupted ;;
  set_keyboard_interrupt_count 1.

(** The [finally] suite (lines 621-644).  The bare [except:] around
    [set_idle] catches every exception. *)
Definition finalization (started : Q) (temps : list Q)
    (ramp_rate : option Q) (use_overshoot : bool) (overshoot_amount : Q)
    : M unit :=
  set_experiment_running false ;;
  try_except (set_idle ;; print MsgIdle) (fun _ => true) (fun _ => ret tt) ;;
  sleep 2 ;;
  ended <- time_time ;;
  sweeps <- get vna_sweep_count ;;
  done <- get experiment_completed ;;
  emit (EvMetadata
          {| experiment_start := started;
             temperature_targets := temps;
             ramp_mode_controlled := truthy ramp_rate;
             ramp_rate_C_per_min :=
               if truthy ramp_rate then ramp_rate else None;
             overshoot_enabled := use_overshoot;
             overshoot_amount_C :=
               if use_overshoot then Some overshoot_amount else None;
             experiment_end := ended;
             total_sweeps := sweeps;
             completed := done |}).

(** The guarded region: [try / except KeyboardInterrupt / finally]
    (lines 560-644). *)
Definition guarded_experiment (fuel : nat) (started : Q) (temps : list Q)
    (ramp_rate : option Q) (use_overshoot : bool)
    (overshoot_amount start_time : Q) : M unit :=
  try_finally
    (try_except
       (experiment_body fuel temps ramp_rate use_overshoot overshoot_amount
                        start_time)
       is_KeyboardInterrupt interrupted)
    (finalization started temps ramp_rate use_overshoot overshoot_amount).

Definition collect_data (fuel : nat) (temps : list Q) (ramp_rate : option Q)
    (use_overshoot : bool) (overshoot_amount : Q) : M bool :=
  set_vna_sweep_count 0 ;;
  set_experiment_running true ;;
  set_keyboard_interrupt_count 0 ;;
  started <- time_time ;;
  current_temp <- get_temp ;;
  set_tracker current_temp ;;
  emit EvThreadStart ;;
  start_time <- time_time ;;
  set_experiment_start_time start_time ;;
  set_experiment_completed false ;;
  guarded_experiment fuel started temps ramp_rate use_overshoot
                     overshoot_amount start_time ;;
  get experiment_completed.

End Script.

(** ** Reading traces *)

(** The events a run added to the trace. *)
Definition new_events (w w' : World) : list event :=
  skipn (length (trace w)) (trace w').

(** Readings and setpoint commands, in order. *)
Inductive thermal : Type :=
| Reading (t : Q)
| Setpoint (sp : Q).

Definition thermal_of (ev : event) : list thermal :=
  match ev with
  | EvDev CGetTemp (Done t) => [Reading t]
  | EvDev (CSetTemp sp) (Done _) => [Setpoint sp]
  | _ => []
  end.

Definition thermals (evs : list event) : list thermal :=
  flat_map thermal_of evs.

(** The setpoints commanded in a sequence of readings and commands. *)
Definition commanded (l : list thermal) : list Q :=
  flat_map (fun t => match t with
                     | Setpoint sp => [sp]
                     | Reading _ => []
                     end) l.

(** Assignments [experiment_running = False]. *)
Definition stop_signals (evs : list event) : nat :=
  length (filter (fun ev => match ev with
                            | EvSignal false => true
                            | _ => false
                            end) evs).

(** Invocations of [device.set_idle()], whether they returned or raised. *)
Definition idle_calls (evs : list event) : nat :=
  length (filter (fun ev => match ev with
                            | EvDev CSetIdle _ => true
                            | _ => false
                            end) evs).

Definition metadata_writes (evs : list event) : list Metadata :=
  flat_map (fun ev => match ev with
                      | EvMetadata md => [md]
                      | _ => []
                      end) evs.

(** Step indices whose final confirmatory row was logged (line 607). *)
Definition completed_steps (evs : list event) : list nat :=
  flat_map (fun ev => match ev with
                      | EvPrint (MsgStepComplete i _) => [i]
                      | _ => []
                      end) evs.

(** Sequence numbers assigned by the sampling task. *)
Definition assigned_numbers (evs : list event) : list nat :=
  flat_map (fun ev => match ev with
                      | EvAssign n => [n]
                      | _ => []
                      end) evs.

(** Error lines of the sampling task. *)
Definition error_lines (evs : list event) : list exn :=
  flat_map (fun ev => match ev with
                      | EvPrint (MsgSweepError e) => [e]
                      | _ => []
                      end) evs.

(** ** Vocabulary of the statements *)

(** No device call fails. *)
Definition fault_free (E : Env) : Prop := forall n, fault_of E n = None.

(** The readings [get_temp] returns from reading number [i] on. *)
Definition readings (E : Env) (i n : nat) : list Q :=
  map (temp_of E) (seq i n).

(** [k] is the first index at which [p] holds. *)
Definition first_at (p : nat -> bool) (k : nat) : Prop :=
  (forall i, (i < k)%nat -> p i = false) /\ p k = true.


(** The clock at the [i]-th pass of a loop that sleeps 2 seconds per
    pass and started at [t0]. *)
Definition poll_time (t0 : Q) (i : nat) : Q :=
  Nat.iter i (fun t => t + 2) t0.

(** Reading number [n] lies in the tolerance band of the target. *)
Definition in_band (E : Env) (target_temp : Q) (n : nat) : bool :=
  in_tolerance target_temp (temp_of E n).


(** Events the per-target loop may produce: everything except the three
    finalization effects. *)
Definition body_event (ev : event) : bool :=
  match ev with
  | EvSignal _ => false
  | EvDev CSetIdle _ => false
  | EvMetadata _ => false
  | _ => true
  end.

(** Events of the ramp and stabilization phases: body events other than
    the step-completion line. *)
Definition quiet (ev : event) : bool :=
  match ev with
  | EvPrint (MsgStepComplete _ _) => false
  | _ => body_event ev
  end.

(** [m] leaves the local [experiment_completed] alone and only appends
    events to the trace, the appended events and the outcome being
    related by [P]. *)
Definition emits {A} (m : M A) (P : outcome A -> list event -> Prop) : Prop :=
  forall w,
    experiment_completed (snd (m w)) = experiment_completed w /\
    exists evs, trace (snd (m w)) = trace w ++ evs /\ P (fst (m w)) evs.

Definition steady {A} (m : M A) : Prop :=
  emits m (fun _ evs => forallb quiet evs = true).

Definition returned {A} (r : outcome A) : bool :=
  match r with Ret _ => true | _ => false end.

(** An environment for examples: the given readings, then [rest]
    forever; no faults, an analyzer that answers with an empty sweep, no
    stop signal. *)
Definition scripted (temps : list Q) (rest : Q) : Env :=
  {| temp_of := fun n => nth n temps rest;
     temp2_of := fun _ => 0;
     output_of := fun _ => 0;
     fault_of := fun _ => None;
     sweep_of := fun _ => inr [];
     stop_during := fun _ => false |}.

(** The same, with device call number [n] raising [e]. *)
Definition scripted_fault (temps : list Q) (rest : Q) (n : nat) (e : exn)
    : Env :=
  {| temp_of := fun k => nth k temps rest;
     temp2_of := fun _ => 0;
     output_of := fun _ => 0;
     fault_of := fun k => if Nat.eqb k n then Some e else None;
     sweep_of := fun _ => inr [];
     stop_during := fun _ => false |}.

(** An environment for the sampling task: analyzer replies from a list
    (an empty sweep afterwards), stop signal at blocking point [stop]. *)
Definition sampling (replies : list (string + list Q)) (stop : nat) : Env :=
  {| temp_of := fun _ => 0;
     temp2_of := fun _ => 0;
     output_of := fun _ => 0;
     fault_of := fun _ => None;
     sweep_of := fun k => nth k replies (inr []);
     stop_during := fun k => Nat.eqb k stop |}.

(** A world in which an experiment is under way: the start time is set. *)
Definition running_world : World :=
  with_experiment_start_time initial_world (Some 0).

(** ** Elapsed-time formatting (lines 40-45) *)

(** Python's [x // y] and [x % y] on floats, for a dividend that is not
    negative and a positive divisor; there the float operations are
    exact.  (For a negative dividend the float remainder can round up
    to the divisor itself.) *)
Definition py_floordiv (x y : Q) : Q := inject_Z (Qfloor (x / y)).

Definition py_mod (x y : Q) : Q := x - y * py_floordiv x y.

(** The three fields [hours], [minutes], [secs]. *)
Definition elapsed_fields (seconds : Q) : Z * Z * Z :=
  let hours := py_int (py_floordiv seconds 3600) in
  let minutes := py_int (py_floordiv (py_mod seconds 3600) 60) in
  let secs := py_int (py_mod seconds 60) in
  (hours, minutes, secs).

(** The format specification [02d]: decimal, at least two characters,
    padded with a zero (a negative number already has two). *)
Definition pad2 (z : Z) : string :=
  if ((0 <=? z) && (z <? 10))%Z
  then ("0" ++ NilZero.string_of_int (Z.to_int z))%string
  else NilZero.string_of_int (Z.to_int z).

Definition format_elapsed_time (seconds : Q) : string :=
  let '(hours, minutes, secs) := elapsed_fields seconds in
  (pad2 hours ++ ":" ++ pad2 minutes ++ ":" ++ pad2 secs)%string.

(** ** Footprints *)

(** The globals the orchestrator shares with the sampling task and with
    the main program, the temperature snapshot apart. *)
Definition orchestrator_globals (w : World)
    : bool * nat * nat * option Q :=
  (experiment_running w, vna_sweep_count w, keyboard_interrupt_count w,
   experiment_start_time w).

(** [m] leaves the globals and the local [experiment_completed] alone
    and only appends events that satisfy [p]. *)
Definition confined (p : event -> bool) {A} (m : M A) : Prop :=
  forall w,
    orchestrator_globals (snd (m w)) = orchestrator_globals w /\
    experiment_completed (snd (m w)) = experiment_completed w /\
    exists evs, trace (snd (m w)) = trace w ++ evs /\ forallb p evs = true.

(** Reading the sensors, logging, printing and sleeping. *)
Definition reads_only (ev : event) : bool :=
  match ev with
  | EvDev CGetTemp _ | EvDev CGetTemp2 _ => true
  | EvLogRow _ | EvSleep _ | EvPrint _ => true
  | _ => false
  end.

(** The same, together with reading the output power and commanding
    setpoints. *)
Definition controller_io (ev : event) : bool :=
  match ev with
  | EvDev CSetIdle _ => false
  | EvDev _ _ => true
  | EvLogRow _ | EvSleep _ | EvPrint _ => true
  | _ => false
  end.

(** What the sampling task may add to the trace. *)
Definition sampler_event (ev : event) : bool :=
  match ev with
  | EvPrint _ | EvAssign _ | EvSweepFile _ _ _ | EvSleep _ => true
  | _ => false
  end.

(** Every call of [set_temp], whether it returned or raised. *)
Definition setpoint_calls (evs : list event) : list Q :=
  flat_map (fun ev => match ev with
                      | EvDev (CSetTemp sp) _ => [sp]
                      | _ => []
                      end) evs.

(** Numbers of the sweep files written. *)
Definition file_numbers (evs : list event) : list nat :=
  flat_map (fun ev => match ev with
                      | EvSweepFile n _ _ => [n]
                      | _ => []
                      end) evs.

(** Everything but a setpoint command. *)
Definition no_setpoint (ev : event) : bool :=
  match ev with
  | EvDev (CSetTemp _) _ => false
  | _ => true
  end.

(** What one step of a fast-mode experiment has commanded: its target,
    or nothing when it ended before the command. *)
Definition step_setpoints (target : Q) (r : outcome unit)
    (evs : list event) : Prop :=
  setpoint_calls evs = [target] \/
  returned r = false /\ setpoint_calls evs = [].

(** How far the per-target loop got: [k] steps logged as complete, the
    targets of these commanded, and possibly the next one. *)
Definition loop_progress (i0 : nat) (temps : list Q) (r : outcome unit)
    (evs : list event) : Prop :=
  exists k,
    (k <= length temps)%nat /\
    completed_steps evs = seq i0 k /\
    (setpoint_calls evs = firstn k temps \/
     setpoint_calls evs = firstn (S k) temps) /\
    (returned r = true ->
     k = length temps /\ setpoint_calls evs = temps).

(** ** Operator input (lines 73-146)

    [get_temperature_profile] talks to the operator only.  A line typed
    at a prompt is described by what the script makes of it: whether it
    is empty, what [int] and [float] return for it ([None] stands for
    [ValueError]) and its [strip().lower()] form.  A prompt can also end
    in an exception ([EOFError], [KeyboardInterrupt]), which the
    function does not catch. *)

(** A Python float: [float] also accepts [inf] and [nan]. *)
Inductive pyfloat : Type :=
| Finite (q : Q)
| PosInf
| NegInf
| NaN.

(** [x > 0]. *)
Definition is_positive (x : pyfloat) : bool :=
  match x with
  | Finite q => Qlt_bool 0 q
  | PosInf => true
  | NegInf | NaN => false
  end.

Record line : Type := {
  is_empty : bool;
  as_int : option Z;
  as_float : option pyfloat;
  folded : string
}.

Inductive keystroke : Type :=
| Typed (l : line)
| Aborted (e : exn).

(** The messages printed when an answer is turned down. *)
Inductive complaint : Type :=
| CountOutOfRange        (* "Please enter a number between 1 and 8." *)
| CountNotInteger        (* "Invalid input. Please enter an integer." *)
| TargetNotNumber        (* "Invalid input. Please enter a number." *)
| ChoiceOutOfRange       (* "Please enter 1 or 2." *)
| ChoiceNotInteger       (* "Invalid input. Please enter 1 or 2." *)
| RateNotPositive        (* "Ramp rate must be positive." *)
| RateNotNumber          (* "Invalid input. Please enter a number." *)
| AnswerNotYesNo         (* "Please enter 'y' or 'n'." *)
| AmountNotPositive      (* "Overshoot amount must be positive." *)
| AmountNotNumber.       (* "Invalid input. Please enter a number." *)

(** The console: how many prompts were answered and what was
    complained about. *)
Record desk : Type := {
  asked : nat;
  complaints : list complaint
}.

Definition initial_desk : desk := {| asked := 0; complaints := [] |}.

Definition console (A : Type) : Type := desk -> outcome A * desk.

Definition cret {A} (a : A) : console A := fun d => (Ret a, d).

Definition cbind {A B} (m : console A) (f : A -> console B) : console B :=
  fun d =>
    match m d with
    | (Ret a, d') => f a d'
    | (Raise e, d') => (Raise e, d')
    | (OutOfFuel, d') => (OutOfFuel, d')
    end.

Declare Scope console_scope.
Delimit Scope console_scope with console.
Notation "x <- m ;; k" := (cbind m (fun x => k))
  (at level 61, m at next level, right associativity) : console_scope.
Notation "m ;; k" := (cbind m (fun _ => k))
  (at level 61, right associativity) : console_scope.

Definition complain (c : complaint) : console unit :=
  fun d => (Ret tt, {| asked := asked d;
                       complaints := complaints d ++ [c] |}).

(** [while True: try: ... break ... except ValueError: ...]: an attempt
    either yields the accepted value or asks again. *)
Fixpoint retry {A} (fuel : nat) (attempt : console (option A)) : console A :=
  match fuel with
  | O => fun d => (OutOfFuel, d)
  | S fuel' =>
    cbind attempt
          (fun x => match x with
                    | Some a => cret a
                    | None => retry fuel' attempt
                    end)
  end.

Section Operator.

Variable keyboard : nat -> keystroke.

(** [input(prompt)]. *)
Definition input : console line :=
  fun d =>
    let d' := {| asked := S (asked d); complaints := complaints d |} in
    match keyboard (asked d) with
    | Typed l => (Ret l, d')
    | Aborted e => (Raise e, d')
    end.

(** Lines 75-82. *)
Definition ask_num_temps (fuel : nat) : console Z :=
  retry fuel
    (l <- input ;;
     match as_int l with
     | Some num_temps =>
       if (1 <=? num_temps)%Z && (num_temps <=? 8)%Z
       then cret (Some num_temps)
       else complain CountOutOfRange ;; cret None
     | None => complain CountNotInteger ;; cret None
     end)%console.

(** Lines 88-94. *)
Definition ask_temp (fuel : nat) : console pyfloat :=
  retry fuel
    (l <- input ;;
     match as_float l with
     | Some temp => cret (Some temp)
     | None => complain TargetNotNumber ;; cret None
     end)%console.

(** Lines 84-94: [for i in range(num_temps)], appending to [temps]. *)
Fixpoint ask_temps (fuel : nat) (n : nat) (temps : list pyfloat)
    : console (list pyfloat) :=
  match n with
  | O => cret temps
  | S n' =>
    (temp <- ask_temp fuel ;;
     ask_temps fuel n' (temps ++ [temp]))%console
  end.

(** Lines 102-109. *)
Definition ask_choice (fuel : nat) : console Z :=
  retry fuel
    (l <- input ;;
     match as_int l with
     | Some choice =>
       if (choice =? 1)%Z || (choice =? 2)%Z
       then cret (Some choice)
       else complain ChoiceOutOfRange ;; cret None
     | None => complain ChoiceNotInteger ;; cret None
     end)%console.

(** Lines 113-120. *)
Definition ask_ramp_rate (fuel : nat) : console pyfloat :=
  retry fuel
    (l <- input ;;
     match as_float l with
     | Some ramp_rate =>
       if is_positive ramp_rate
       then cret (Some ramp_rate)
       else complain RateNotPositive ;; cret None
     | None => complain RateNotNumber ;; cret None
     end)%console.

(** Lines 127-131. *)
Definition ask_overshoot_choice (fuel : nat) : console string :=
  retry fuel
    (l <- input ;;
     if String.eqb (folded l) "y"%string || String.eqb (folded l) "n"%string
     then cret (Some (folded l))
     else complain AnswerNotYesNo ;; cret None)%console.

(** Lines 137-144: an empty answer stands for ["10"]. *)
Definition ask_overshoot_amount (fuel : nat) : console pyfloat :=
  retry fuel
    (l <- input ;;
     match (if is_empty l then Some (Finite 10) else as_float l) with
     | Some overshoot_amount =>
       if is_positive overshoot_amount
       then cret (Some overshoot_amount)
       else complain AmountNotPositive ;; cret None
     | None => complain AmountNotNumber ;; cret None
     end)%console.

Definition get_temperature_profile (fuel : nat)
    : console (list pyfloat * option pyfloat * bool * pyfloat) :=
  (num_temps <- ask_num_temps fuel ;;
   temps <- ask_temps fuel (Z.to_nat num_temps) [] ;;
   choice <- ask_choice fuel ;;
   ramp_rate <-
     (if (choice =? 2)%Z
      then r <- ask_ramp_rate fuel ;; cret (Some r)
      else cret None) ;;
   overshoot_choice <- ask_overshoot_choice fuel ;;
   let use_overshoot := String.eqb overshoot_choice "y"%string in
   overshoot_amount <-
     (if use_overshoot then ask_overshoot_amount fuel
      else cret (Finite 10)) ;;
   cret (temps, ramp_rate, use_overshoot, overshoot_amount))%console.

End Operator.

(** A keyboard for examples: the given keystrokes, then end of input. *)
Definition typing (keys : list keystroke) : nat -> keystroke :=
  fun n => nth n keys (Aborted (Exception "EOFError"%string)).

(** A typed line given by its text (already stripped and in lower case)
    and by what [int] and [float] return for it. *)
Definition typed (text : string) (i : option Z) (f : option pyfloat)
    : keystroke :=
  Typed {| is_empty := String.eqb text EmptyString;
           as_int := i; as_float := f; folded := text |}.

(** The answers a profile needs beyond those that were turned down. *)
Definition answers_used (temps : list pyfloat) (ramp_rate : option pyfloat)
    (use_overshoot : bool) : nat :=
  (1 + length temps + 1
   + (match ramp_rate with Some _ => 1 | None => 0 end)
   + 1 + (if use_overshoot then 1 else 0))%nat.

(** Between two states of the console [used] answers were accepted and
    every other answer was turned down with one complaint. *)
Definition answered (d d' : desk) (used : nat) : Prop :=
  exists cs,
    complaints d' = complaints d ++ cs /\
    asked d' = (asked d + used + length cs)%nat.

(** ** Binary64 rounding

    The script computes with Python floats (IEEE binary64); the model
    computes with exact rationals.  A number of magnitude at most
    [10^6] is stored with an error below [2^-33], and a sum or a
    difference of two such numbers is computed with an error of the same
    size; [margin] is well above these errors.  So a comparison whose
    exact operands keep [margin] clear of the threshold comes out the
    same in binary64 as in the model, and a value the script computes
    lies within [margin] of the value the model computes.  Whole
    multiples of 1/1024 of that size are stored exactly, and so are
    their sums and differences: on them the script and the model compute
    the same.  Statements that depend on a comparison carry such a
    premise; statements about computed values allow for [margin]. *)

Definition margin : Q := 1 # 1000000000.

(** A temperature of ordinary size. *)
Definition ordinary (x : Q) : bool := Qle_bool (Qabs x) 1000000.

(** A whole multiple of 1/1024 of ordinary size. *)
Definition binary_fraction (x : Q) : bool :=
  ordinary x && Qeq_bool (inject_Z (Qfloor (x * 1024))) (x * 1024).

(** [a] is within [threshold] of [b], or beyond it, by more than
    rounding can change. *)
Definition clearly_within (threshold a b : Q) : bool :=
  ordinary a && ordinary b &&
  Qle_bool (Qabs (a - b)) (threshold - margin).

Definition clearly_beyond (threshold a b : Q) : bool :=
  ordinary a && ordinary b &&
  Qle_bool (threshold + margin) (Qabs (a - b)).

(** The test [|a - b| <= threshold] is decided the same way with and
    without rounding. *)
Definition clear_of (threshold a b : Q) : bool :=
  clearly_within threshold a b || clearly_beyond threshold a b
  || (binary_fraction a && binary_fraction b).

(** * Properties *)

(** ** Rounding premises *)

(** Decimal inputs at which binary64 decides a comparison differently
    from exact arithmetic -- one step from 15.4 to 16.4, half a degree
    from 15.6 to 16.1, one degree from 15.1 to 16.1 -- do not pass
    [clear_of]; values that binary64 stores exactly do, also on the
    threshold itself. *)
Example rounding_sensitive_inputs :
  clear_of INTERMEDIATE_STEP_SIZE 16.4 15.4 = false /\
  clear_of TEMP_TOLERANCE 16.1 15.6 = false /\
  clear_of (TEMP_TOLERANCE * 2) 16.1 15.1 = false /\
  clear_of (TEMP_TOLERANCE * 2) 11 10 = true /\
  clear_of TEMP_TOLERANCE 10.5 10 = true /\
  clear_of INTERMEDIATE_STEP_SIZE 24.3 20 = true.
Proof. vm_compute. repeat split. Qed.

(** The same comparisons as the script makes them, in binary64: the
    first three come out against exact arithmetic, the last three with
    it. *)
Module Binary64Facts.
Import Floats.
Local Open Scope float_scope.
Local Set Warnings "-inexact-float".

Example binary64_comparisons :
  (abs (16.4 - 15.4) <? 1) = true /\
  (abs (16.1 - 15.6) <=? 0.5) = false /\
  (abs (16.1 - 15.1) <=? 0.5 * 2) = false /\
  (abs (11 - 10) <=? 0.5 * 2) = true /\
  (abs (10.5 - 10) <=? 0.5) = true /\
  (abs (24.3 - 20) <? 1) = false.
Proof. vm_compute. repeat split. Qed.

End Binary64Facts.

(** ** Arithmetic of the helpers *)

Lemma Qlt_bool_iff (a b : Q) : Qlt_bool a b = true <-> a < b.
Proof.
  unfold Qlt_bool. rewrite negb_true_iff.
  split; intros H.
  - apply Qnot_le_lt. intros Hle. apply Qle_bool_iff in Hle. congruence.
  - destruct (Qle_bool b a) eqn:Hb; [|reflexivity].
    apply Qle_bool_iff in Hb. exfalso. apply (Qlt_not_le _ _ H Hb).
Qed.

Lemma Qlt_bool_false_iff (a b : Q) : Qlt_bool a b = false <-> b <= a.
Proof.
  unfold Qlt_bool. rewrite negb_false_iff. apply Qle_bool_iff.
Qed.

Lemma Qle_bool_false_iff (a b : Q) : Qle_bool a b = false <-> b < a.
Proof.
  split; intros H.
  - apply Qnot_le_lt. intros Hle. apply Qle_bool_iff in Hle. congruence.
  - destruct (Qle_bool a b) eqn:Hb; [|reflexivity].
    apply Qle_bool_iff in Hb. exfalso. apply (Qlt_not_le _ _ H Hb).
Qed.

(** On a non-negative float [int] is the floor. *)
Lemma py_int_floor (x : Q) : 0 <= x -> py_int x = Qfloor x.
Proof.
  destruct x as [n d]. unfold py_int, Qfloor, Qle. simpl. intros H.
  apply Z.quot_div_nonneg; lia.
Qed.

Lemma py_int_bounds (x : Q) :
  0 <= x -> (0 <= py_int x)%Z /\ inject_Z (py_int x) <= x < inject_Z (py_int x) + 1.
Proof.
  intros H. rewrite (py_int_floor x H).
  pose proof (Qfloor_le x) as Hle. pose proof (Qlt_floor x) as Hlt.
  rewrite inject_Z_plus in Hlt.
  repeat split; try assumption.
  assert (Hz : inject_Z (-1) < inject_Z (Qfloor x)).
  { change (inject_Z (-1)) with (-1). change (inject_Z 1) with 1 in Hlt. lra. }
  rewrite <- Zlt_Qlt in Hz. lia.
Qed.

Lemma num_steps_bounds (current_temp target_temp : Q) :
  let d := Qabs (target_temp - current_temp) in
  let n := py_int (d / INTERMEDIATE_STEP_SIZE) in
  (0 <= n)%Z /\ inject_Z n <= d < inject_Z n + 1.
Proof.
  intros d n.
  assert (Hd : 0 <= d) by apply Qabs_nonneg.
  assert (Heq : d / INTERMEDIATE_STEP_SIZE == d).
  { unfold INTERMEDIATE_STEP_SIZE. field. }
  assert (H0 : 0 <= d / INTERMEDIATE_STEP_SIZE) by (rewrite Heq; exact Hd).
  destruct (py_int_bounds _ H0) as [Hn [Hlo Hhi]].
  fold n in Hn, Hlo, Hhi. rewrite Heq in Hlo, Hhi. auto.
Qed.

Lemma num_steps_zero (current_temp target_temp : Q) :
  Qabs (target_temp - current_temp) < 1 <->
  py_int (Qabs (target_temp - current_temp) / INTERMEDIATE_STEP_SIZE) = 0%Z.
Proof.
  destruct (num_steps_bounds current_temp target_temp) as [Hn [Hlo Hhi]].
  cbv zeta in *.
  set (n := py_int _) in *.
  split; intros H.
  - assert (Hz : inject_Z n < inject_Z 1).
    { change (inject_Z 1) with 1. lra. }
    rewrite <- Zlt_Qlt in Hz. lia.
  - rewrite H in Hhi. change (inject_Z 0) with 0 in Hhi. lra.
Qed.

(** ** Ramp planner *)

Module PlannerFacts.
Import Planner.

Lemma last_map_seq (g : nat -> Q) (i n : nat) (d : Q) :
  last (map g (seq i (S n))) d = g (i + n)%nat.
Proof.
  revert i. induction n as [|n IH]; intros i.
  - simpl. f_equal. lia.
  - change (seq i (S (S n))) with (i :: seq (S i) (S n)).
    rewrite map_cons.
    change (last (g i :: map g (seq (S i) (S n))) d)
      with (last (map g (seq (S i) (S n))) d).
    rewrite IH. f_equal. lia.
Qed.

Lemma deltas_map_seq (g : nat -> Q) (i n : nat) :
  deltas (map g (seq i (S n))) = map (fun k => g (S k) - g k) (seq i n).
Proof.
  revert i. induction n as [|n IH]; intros i.
  - reflexivity.
  - change (seq i (S (S n))) with (i :: seq (S i) (S n)).
    rewrite map_cons.
    change (seq i (S n)) with (i :: seq (S i) n).
    rewrite map_cons, <- IH. reflexivity.
Qed.

Lemma deltas_cons (a : Q) (g : nat -> Q) (i n : nat) :
  deltas (a :: map g (seq i (S n)))
  = (g i - a) :: deltas (map g (seq i (S n))).
Proof. reflexivity. Qed.

Lemma deltas_snoc (l : list Q) (a x : Q) :
  deltas ((a :: l) ++ [x]) = deltas (a :: l) ++ [x - last (a :: l) 0].
Proof.
  revert a. induction l as [|b l IH]; intros a.
  - reflexivity.
  - change (deltas ((a :: b :: l) ++ [x]))
      with ((b - a) :: deltas ((b :: l) ++ [x])).
    rewrite IH. reflexivity.
Qed.

Lemma Sorted_map_seq (R : Q -> Q -> Prop) (g : nat -> Q) (i n : nat) :
  (forall k, R (g k) (g (S k))) -> Sorted R (map g (seq i n)).
Proof.
  intros HR. revert i. induction n as [|n IH]; intros i.
  - constructor.
  - simpl. constructor; [apply IH|].
    destruct n; simpl; constructor. apply HR.
Qed.

Lemma Sorted_snoc (R : Q -> Q -> Prop) (l : list Q) (a x : Q) :
  Sorted R (a :: l) -> R (last (a :: l) 0) x -> Sorted R ((a :: l) ++ [x]).
Proof.
  revert a. induction l as [|b l IH]; intros a Hs Hx.
  - simpl in *. repeat constructor. exact Hx.
  - inversion Hs as [|? ? Hs' Hhd]; subst.
    inversion Hhd; subst.
    change ((a :: b :: l) ++ [x]) with (a :: ((b :: l) ++ [x])).
    constructor.
    + apply IH; assumption.
    + simpl. constructor. assumption.
Qed.

Lemma Forall_removelast {A} (P : A -> Prop) (l : list A) :
  Forall P l -> Forall P (removelast l).
Proof.
  induction 1 as [|a l Ha Hl IH]; simpl; [constructor|].
  destruct l; [constructor|]. constructor; assumption.
Qed.

Lemma whole_steps_eq (current_temp direction : Q) (n : nat) :
  map (setpoint current_temp direction) (py_range 1 n)
  = map (whole_step current_temp direction) (seq 1 n).
Proof. unfold py_range. rewrite map_map. reflexivity. Qed.

Lemma whole_step_succ (c d : Q) (k : nat) :
  whole_step c d (S k) - whole_step c d k == d.
Proof.
  unfold whole_step, setpoint, INTERMEDIATE_STEP_SIZE.
  rewrite Nat2Z.inj_succ. unfold Z.succ. rewrite inject_Z_plus.
  change (inject_Z 1) with 1. ring.
Qed.

Lemma whole_step_first (c d : Q) : whole_step c d 1 - c == d.
Proof.
  unfold whole_step, setpoint, INTERMEDIATE_STEP_SIZE. simpl.
  change (inject_Z 1) with 1. ring.
Qed.

Lemma whole_step_val (c d : Q) (k : nat) :
  whole_step c d k == c + d * inject_Z (Z.of_nat k).
Proof. unfold whole_step, setpoint, INTERMEDIATE_STEP_SIZE. ring. Qed.

End PlannerFacts.

Section PlannerTheorems.
Import Planner PlannerFacts.

(** The two shapes a plan can take. *)
Lemma plan_shape (current_temp target_temp ramp_rate : Q) :
  0 < ramp_rate ->
  1 <= Qabs (target_temp - current_temp) ->
  exists (n : nat) (direction : Q),
    py_int (Qabs (target_temp - current_temp) / INTERMEDIATE_STEP_SIZE)
    = Z.of_nat (S n) /\
    inject_Z (Z.of_nat (S n)) <= Qabs (target_temp - current_temp)
      < inject_Z (Z.of_nat (S n)) + 1 /\
    (current_temp < target_temp /\ direction = 1 \/
     target_temp < current_temp /\ direction = -1) /\
    let whole := map (whole_step current_temp direction) (seq 1 (S n)) in
    calculate_intermediate_temps current_temp target_temp ramp_rate
    = Ret (if Qlt_bool 0.1 (Qabs (last whole 0 - target_temp))
           then whole ++ [target_temp] else whole,
           INTERMEDIATE_STEP_SIZE / ramp_rate * 60).
Proof.
  intros Hrate Hdist.
  destruct (num_steps_bounds current_temp target_temp) as [Hn [Hlo Hhi]].
  cbv zeta in Hn, Hlo, Hhi.
  unfold calculate_intermediate_temps.
  set (steps := py_int _) in *.
  assert (Hpos : (0 < steps)%Z).
  { assert (Hz : inject_Z 0 < inject_Z steps).
    { change (inject_Z 0) with 0.
      destruct (Z.eq_dec steps 0) as [Hs|Hs].
      - rewrite Hs in Hhi. change (inject_Z 0) with 0 in Hhi. lra.
      - assert (Hz' : inject_Z 0 <= inject_Z steps) by (rewrite <- Zle_Qle; lia).
        change (inject_Z 0) with 0 in Hz'.
        apply Qle_lteq in Hz'. destruct Hz' as [Hlt|Heq]; [exact Hlt|].
        exfalso. apply Hs. symmetry.
        apply (inject_Z_injective 0 steps). exact Heq. }
    rewrite <- Zlt_Qlt in Hz. exact Hz. }
  destruct (Z.to_nat steps) as [|n] eqn:Hnat; [lia|].
  assert (Hsteps : Z.of_nat (S n) = steps) by lia.
  exists n.
  exists (if Qlt_bool 0 (target_temp - current_temp) then 1 else -1).
  rewrite Hsteps.
  split; [reflexivity|].
  split; [split; assumption|].
  split.
  - destruct (Qlt_bool 0 (target_temp - current_temp)) eqn:Hdir.
    + left. apply Qlt_bool_iff in Hdir. split; [lra|reflexivity].
    + right. apply Qlt_bool_false_iff in Hdir. split; [|reflexivity].
      apply Qnot_le_lt. intros Hge.
      assert (Hz : target_temp - current_temp == 0) by lra.
      rewrite Hz in Hdist. simpl in Hdist. lra.
  - cbv zeta.
    destruct (steps =? 0)%Z eqn:Hs0; [apply Z.eqb_eq in Hs0; lia|].
    rewrite whole_steps_eq.
    destruct (Qeq_bool ramp_rate 0) eqn:Hr0.
    + apply Qeq_bool_iff in Hr0. lra.
    + reflexivity.
Qed.

(** Distance between the last whole step and the target. *)
Lemma last_whole_gap (current_temp target_temp direction : Q) (n : nat) :
  inject_Z (Z.of_nat (S n)) <= Qabs (target_temp - current_temp) ->
  (current_temp < target_temp /\ direction = 1 \/
   target_temp < current_temp /\ direction = -1) ->
  let whole := map (whole_step current_temp direction) (seq 1 (S n)) in
  Qabs (last whole 0 - target_temp)
  == Qabs (target_temp - current_temp) - inject_Z (Z.of_nat (S n)).
Proof.
  intros Hlo Hdir whole. unfold whole.
  rewrite last_map_seq. rewrite whole_step_val.
  replace (1 + n)%nat with (S n) by lia.
  set (k := inject_Z (Z.of_nat (S n))) in *.
  destruct Hdir as [[Hlt Hd]|[Hlt Hd]]; subst direction.
  - rewrite (Qabs_pos (target_temp - current_temp)) in * by lra.
    rewrite Qabs_neg by lra. ring.
  - rewrite (Qabs_neg (target_temp - current_temp)) in * by lra.
    rewrite Qabs_pos by lra. ring.
Qed.


Lemma whole_deltas (current_temp direction : Q) (n : nat) :
  direction = 1 \/ direction = -1 ->
  Forall (fun d => Qabs d == INTERMEDIATE_STEP_SIZE)
         (deltas (current_temp
                  :: map (whole_step current_temp direction) (seq 1 (S n)))).
Proof.
  intros Hd.
  assert (Habs : Qabs direction == INTERMEDIATE_STEP_SIZE).
  { destruct Hd; subst direction; reflexivity. }
  rewrite deltas_cons, deltas_map_seq.
  constructor.
  - rewrite whole_step_first. exact Habs.
  - apply Forall_forall. intros d Hin.
    apply in_map_iff in Hin. destruct Hin as [k [Hk _]]. subst d.
    rewrite whole_step_succ. exact Habs.
Qed.

Lemma whole_sorted_up (current_temp : Q) (n : nat) :
  Sorted Qlt (current_temp :: map (whole_step current_temp 1) (seq 1 (S n))).
Proof.
  constructor.
  - apply Sorted_map_seq. intros k.
    pose proof (whole_step_succ current_temp 1 k). lra.
  - simpl. constructor.
    pose proof (whole_step_first current_temp 1). lra.
Qed.

Lemma whole_sorted_down (current_temp : Q) (n : nat) :
  Sorted (fun a b => b < a)
         (current_temp :: map (whole_step current_temp (-1)) (seq 1 (S n))).
Proof.
  constructor.
  - apply Sorted_map_seq. intros k.
    pose proof (whole_step_succ current_temp (-1) k). lra.
  - simpl. constructor.
    pose proof (whole_step_first current_temp (-1)). lra.
Qed.

(** Below one step size the planner takes its early return. *)
Lemma plan_without_whole_step (current_temp target_temp ramp_rate : Q) :
  Qabs (target_temp - current_temp) < 1 ->
  calculate_intermediate_temps current_temp target_temp ramp_rate
  = Ret ([target_temp], 0).
Proof.
  intros H. apply num_steps_zero in H.
  unfold calculate_intermediate_temps. rewrite H. reflexivity.
Qed.






(** C2 as stated fails: the target is appended only when the last whole
    step is more than 0.1 away from it, so from 20 to 24.05 the plan ends
    at 24, not at the target. *)
Lemma ramp_plan_not_exact :
  exists temps dwell,
    calculate_intermediate_temps 20 24.05 2 = Ret (temps, dwell) /\
    ~ last temps 0 == 24.05.
Proof.
  exists [21; 22; 23; 24], (INTERMEDIATE_STEP_SIZE / 2 * 60).
  split; [vm_compute; reflexivity|].
  simpl. intros H. vm_compute in H. discriminate.
Qed.

(** In exact arithmetic: for a positive rate the planner returns a
    non-empty setpoint sequence that is strictly monotonic in the
    direction of [target - current] (counted from the current
    temperature), whose steps all have magnitude exactly the step size
    except possibly the last, and that ends within 0.1 of the target: at
    exactly the target when there is no whole step or the distance left
    after the whole steps exceeds 0.1, and at the last whole step
    otherwise. *)
Lemma ramp_plan_exact (current_temp target_temp ramp_rate : Q) :
  0 < ramp_rate ->
  exists temps dwell,
    calculate_intermediate_temps current_temp target_temp ramp_rate
    = Ret (temps, dwell) /\
    temps <> [] /\
    (current_temp < target_temp -> Sorted Qlt (current_temp :: temps)) /\
    (target_temp < current_temp ->
     Sorted (fun a b => b < a) (current_temp :: temps)) /\
    (current_temp == target_temp -> temps = [target_temp]) /\
    Forall (fun d => Qabs d == INTERMEDIATE_STEP_SIZE)
           (removelast (deltas (current_temp :: temps))) /\
    Qabs (last temps 0 - target_temp) <= 0.1 /\
    (Qabs (target_temp - current_temp) < 1
     \/ 0.1 < remainder current_temp target_temp ->
     last temps 0 = target_temp) /\
    (1 <= Qabs (target_temp - current_temp) ->
     remainder current_temp target_temp <= 0.1 ->
     Qabs (last temps 0 - target_temp)
     == remainder current_temp target_temp).
Proof.
  intros Hrate.
  assert (Hself : Qabs (target_temp - target_temp) <= 0.1).
  { assert (Hz : target_temp - target_temp == 0) by ring.
    rewrite Hz. vm_compute. discriminate. }
  destruct (Qlt_le_dec (Qabs (target_temp - current_temp)) 1) as [Hnear|Hfar].
  - (* no whole step *)
    exists [target_temp], 0.
    split; [apply plan_without_whole_step; exact Hnear|].
    split; [discriminate|].
    split; [intros Hlt; repeat constructor; exact Hlt|].
    split; [intros Hlt; repeat constructor; exact Hlt|].
    split; [reflexivity|].
    split; [simpl; constructor|].
    split; [exact Hself|].
    split; [reflexivity|].
    intros Hfar. lra.
  - destruct (plan_shape _ _ _ Hrate Hfar)
      as (n & d & Hsteps & [Hlo Hhi] & Hdir & Hplan).
    cbv zeta in Hplan.
    pose proof (last_whole_gap _ _ _ _ Hlo Hdir) as Hgap. cbv zeta in Hgap.
    set (whole := map (whole_step current_temp d) (seq 1 (S n))) in *.
    assert (Hrem : remainder current_temp target_temp
                   == Qabs (last whole 0 - target_temp)).
    { unfold remainder. rewrite Hsteps. rewrite Hgap. reflexivity. }
    assert (Hd : d = 1 \/ d = -1) by (destruct Hdir as [[_ ?]|[_ ?]]; auto).
    pose proof (whole_deltas current_temp d n Hd) as Hdeltas.
    fold whole in Hdeltas.
    assert (Hlast : last whole 0 == current_temp + d * inject_Z (Z.of_nat (S n))).
    { unfold whole. rewrite last_map_seq, whole_step_val.
      replace (1 + n)%nat with (S n) by lia. reflexivity. }
    assert (Hne : whole <> []) by (unfold whole; simpl; discriminate).
    rewrite Hplan.
    destruct (Qlt_bool 0.1 (Qabs (last whole 0 - target_temp))) eqn:Happ.
    + (* the target is appended *)
      apply Qlt_bool_iff in Happ.
      exists (whole ++ [target_temp]), (INTERMEDIATE_STEP_SIZE / ramp_rate * 60).
      split; [reflexivity|].
      split; [intros Hnil; apply app_eq_nil in Hnil; destruct Hnil; discriminate|].
      split.
      { intros Hlt. destruct Hdir as [[_ ->]|[Hgt _]]; [|lra].
        change (current_temp :: whole ++ [target_temp])
          with ((current_temp :: whole) ++ [target_temp]).
        apply Sorted_snoc; [apply whole_sorted_up|].
        change (last (current_temp :: whole) 0) with (last whole 0).
        rewrite Hlast.
        rewrite (Qabs_pos (target_temp - current_temp)) in Hgap by lra.
        rewrite Hgap in Happ.
        assert (H01 : 0 < 0.1) by reflexivity. lra. }
      split.
      { intros Hlt. destruct Hdir as [[Hgt _]|[_ ->]]; [lra|].
        change (current_temp :: whole ++ [target_temp])
          with ((current_temp :: whole) ++ [target_temp]).
        apply Sorted_snoc; [apply whole_sorted_down|].
        change (last (current_temp :: whole) 0) with (last whole 0).
        rewrite Hlast.
        rewrite (Qabs_neg (target_temp - current_temp)) in Hgap by lra.
        rewrite Hgap in Happ.
        assert (H01 : 0 < 0.1) by reflexivity. lra. }
      split.
      { intros Heq. exfalso.
        assert (Hz : target_temp - current_temp == 0) by lra.
        rewrite Hz in Hfar. vm_compute in Hfar. apply Hfar. reflexivity. }
      split.
      { change (current_temp :: whole ++ [target_temp])
          with ((current_temp :: whole) ++ [target_temp]).
        rewrite deltas_snoc, removelast_last. exact Hdeltas. }
      rewrite last_last.
      split; [exact Hself|].
      split; [reflexivity|].
      intros _ Hsmall. rewrite Hrem in Hsmall. lra.
    + (* the last whole step is close enough *)
      apply Qlt_bool_false_iff in Happ.
      exists whole, (INTERMEDIATE_STEP_SIZE / ramp_rate * 60).
      split; [reflexivity|].
      split; [exact Hne|].
      split.
      { intros Hlt. destruct Hdir as [[_ ->]|[Hgt _]]; [|lra].
        apply whole_sorted_up. }
      split.
      { intros Hlt. destruct Hdir as [[Hgt _]|[_ ->]]; [lra|].
        apply whole_sorted_down. }
      split.
      { intros Heq. exfalso.
        assert (Hz : target_temp - current_temp == 0) by lra.
        rewrite Hz in Hfar. vm_compute in Hfar. apply Hfar. reflexivity. }
      split; [apply Forall_removelast; exact Hdeltas|].
      split; [exact Happ|].
      split.
      { intros [Hnear|Hbig]; [lra|]. rewrite Hrem in Hbig. lra. }
      intros _ _. symmetry. exact Hrem.
Qed.

(** C2, amended.  For a positive rate and temperatures of ordinary size
    the planner returns a non-empty setpoint sequence that is strictly
    monotonic in the direction of [target - current] (counted from the
    current temperature), whose steps all have the magnitude of the step
    size, up to rounding, except possibly the last, and that ends within
    0.1 of the target, up to rounding: at exactly the target when there
    is no whole step or the distance left after the whole steps is
    clearly more than 0.1, and at the last whole step, which is that
    distance away from the target, when it is clearly less. *)
Theorem ramp_plan_monotone (current_temp target_temp ramp_rate : Q) :
  0 < ramp_rate ->
  ordinary current_temp = true ->
  ordinary target_temp = true ->
  exists temps dwell,
    calculate_intermediate_temps current_temp target_temp ramp_rate
    = Ret (temps, dwell) /\
    temps <> [] /\
    (current_temp + margin <= target_temp ->
     Sorted Qlt (current_temp :: temps)) /\
    (target_temp + margin <= current_temp ->
     Sorted (fun a b => b < a) (current_temp :: temps)) /\
    (current_temp == target_temp -> temps = [target_temp]) /\
    Forall (fun d => Qabs (Qabs d - INTERMEDIATE_STEP_SIZE) <= margin)
           (removelast (deltas (current_temp :: temps))) /\
    Qabs (last temps 0 - target_temp) <= 0.1 + margin /\
    (Qabs (target_temp - current_temp) <= 1 - margin
     \/ 0.1 + margin <= remainder current_temp target_temp <= 1 - margin ->
     last temps 0 = target_temp) /\
    (1 + margin <= Qabs (target_temp - current_temp) ->
     remainder current_temp target_temp <= 0.1 - margin ->
     Qabs (Qabs (last temps 0 - target_temp)
           - remainder current_temp target_temp) <= margin).
Proof.
  intros Hrate _ _.
  destruct (ramp_plan_exact current_temp target_temp ramp_rate Hrate)
    as (temps & dwell & Hplan & Hne & Hup & Hdown & Hsame & Hsteps & Hend
        & Hexact & Hrem).
  assert (Hm : 0 < margin) by reflexivity.
  assert (Hzero : forall x, x == 0 -> Qabs x <= margin).
  { intros x Hx. rewrite Hx. vm_compute. discriminate. }
  exists temps, dwell.
  split; [exact Hplan|]. split; [exact Hne|].
  split; [intros H; apply Hup; lra|].
  split; [intros H; apply Hdown; lra|].
  split; [exact Hsame|].
  split.
  { eapply Forall_impl; [|exact Hsteps].
    intros d Hd. simpl in Hd. apply Hzero. lra. }
  split; [lra|].
  split.
  { intros [H|[H _]]; apply Hexact; [left|right]; lra. }
  intros Hfar Hsmall. apply Hzero.
  assert (H1 : 1 <= Qabs (target_temp - current_temp)) by lra.
  assert (H2 : remainder current_temp target_temp <= 0.1) by lra.
  specialize (Hrem H1 H2). lra.
Qed.

Lemma ramp_plan_monotone_witness :
  0 < 2 /\ ordinary 20 = true /\ ordinary 24.3 = true /\
  exists temps dwell,
    calculate_intermediate_temps 20 24.3 2 = Ret (temps, dwell) /\
    temps <> [] /\
    (20 + margin <= 24.3 -> Sorted Qlt (20 :: temps)) /\
    (24.3 + margin <= 20 -> Sorted (fun a b => b < a) (20 :: temps)) /\
    (20 == 24.3 -> temps = [24.3]) /\
    Forall (fun d => Qabs (Qabs d - INTERMEDIATE_STEP_SIZE) <= margin)
           (removelast (deltas (20 :: temps))) /\
    Qabs (last temps 0 - 24.3) <= 0.1 + margin /\
    (Qabs (24.3 - 20) <= 1 - margin
     \/ 0.1 + margin <= remainder 20 24.3 <= 1 - margin ->
     last temps 0 = 24.3) /\
    (1 + margin <= Qabs (24.3 - 20) ->
     remainder 20 24.3 <= 0.1 - margin ->
     Qabs (Qabs (last temps 0 - 24.3) - remainder 20 24.3) <= margin).
Proof.
  split; [reflexivity|]. split; [reflexivity|]. split; [reflexivity|].
  apply (ramp_plan_monotone 20 24.3 2); reflexivity.
Defined.

End PlannerTheorems.

(** ** Traces *)

Lemma new_events_app (w w' : World) (evs : list event) :
  trace w' = trace w ++ evs -> new_events w w' = evs.
Proof.
  intros H. unfold new_events. rewrite H.
  rewrite skipn_app, skipn_all, Nat.sub_diag. reflexivity.
Qed.

Lemma stop_signals_app (a b : list event) :
  stop_signals (a ++ b) = (stop_signals a + stop_signals b)%nat.
Proof. unfold stop_signals. rewrite filter_app, length_app. reflexivity. Qed.

Lemma idle_calls_app (a b : list event) :
  idle_calls (a ++ b) = (idle_calls a + idle_calls b)%nat.
Proof. unfold idle_calls. rewrite filter_app, length_app. reflexivity. Qed.

Lemma metadata_writes_app (a b : list event) :
  metadata_writes (a ++ b) = metadata_writes a ++ metadata_writes b.
Proof. apply flat_map_app. Qed.

Lemma completed_steps_app (a b : list event) :
  completed_steps (a ++ b) = completed_steps a ++ completed_steps b.
Proof. apply flat_map_app. Qed.

Lemma thermals_app (a b : list event) :
  thermals (a ++ b) = thermals a ++ thermals b.
Proof. apply flat_map_app. Qed.

Lemma commanded_app (a b : list thermal) :
  commanded (a ++ b) = commanded a ++ commanded b.
Proof. apply flat_map_app. Qed.

Lemma commanded_readings (l : list Q) : commanded (map Reading l) = [].
Proof. induction l as [|t l IH]; simpl; [reflexivity|exact IH]. Qed.

Lemma assigned_numbers_app (a b : list event) :
  assigned_numbers (a ++ b) = assigned_numbers a ++ assigned_numbers b.
Proof. apply flat_map_app. Qed.

Lemma error_lines_app (a b : list event) :
  error_lines (a ++ b) = error_lines a ++ error_lines b.
Proof. apply flat_map_app. Qed.

Lemma quiet_body_event (ev : event) : quiet ev = true -> body_event ev = true.
Proof. destruct ev as [| | |m| | | | |]; try destruct m; simpl; congruence. Qed.

Lemma quiet_all_body (evs : list event) :
  forallb quiet evs = true -> forallb body_event evs = true.
Proof.
  induction evs as [|ev evs IH]; simpl; [reflexivity|].
  rewrite !andb_true_iff. intros [H1 H2].
  split; [apply quiet_body_event; exact H1|apply IH; exact H2].
Qed.

Lemma quiet_no_steps (evs : list event) :
  forallb quiet evs = true -> completed_steps evs = [].
Proof.
  induction evs as [|ev evs IH]; simpl; [reflexivity|].
  rewrite andb_true_iff. intros [H1 H2]. rewrite (IH H2).
  destruct ev as [| | |m| | | | |]; try reflexivity.
  destruct m; simpl in *; try reflexivity. discriminate.
Qed.

Lemma body_events_not_final (evs : list event) :
  forallb body_event evs = true ->
  stop_signals evs = 0%nat /\ idle_calls evs = 0%nat /\ metadata_writes evs = [].
Proof.
  induction evs as [|ev evs IH]; simpl; [auto|].
  rewrite andb_true_iff. intros [H1 H2].
  destruct (IH H2) as (Hs & Hi & Hm).
  unfold stop_signals, idle_calls in *. simpl.
  destruct ev as [c r| | | | | | | |]; simpl in *; try discriminate; auto.
  destruct c; simpl in *; try discriminate; auto.
Qed.

(** ** Frame rules of the monad *)

Section Frames.

Variable E : Env.

Lemma emits_bind {A B} (m : M A) (f : A -> M B)
    (P : outcome A -> list event -> Prop)
    (Q R : outcome B -> list event -> Prop) :
  emits m P ->
  (forall a, emits (f a) Q) ->
  (forall a evs1 r evs2, P (Ret a) evs1 -> Q r evs2 -> R r (evs1 ++ evs2)) ->
  (forall e evs, P (Raise e) evs -> R (Raise e) evs) ->
  (forall evs, P OutOfFuel evs -> R OutOfFuel evs) ->
  emits (bind m f) R.
Proof.
  intros Hm Hf Hret Hraise Hfuel w.
  destruct (Hm w) as (Hc & evs1 & Ht & HP).
  unfold bind. destruct (m w) as [[a|e|] w1]; simpl in *.
  - destruct (Hf a w1) as (Hc2 & evs2 & Ht2 & HQ).
    split; [congruence|].
    exists (evs1 ++ evs2). rewrite Ht2, Ht, app_assoc. split; [reflexivity|].
    eapply Hret; eassumption.
  - split; [exact Hc|]. exists evs1. auto.
  - split; [exact Hc|]. exists evs1. auto.
Qed.

Lemma steady_bind {A B} (m : M A) (f : A -> M B) :
  steady m -> (forall a, steady (f a)) -> steady (bind m f).
Proof.
  intros Hm Hf. unfold steady in *.
  eapply emits_bind; [exact Hm|exact Hf| | |]; simpl; auto.
  intros _ evs1 _ evs2 H1 H2. rewrite forallb_app, H1, H2. reflexivity.
Qed.

Lemma steady_pure {A} (r : outcome A) : steady (lift r).
Proof. intros w. simpl. split; [reflexivity|]. exists []. rewrite app_nil_r. auto. Qed.

Lemma steady_ret {A} (a : A) : steady (ret a).
Proof. apply (steady_pure (Ret a)). Qed.

Lemma steady_get {A} (field : World -> A) : steady (get field).
Proof. intros w. simpl. split; [reflexivity|]. exists []. rewrite app_nil_r. auto. Qed.

Lemma steady_emit (ev : event) : quiet ev = true -> steady (emit ev).
Proof.
  intros Hq w. simpl. split; [reflexivity|]. exists [ev]. simpl.
  rewrite Hq. auto.
Qed.

Lemma steady_print (m : message) :
  quiet (EvPrint m) = true -> steady (print m).
Proof. apply steady_emit. Qed.

Lemma steady_sleep (d : Q) : steady (sleep d).
Proof. intros w. simpl. split; [reflexivity|]. exists [EvSleep d]. auto. Qed.

Lemma steady_set_tracker (t : Q) : steady (set_tracker t).
Proof. intros w. simpl. split; [reflexivity|]. exists []. rewrite app_nil_r. auto. Qed.

Lemma steady_device (c : dev_call) :
  c <> CSetIdle -> steady (device E c).
Proof.
  intros Hc w. unfold device.
  destruct (fault_of E (dev_calls w)) as [e|].
  - simpl. split; [reflexivity|]. exists [EvDev c (Failed e)].
    split; [reflexivity|]. destruct c; simpl; congruence.
  - destruct c; simpl; (split; [reflexivity|]); eexists; (split; [reflexivity|]);
      simpl; congruence.
Qed.

Lemma steady_when (b : bool) (m : M unit) : steady m -> steady (when b m).
Proof. intros Hm. destruct b; simpl; [exact Hm|apply steady_ret]. Qed.

Lemma steady_iterate {S R} (fuel : nat) (body : S -> M (S + R)) (s : S) :
  (forall s, steady (body s)) -> steady (iterate fuel body s).
Proof.
  intros Hb. revert s. induction fuel as [|fuel IH]; intros s; simpl.
  - apply steady_pure.
  - apply steady_bind; [apply Hb|].
    intros [s'|r]; [apply IH|apply steady_ret].
Qed.

Lemma steady_for_each {X} (xs : list X) (body : X -> M unit) :
  (forall x, steady (body x)) -> steady (for_each xs body).
Proof.
  intros Hb. induction xs as [|x xs IH]; simpl.
  - apply steady_ret.
  - apply steady_bind; [apply Hb|intros _; exact IH].
Qed.

End Frames.

(** ** Orchestrator *)

Section Orchestrator.

Variable E : Env.

Lemma steady_get_temp : steady (get_temp E).
Proof. apply steady_device. discriminate. Qed.

Lemma steady_get_temp2 : steady (get_temp2 E).
Proof. apply steady_device. discriminate. Qed.

Lemma steady_get_output : steady (get_output E).
Proof. apply steady_device. discriminate. Qed.

Lemma steady_set_temp (sp : Q) : steady (set_temp E sp).
Proof.
  apply steady_bind; [apply steady_device; discriminate|].
  intros _. apply steady_ret.
Qed.

Lemma steady_time : steady time_time.
Proof. apply steady_get. Qed.

Lemma steady_writerow (t : Q) (el : Z) (target cur : Q) (i : nat) :
  steady (writerow E t el target cur i).
Proof.
  apply steady_bind; [apply steady_get_temp2|].
  intros t2. apply steady_emit. reflexivity.
Qed.

Lemma steady_log_if (logging : option Q) (target cur : Q) (i : nat) :
  steady (log_if E logging target cur i).
Proof.
  destruct logging as [st|]; simpl; [|apply steady_ret].
  apply steady_bind; [apply steady_time|]. intros t. apply steady_writerow.
Qed.

Lemma steady_stability_poll target track logging i ss :
  steady (stability_poll E target track logging i ss).
Proof.
  unfold stability_poll.
  apply steady_bind; [apply steady_get_temp|]. intros cur.
  apply steady_bind; [apply steady_when, steady_set_tracker|]. intros _.
  apply steady_bind; [apply steady_log_if|]. intros _.
  apply steady_bind; [apply steady_time|]. intros t.
  destruct (stability_check target ss t cur) as [s d|s|s|b].
  - apply steady_bind; [apply steady_print; reflexivity|].
    intros _. apply steady_ret.
  - apply steady_bind; [apply steady_print; reflexivity|]. intros _.
    apply steady_bind; [apply steady_sleep|]. intros _. apply steady_ret.
  - apply steady_bind; [apply steady_sleep|]. intros _. apply steady_ret.
  - apply steady_bind; [apply steady_when, steady_print; reflexivity|].
    intros _.
    apply steady_bind; [apply steady_sleep|]. intros _. apply steady_ret.
Qed.

Lemma steady_overshoot_poll cooling osp target track logging i u :
  steady (overshoot_poll E cooling osp target track logging i u).
Proof.
  unfold overshoot_poll.
  apply steady_bind; [apply steady_get_temp|]. intros cur.
  apply steady_bind; [apply steady_when, steady_set_tracker|]. intros _.
  apply steady_bind; [apply steady_log_if|]. intros _.
  destruct (has_crossed cooling target cur).
  - apply steady_bind; [apply steady_print; reflexivity|]. intros _.
    apply steady_bind; [apply steady_set_temp|]. intros _.
    apply steady_bind; [apply steady_sleep|]. intros _. apply steady_ret.
  - apply steady_bind; [apply steady_print; reflexivity|]. intros _.
    apply steady_bind; [apply steady_sleep|]. intros _. apply steady_ret.
Qed.

Lemma steady_overshoot_phase fuel cur target amount track logging i :
  steady (overshoot_phase E fuel cur target amount track logging i).
Proof.
  unfold overshoot_phase.
  destruct (overshoot_setpoint cur target amount) as [cooling osp].
  apply steady_bind; [apply steady_print; reflexivity|]. intros _.
  apply steady_bind; [apply steady_set_temp|]. intros _.
  apply steady_bind; [|intros _; apply steady_sleep].
  apply steady_iterate. intros u. apply steady_overshoot_poll.
Qed.

Lemma steady_wait_for_stability fuel target ov amount track logging i :
  steady (wait_for_stability E fuel target ov amount track logging i).
Proof.
  unfold wait_for_stability.
  apply steady_bind; [apply steady_get_temp|]. intros cur.
  apply steady_bind; [apply steady_when, steady_overshoot_phase|]. intros _.
  apply steady_iterate. intros ss. apply steady_stability_poll.
Qed.

Lemma steady_ramp_poll target st i : steady (ramp_poll E target st i).
Proof.
  unfold ramp_poll.
  apply steady_bind; [apply steady_get_temp|]. intros cur.
  apply steady_bind; [apply steady_set_tracker|]. intros _.
  apply steady_bind; [apply steady_time|]. intros t.
  apply steady_bind; [apply steady_get_output|]. intros p.
  apply steady_bind; [apply steady_writerow|]. intros _.
  apply steady_bind; [apply steady_print; reflexivity|]. intros _.
  apply steady_ret.
Qed.

Lemma steady_ramp_to_temperature fuel target rate st i :
  steady (ramp_to_temperature E fuel target rate st i).
Proof.
  unfold ramp_to_temperature.
  apply steady_bind; [apply steady_get_temp|]. intros cur.
  destruct rate as [rate|].
  - apply steady_bind; [apply steady_pure|]. intros [temps dwell].
    apply steady_for_each. intros [k sp].
    apply steady_bind; [apply steady_set_temp|]. intros _.
    apply steady_bind; [apply steady_time|]. intros t0.
    apply steady_iterate. intros u. unfold dwell_poll.
    apply steady_bind; [apply steady_time|]. intros t.
    destruct (Qlt_bool (t - t0) dwell); [|apply steady_ret].
    apply steady_bind; [apply steady_ramp_poll|]. intros _.
    apply steady_bind; [apply steady_sleep|]. intros _. apply steady_ret.
  - apply steady_bind; [apply steady_set_temp|]. intros _.
    apply steady_iterate. intros u. unfold fast_poll.
    apply steady_bind; [apply steady_ramp_poll|]. intros cur'.
    destruct (Qle_bool _ _); [apply steady_ret|].
    apply steady_bind; [apply steady_sleep|]. intros _. apply steady_ret.
Qed.

(** What one pass of the per-target loop adds to the trace. *)
Lemma experiment_step_events fuel rate ov amount st (i : nat) (target : Q) :
  emits (experiment_step E fuel rate ov amount st (i, target))
        (fun r evs =>
           forallb body_event evs = true /\
           completed_steps evs = if returned r then [i] else []).
Proof.
  unfold experiment_step.
  assert (Hgen : forall {A} (m : M A) (f : A -> M unit),
    steady m ->
    (forall a, emits (f a)
       (fun r evs => forallb body_event evs = true /\
                     completed_steps evs = if returned r then [i] else [])) ->
    emits (bind m f)
       (fun r evs => forallb body_event evs = true /\
                     completed_steps evs = if returned r then [i] else [])).
  { intros A m f Hm Hf.
    eapply emits_bind; [exact Hm|exact Hf| | |]; simpl.
    - intros _ evs1 r evs2 H1 [H2 H3]. split.
      + rewrite forallb_app, (quiet_all_body _ H1), H2. reflexivity.
      + rewrite completed_steps_app, (quiet_no_steps _ H1). exact H3.
    - intros _ evs H. split; [apply quiet_all_body|apply quiet_no_steps]; exact H.
    - intros evs H. split; [apply quiet_all_body|apply quiet_no_steps]; exact H. }
  apply Hgen; [apply steady_ramp_to_temperature|]. intros _.
  apply Hgen; [apply steady_wait_for_stability|]. intros _.
  apply Hgen; [apply steady_get_temp|]. intros cur.
  apply Hgen; [apply steady_set_tracker|]. intros _.
  apply Hgen; [apply steady_time|]. intros t.
  apply Hgen; [apply steady_writerow|]. intros _.
  intros w. simpl. split; [reflexivity|].
  exists [EvPrint (MsgStepComplete i cur)]. auto.
Qed.

(** The per-target loop logs the completion of the steps in order, and of
    all of them exactly when it runs to its end. *)
Lemma target_loop_events fuel rate ov amount st (temps : list Q) (i0 : nat) :
  emits (for_each (combine (seq i0 (length temps)) temps)
                  (experiment_step E fuel rate ov amount st))
        (fun r evs =>
           forallb body_event evs = true /\
           if returned r then completed_steps evs = seq i0 (length temps)
           else exists k, (k < length temps)%nat /\
                          completed_steps evs = seq i0 k).
Proof.
  revert i0. induction temps as [|t temps IH]; intros i0.
  - intros w. simpl. split; [reflexivity|]. exists [].
    rewrite app_nil_r. auto.
  - simpl.
    eapply emits_bind;
      [apply experiment_step_events|intros _; apply (IH (S i0))| | |]; simpl.
    + intros _ evs1 r evs2 [H1 H2] [H3 H4]. split.
      * rewrite forallb_app, H1, H3. reflexivity.
      * rewrite completed_steps_app, H2.
        destruct (returned r).
        -- rewrite H4. reflexivity.
        -- destruct H4 as (k & Hk & H4). exists (S k).
           split; [lia|]. rewrite H4. reflexivity.
    + intros _ evs [H1 H2]. split; [exact H1|].
      exists 0%nat. split; [lia|exact H2].
    + intros evs [H1 H2]. split; [exact H1|].
      exists 0%nat. split; [lia|exact H2].
Qed.


Lemma experiment_body_run fuel temps rate ov amount st (w w' : World)
    (r : outcome unit) :
  experiment_body E fuel temps rate ov amount st w = (r, w') ->
  exists evs,
    trace w' = trace w ++ evs /\
    forallb body_event evs = true /\
    if returned r
    then experiment_completed w' = true /\
         completed_steps evs = seq 1 (length temps)
    else experiment_completed w' = experiment_completed w /\
         exists k, (k < length temps)%nat /\ completed_steps evs = seq 1 k.
Proof.
  unfold experiment_body, enumerate1, bind.
  destruct (target_loop_events fuel rate ov amount st temps 1 w)
    as (Hc & evs & Ht & Hb & Hs).
  destruct (for_each _ _ w) as [[[]|e|] w1]; simpl in *;
    intros H; inversion H; subst; clear H; simpl.
  - exists (evs ++ [EvPrint MsgAllComplete]).
    rewrite Ht, app_assoc. split; [reflexivity|].
    rewrite forallb_app, Hb, completed_steps_app, Hs. simpl.
    rewrite app_nil_r. auto.
  - exists evs. auto.
  - exists evs. auto.
Qed.

(** The [finally] suite always runs to its end: the flag is cleared
    first, [set_idle] is attempted once and whatever it raises is dropped,
    and the metadata record is written last. *)
Lemma finalization_run started temps rate ov amount (w : World) :
  exists w',
    finalization E started temps rate ov amount w = (Ret tt, w') /\
    experiment_running w' = false /\
    experiment_completed w' = experiment_completed w /\
    trace w'
    = trace w
      ++ [EvSignal false]
      ++ match fault_of E (dev_calls w) with
         | Some e => [EvDev CSetIdle (Failed e)]
         | None => [EvDev CSetIdle (Done 0); EvPrint MsgIdle]
         end
      ++ [EvSleep 2;
          EvMetadata
            {| experiment_start := started;
               temperature_targets := temps;
               ramp_mode_controlled := truthy rate;
               ramp_rate_C_per_min := if truthy rate then rate else None;
               overshoot_enabled := ov;
               overshoot_amount_C := if ov then Some amount else None;
               experiment_end := now w + 2;
               total_sweeps := vna_sweep_count w;
               completed := experiment_completed w |}].
Proof.
  unfold finalization, bind, try_except, set_idle, bind, device,
    set_experiment_running, sleep, time_time, get, emit, print, emit, ret.
  simpl.
  destruct (fault_of E (dev_calls w)) as [e|]; simpl;
    eexists; (split; [reflexivity|]); simpl;
    rewrite <- ?app_assoc; simpl; auto.
Qed.


(** However the [try] suite ends, the guarded region runs the three
    finalization effects exactly once. *)
Lemma guarded_run fuel started temps rate ov amount st (w w' : World)
    (r : outcome unit) :
  experiment_completed w = false ->
  guarded_experiment E fuel started temps rate ov amount st w = (r, w') ->
  r <> OutOfFuel ->
  exists evs md,
    trace w' = trace w ++ evs /\
    stop_signals evs = 1%nat /\
    idle_calls evs = 1%nat /\
    metadata_writes evs = [md] /\
    experiment_running w' = false /\
    experiment_completed w' = completed md /\
    if completed md
    then r = Ret tt /\ completed_steps evs = seq 1 (length temps)
    else (r = Ret tt \/ exists what, r = Raise (Exception what)) /\
         exists k, (k < length temps)%nat /\ completed_steps evs = seq 1 k.
Proof.
  intros Hfalse Hrun Hfuel.
  unfold guarded_experiment, try_finally, try_except in Hrun.
  destruct (experiment_body E fuel temps rate ov amount st w)
    as [rb wb] eqn:Hbody.
  apply experiment_body_run in Hbody.
  destruct Hbody as (evs & Ht & Hb & Hs).
  destruct (body_events_not_final _ Hb) as (Hs0 & Hi0 & Hm0).
  destruct rb as [[]|e|]; simpl in Hs.
  - (* all targets done *)
    destruct Hs as [Hdone Hsteps].
    destruct (finalization_run started temps rate ov amount wb)
      as (w2 & Hfin & Hrun2 & Hc2 & Ht2).
    rewrite Hfin in Hrun. inversion Hrun; subst; clear Hrun.
    eexists. eexists. rewrite Ht2, Ht, <- app_assoc.
    split; [reflexivity|].
    rewrite stop_signals_app, idle_calls_app, metadata_writes_app,
      completed_steps_app, Hs0, Hi0, Hm0, Hsteps.
    destruct (fault_of E (dev_calls wb));
      (do 3 (split; [reflexivity|])); (split; [exact Hrun2|]);
      (split; [exact Hc2|]); simpl; rewrite Hdone, app_nil_r; auto.
  - (* an exception left the loop *)
    destruct Hs as [Hsame (k & Hk & Hsteps)].
    destruct e as [|what]; simpl in Hrun.
    + (* KeyboardInterrupt: handled, then finalized *)
      unfold interrupted, bind, print, emit, set_keyboard_interrupt_count
        in Hrun.
      simpl in Hrun.
      match type of Hrun with
      | context [finalization E started temps rate ov amount ?w1] =>
        destruct (finalization_run started temps rate ov amount w1)
          as (w2 & Hfin & Hrun2 & Hc2 & Ht2)
      end.
      rewrite Hfin in Hrun. inversion Hrun; subst; clear Hrun.
      simpl in Ht2, Hc2.
      eexists. eexists. rewrite Ht2, Ht, <- !app_assoc.
      split; [reflexivity|].
      rewrite stop_signals_app, idle_calls_app, metadata_writes_app,
        completed_steps_app, Hs0, Hi0, Hm0, Hsteps.
      destruct (fault_of E (dev_calls wb));
        (do 3 (split; [reflexivity|])); (split; [exact Hrun2|]);
        (split; [exact Hc2|]); simpl; rewrite Hsame, Hfalse, app_nil_r;
        eauto 10.
    + (* any other exception: finalized, then propagated *)
      destruct (finalization_run started temps rate ov amount wb)
        as (w2 & Hfin & Hrun2 & Hc2 & Ht2).
      rewrite Hfin in Hrun. inversion Hrun; subst; clear Hrun.
      eexists. eexists. rewrite Ht2, Ht, <- app_assoc.
      split; [reflexivity|].
      rewrite stop_signals_app, idle_calls_app, metadata_writes_app,
        completed_steps_app, Hs0, Hi0, Hm0, Hsteps.
      destruct (fault_of E (dev_calls wb));
        (do 3 (split; [reflexivity|])); (split; [exact Hrun2|]);
        (split; [exact Hc2|]); simpl; rewrite Hsame, Hfalse, app_nil_r;
        eauto 10.
  - inversion Hrun; subst. congruence.
Qed.


End Orchestrator.

(** C10.  During finalization an exception raised by [set_idle] is
    caught and dropped: the finalization still returns normally and
    writes the metadata record, and the stop flag was cleared before
    [set_idle] was attempted. *)
Theorem idle_failure_suppressed (E : Env) (started : Q) (temps : list Q)
    (rate : option Q) (ov : bool) (amount : Q) (w : World) (e : exn) :
  fault_of E (dev_calls w) = Some e ->
  exists w' md,
    finalization E started temps rate ov amount w = (Ret tt, w') /\
    new_events w w'
    = [EvSignal false; EvDev CSetIdle (Failed e); EvSleep 2; EvMetadata md] /\
    completed md = experiment_completed w /\
    experiment_running w' = false.
Proof.
  intros Hfault.
  destruct (finalization_run E started temps rate ov amount w)
    as (w' & Hfin & Hrun & Hc & Ht).
  rewrite Hfault in Ht.
  exists w'. eexists.
  split; [exact Hfin|].
  split; [apply new_events_app; exact Ht|].
  split; [reflexivity|exact Hrun].
Qed.

Lemma idle_failure_suppressed_witness :
  fault_of (scripted_fault [] 0 0 KeyboardInterrupt) (dev_calls initial_world)
  = Some KeyboardInterrupt /\
  exists w' md,
    finalization (scripted_fault [] 0 0 KeyboardInterrupt) 0 [10] None false 10
                 initial_world = (Ret tt, w') /\
    new_events initial_world w'
    = [EvSignal false; EvDev CSetIdle (Failed KeyboardInterrupt);
       EvSleep 2; EvMetadata md] /\
    completed md = experiment_completed initial_world /\
    experiment_running w' = false.
Proof.
  split; [reflexivity|].
  apply (idle_failure_suppressed
           (scripted_fault [] 0 0 KeyboardInterrupt) 0 [10] None false 10
           initial_world KeyboardInterrupt).
  reflexivity.
Defined.

(** C1.  Every run of [collect_data] that reaches the guarded region and
    ends -- by completing all targets, by [KeyboardInterrupt] or by
    another exception inside the per-target loop -- performs the
    finalization exactly once: the stop flag is cleared once, [set_idle]
    is invoked once and one metadata record is written, with
    [completed = true] exactly when the completion of every target was
    logged. *)
Theorem finalization_exactly_once (E : Env) (fuel : nat) (temps : list Q)
    (rate : option Q) (ov : bool) (amount : Q) (w w' : World)
    (r : outcome bool) :
  fault_of E (dev_calls w) = None ->
  collect_data E fuel temps rate ov amount w = (r, w') ->
  r <> OutOfFuel ->
  experiment_running w' = false /\
  stop_signals (new_events w w') = 1%nat /\
  idle_calls (new_events w w') = 1%nat /\
  exists md,
    metadata_writes (new_events w w') = [md] /\
    (completed md = true <->
     completed_steps (new_events w w') = seq 1 (length temps)) /\
    (completed md = false ->
     exists k, (k < length temps)%nat /\
               completed_steps (new_events w w') = seq 1 k) /\
    (r = Ret (completed md) \/
     completed md = false /\ exists what, r = Raise (Exception what)).
Proof.
  intros Hok Hrun Hfuel.
  unfold collect_data, bind, set_vna_sweep_count, set_experiment_running,
    set_keyboard_interrupt_count, time_time, get, get_temp, device,
    set_tracker, emit, set_experiment_start_time, set_experiment_completed
    in Hrun.
  simpl in Hrun. rewrite Hok in Hrun. simpl in Hrun.
  match type of Hrun with
  | context [guarded_experiment E fuel ?a temps rate ov amount ?b ?w0] =>
    destruct (guarded_experiment E fuel a temps rate ov amount b w0)
      as [rg wg] eqn:Hg
  end.
  assert (Hrg : rg <> OutOfFuel).
  { intros ->. inversion Hrun; subst. congruence. }
  apply guarded_run in Hg; [|reflexivity|exact Hrg].
  destruct Hg as (evs & md & Ht & Hs & Hi & Hm & Hflag & Hc & Hcase).
  simpl in Ht. rewrite <- !app_assoc in Ht. simpl in Ht.
  assert (Hnew : new_events w w'
                 = EvSignal true
                   :: EvDev CGetTemp (Done (temp_of E (temp_reads w)))
                   :: EvThreadStart :: evs
                 /\ experiment_running w' = false
                 /\ (r = Ret (completed md) /\ rg = Ret tt
                     \/ exists what, r = Raise (Exception what)
                                     /\ rg = Raise (Exception what))).
  { destruct rg as [[]|e|]; inversion Hrun; subst; clear Hrun.
    - split; [apply new_events_app; exact Ht|]. split; [exact Hflag|].
      left. rewrite Hc. auto.
    - split; [apply new_events_app; exact Ht|]. split; [exact Hflag|].
      destruct (completed md).
      + destruct Hcase as [Hcase _]. discriminate.
      + destruct Hcase as [[Hcase|[what Hcase]] _]; [discriminate|].
        right. exists what. inversion Hcase; subst. auto.
    - congruence. }
  destruct Hnew as (Hnew & Hflag' & Hres).
  rewrite Hnew.
  split; [exact Hflag'|].
  split; [exact Hs|]. split; [exact Hi|].
  exists md. split; [exact Hm|].
  change (completed_steps (EvSignal true
            :: EvDev CGetTemp (Done (temp_of E (temp_reads w)))
            :: EvThreadStart :: evs))
    with (completed_steps evs).
  destruct (completed md).
  - destruct Hcase as [Hcase Hsteps].
    split; [tauto|]. split; [discriminate|].
    destruct Hres as [[Hr _]|(what & _ & Hr)]; [auto|congruence].
  - destruct Hcase as [Hcase (k & Hk & Hsteps)].
    split.
    + split; [discriminate|]. intros Hall. exfalso.
      rewrite Hsteps in Hall.
      apply (f_equal (@length nat)) in Hall. rewrite !length_seq in Hall. lia.
    + split; [intros _; exists k; auto|].
      destruct Hres as [[Hr _]|(what & Hr & _)]; [auto|].
      right. split; [reflexivity|]. exists what. exact Hr.
Qed.

Lemma finalization_exactly_once_witness :
  let w' := snd (collect_data (scripted [] 10) 10 [10] None false 10
                              initial_world) in
  fault_of (scripted [] 10) (dev_calls initial_world) = None /\
  collect_data (scripted [] 10) 10 [10] None false 10 initial_world
  = (Ret true, w') /\
  Ret true <> @OutOfFuel bool /\
  experiment_running w' = false /\
  stop_signals (new_events initial_world w') = 1%nat /\
  idle_calls (new_events initial_world w') = 1%nat /\
  exists md,
    metadata_writes (new_events initial_world w') = [md] /\
    (completed md = true <->
     completed_steps (new_events initial_world w') = seq 1 (length [10])) /\
    (completed md = false ->
     exists k, (k < length [10])%nat /\
               completed_steps (new_events initial_world w') = seq 1 k) /\
    (Ret true = Ret (completed md) \/
     completed md = false /\ exists what, Ret true = Raise (Exception what)).
Proof.
  intros w'.
  assert (Hrun : collect_data (scripted [] 10) 10 [10] None false 10
                              initial_world = (Ret true, w')).
  { vm_compute. reflexivity. }
  split; [reflexivity|]. split; [exact Hrun|]. split; [discriminate|].
  apply (finalization_exactly_once (scripted [] 10) 10 [10] None false 10
           initial_world w' (Ret true));
    [reflexivity|exact Hrun|discriminate].
Defined.

(** ** Runs without device faults *)

Section FaultFree.

Variable E : Env.
Hypothesis Hff : fault_free E.

Lemma readings_cons (i n : nat) :
  readings E i (S n) = temp_of E i :: readings E (S i) n.
Proof. reflexivity. Qed.

(** A polling loop whose pass consumes one reading and leaves exactly
    when [p] holds of the reading's number runs until the first such
    reading. *)
Lemma poll_until (body : unit -> M (unit + unit)) (p : nat -> bool)
    (tail : list thermal) :
  (forall w, exists w1 evs,
      body tt w = (Ret (if p (temp_reads w) then inr tt else inl tt), w1) /\
      temp_reads w1 = S (temp_reads w) /\
      trace w1 = trace w ++ evs /\
      thermals evs = Reading (temp_of E (temp_reads w))
                     :: (if p (temp_reads w) then tail else [])) ->
  forall k fuel w,
    first_at (fun i => p (temp_reads w + i)%nat) k ->
    (k < fuel)%nat ->
    exists w' evs,
      iterate fuel body tt w = (Ret tt, w') /\
      temp_reads w' = (temp_reads w + S k)%nat /\
      trace w' = trace w ++ evs /\
      thermals evs = map Reading (readings E (temp_reads w) (S k)) ++ tail.
Proof.
  intros Hbody. induction k as [|k IH]; intros fuel w [Hbefore Hat] Hfuel.
  - destruct fuel as [|fuel]; [lia|].
    destruct (Hbody w) as (w1 & evs & Hrun & Hreads & Ht & Hth).
    rewrite Nat.add_0_r in Hat. rewrite Hat in Hrun, Hth.
    exists w1, evs. simpl. unfold bind. rewrite Hrun.
    split; [reflexivity|]. split; [lia|]. split; [exact Ht|exact Hth].
  - destruct fuel as [|fuel]; [lia|].
    destruct (Hbody w) as (w1 & evs & Hrun & Hreads & Ht & Hth).
    assert (H0 : p (temp_reads w) = false).
    { specialize (Hbefore 0%nat). rewrite Nat.add_0_r in Hbefore.
      apply Hbefore. lia. }
    rewrite H0 in Hrun, Hth.
    destruct (IH fuel w1) as (w' & evs' & Hrun' & Hreads' & Ht' & Hth').
    { split.
      - intros i Hi. rewrite Hreads.
        replace (S (temp_reads w) + i)%nat with (temp_reads w + S i)%nat by lia.
        apply Hbefore. lia.
      - rewrite Hreads.
        replace (S (temp_reads w) + k)%nat with (temp_reads w + S k)%nat by lia.
        exact Hat. }
    { lia. }
    exists w', (evs ++ evs'). simpl. unfold bind. rewrite Hrun.
    split; [exact Hrun'|]. split; [lia|].
    split; [rewrite Ht', Ht, app_assoc; reflexivity|].
    rewrite thermals_app, Hth, Hth', Hreads, readings_cons. reflexivity.
Qed.


Lemma overshoot_poll_pass cooling osp target track logging i (w : World) :
  exists w1 evs,
    overshoot_poll E cooling osp target track logging i tt w
    = (Ret (if has_crossed cooling target (temp_of E (temp_reads w))
            then inr tt else inl tt), w1) /\
    temp_reads w1 = S (temp_reads w) /\
    trace w1 = trace w ++ evs /\
    thermals evs = Reading (temp_of E (temp_reads w))
                   :: (if has_crossed cooling target (temp_of E (temp_reads w))
                       then [Setpoint target] else []).
Proof.
  unfold overshoot_poll, log_if, writerow, when, set_temp, bind, get_temp,
    get_temp2, device, set_tracker, time_time, get, print, emit, sleep, ret.
  destruct track, logging as [st|]; simpl; rewrite ?Hff; simpl;
    rewrite ?Hff; simpl;
    destruct (has_crossed _ _ _); simpl; rewrite ?Hff; simpl;
    eexists; eexists; (split; [reflexivity|]); simpl;
    (split; [reflexivity|]); rewrite <- ?app_assoc; simpl;
    (split; [reflexivity|reflexivity]).
Qed.

End FaultFree.



(** C4.  With overshoot enabled [wait_for_stability] takes the entry
    reading, commands [target - delta] when that reading is above the
    target (cooling) and [target + delta] otherwise (heating), and polls;
    at the first polled reading that satisfies the crossing predicate of
    the direction it commands the true target and goes on to the core
    stabilization loop.  Only the crossing predicate decides the exit. *)
Theorem overshoot_crossing (E : Env) (fuel : nat) (target delta : Q)
    (track : bool) (logging : option Q) (i : nat) (w : World) (k : nat) :
  fault_free E ->
  first_at (fun j => has_crossed
                       (Qlt_bool target (temp_of E (temp_reads w))) target
                       (temp_of E (temp_reads w + 1 + j))) k ->
  (k < fuel)%nat ->
  exists w1,
    wait_for_stability E fuel target true delta track logging i w
    = stability_loop E fuel target track logging i None w1 /\
    thermals (new_events w w1)
    = Reading (temp_of E (temp_reads w))
      :: Setpoint (if Qlt_bool target (temp_of E (temp_reads w))
                   then target - delta else target + delta)
      :: map Reading (readings E (temp_reads w + 1) (S k))
      ++ [Setpoint target].
Proof.
  intros Hff Hfirst Hfuel.
  unfold wait_for_stability, when, overshoot_phase, overshoot_setpoint.
  set (cooling := Qlt_bool target (temp_of E (temp_reads w))) in *.
  set (osp := if cooling then target - delta else target + delta).
  unfold set_temp, get_temp, print, emit, bind, device.
  simpl. rewrite ?Hff. simpl. fold cooling.
  assert (Hpair : (if cooling then (true, target - delta)
                   else (false, target + delta)) = (cooling, osp)).
  { unfold osp. destruct cooling; reflexivity. }
  rewrite Hpair. simpl. rewrite ?Hff. simpl.
  match goal with
  | |- context [iterate fuel _ tt ?W] =>
    destruct (poll_until E
                (overshoot_poll E cooling osp target track logging i)
                (fun n => has_crossed cooling target (temp_of E n))
                [Setpoint target]
                (overshoot_poll_pass E Hff cooling osp target track logging i)
                k fuel W)
      as (w' & evs & Hrun & Hreads & Ht & Hth)
  end.
  { simpl. destruct Hfirst as [Hb Ha]. split.
    - intros j Hj. specialize (Hb j Hj).
      replace (S (temp_reads w + j)) with (temp_reads w + 1 + j)%nat by lia.
      exact Hb.
    - replace (S (temp_reads w + k)) with (temp_reads w + 1 + k)%nat by lia.
      exact Ha. }
  { exact Hfuel. }
  rewrite Hrun. simpl.
  eexists. split; [reflexivity|].
  simpl in Ht. rewrite <- !app_assoc in Ht. simpl in Ht.
  erewrite new_events_app.
  2:{ simpl. rewrite Ht, <- !app_assoc. simpl. reflexivity. }
  replace (temp_reads w + 1)%nat with (S (temp_reads w)) by lia.
  change (thermals (EvDev CGetTemp (Done (temp_of E (temp_reads w)))
                    :: EvPrint (MsgOvershoot cooling osp)
                    :: EvDev (CSetTemp osp) (Done 0) :: evs ++ [EvSleep 1]))
    with (Reading (temp_of E (temp_reads w))
          :: Setpoint osp :: thermals (evs ++ [EvSleep 1])).
  rewrite thermals_app, Hth. simpl. rewrite app_nil_r. reflexivity.
Qed.

Lemma overshoot_crossing_witness :
  fault_free (scripted [30; 20; 11; 9] 10) /\
  first_at (fun j => has_crossed
                       (Qlt_bool 10 (temp_of (scripted [30; 20; 11; 9] 10)
                                             (temp_reads initial_world)))
                       10
                       (temp_of (scripted [30; 20; 11; 9] 10)
                                (temp_reads initial_world + 1 + j))) 2 /\
  (2 < 20)%nat /\
  exists w1,
    wait_for_stability (scripted [30; 20; 11; 9] 10) 20 10 true 5
                       true (Some 0) 1 initial_world
    = stability_loop (scripted [30; 20; 11; 9] 10) 20 10 true (Some 0) 1
                     None w1 /\
    thermals (new_events initial_world w1)
    = [Reading 30; Setpoint 5; Reading 20; Reading 11; Reading 9;
       Setpoint 10].
Proof.
  assert (Hff : fault_free (scripted [30; 20; 11; 9] 10))
    by (intros n; reflexivity).
  assert (Hfirst :
    first_at (fun j => has_crossed
                         (Qlt_bool 10 (temp_of (scripted [30; 20; 11; 9] 10)
                                               (temp_reads initial_world)))
                         10
                         (temp_of (scripted [30; 20; 11; 9] 10)
                                  (temp_reads initial_world + 1 + j))) 2).
  { split; [|reflexivity].
    intros j Hj. destruct j as [|[|j]]; [reflexivity|reflexivity|lia]. }
  split; [exact Hff|]. split; [exact Hfirst|]. split; [lia|].
  apply (overshoot_crossing (scripted [30; 20; 11; 9] 10) 20 10 5
           true (Some 0) 1 initial_world 2 Hff Hfirst).
  lia.
Defined.

(** ** Core stabilization loop *)

Lemma poll_time_shift (t0 : Q) (m : nat) :
  poll_time (t0 + 2) m = poll_time t0 (S m).
Proof. unfold poll_time. rewrite Nat.iter_succ_r. reflexivity. Qed.


(** What each verdict of the check says about its inputs. *)
Lemma stability_check_cases (target : Q) (ss : option Q) (t r : Q) :
  match stability_check target ss t r with
  | Stabilized s d =>
    ss = Some s /\ in_tolerance target r = true /\ d = t - s /\
    STABILITY_DURATION <= d
  | Entered s => ss = None /\ in_tolerance target r = true /\ s = t
  | Holding s =>
    ss = Some s /\ in_tolerance target r = true /\
    t - s < STABILITY_DURATION
  | Reset b =>
    in_tolerance target r = false /\
    b = match ss with Some _ => true | None => false end
  end.
Proof.
  unfold stability_check.
  destruct (in_tolerance target r); [|auto].
  destruct ss as [s|]; [|auto].
  destruct (Qle_bool STABILITY_DURATION (t - s)) eqn:Hd.
  - apply Qle_bool_iff in Hd. auto.
  - apply Qle_bool_false_iff in Hd. auto.
Qed.

Lemma check_enter (target t r : Q) :
  in_tolerance target r = true ->
  stability_check target None t r = Entered t.
Proof. intros H. unfold stability_check. rewrite H. reflexivity. Qed.

Lemma check_hold (target s t r : Q) :
  in_tolerance target r = true ->
  t - s < STABILITY_DURATION ->
  stability_check target (Some s) t r = Holding s.
Proof.
  intros H Hlt. unfold stability_check. rewrite H.
  apply Qle_bool_false_iff in Hlt. rewrite Hlt. reflexivity.
Qed.

Lemma check_done (target s t r : Q) :
  in_tolerance target r = true ->
  STABILITY_DURATION <= t - s ->
  stability_check target (Some s) t r = Stabilized s (t - s).
Proof.
  intros H Hle. unfold stability_check. rewrite H.
  apply Qle_bool_iff in Hle. rewrite Hle. reflexivity.
Qed.



Section CoreLoop.

Variable E : Env.

(** A pass of the core loop that returns has consumed one reading and
    acted on the verdict of the check for it. *)
Lemma stability_poll_ret target track logging i ss (w w1 : World)
    (x : option Q + bool) :
  stability_poll E target track logging i ss w = (Ret x, w1) ->
  temp_reads w1 = S (temp_reads w) /\
  match stability_check target ss (now w) (temp_of E (temp_reads w)) with
  | Stabilized s d =>
    x = inr true /\ now w1 = now w /\
    exists evs,
      trace w1
      = trace w ++ evs
        ++ [EvPrint (MsgStabilized (temp_of E (temp_reads w)) d)]
  | Entered s => x = inl (Some s) /\ now w1 = now w + 2
  | Holding s => x = inl (Some s) /\ now w1 = now w + 2
  | Reset _ => x = inl None /\ now w1 = now w + 2
  end.
Proof.
  unfold stability_poll, log_if, writerow, when, bind, get_temp, get_temp2,
    device, set_tracker, time_time, get, print, emit, sleep, ret.
  destruct (fault_of E (dev_calls w)) eqn:Hf1; [discriminate|].
  destruct track, logging as [st|]; simpl;
    try (destruct (fault_of E (S (dev_calls w))) eqn:Hf2; [discriminate|]);
    simpl;
    destruct (stability_check target ss (now w) (temp_of E (temp_reads w)))
      as [s d|s|s|[|]];
    simpl; intros H; inversion H; subst; clear H; simpl;
    (split; [reflexivity|]);
    repeat (split; [reflexivity|]); try reflexivity;
    rewrite <- ?app_assoc; simpl;
    first [ exists []; reflexivity
          | eexists (cons _ nil); reflexivity
          | eexists (cons _ (cons _ nil)); reflexivity
          | eexists (cons _ (cons _ (cons _ nil))); reflexivity ].
Qed.





End CoreLoop.



(** The example trace 10.2, 12, 10.1, 10, 9.9, 10.3 around target 10: the
    first window (one reading) is reset by 12; success is declared at
    the sixth reading with a duration of 6 seconds, counted from the
    re-entry at the third reading. *)
Example stabilization_example :
  let run := stability_loop (scripted [10.2; 12; 10.1; 10; 9.9; 10.3] 10)
                            10 10 true (Some 0) 1 None initial_world in
  fst run = Ret true /\
  temp_reads (snd run) = 6%nat /\
  last (trace (snd run)) EvThreadStart = EvPrint (MsgStabilized 10.3 6).
Proof. vm_compute. auto. Qed.

(** ** Sampling task *)

Section Sampling.

Variable E : Env.

(** The [try] suite raises nothing but [Exception]s. *)
Lemma cycle_raises_Exception (w w1 : World) (e : exn) :
  vna_sweep_cycle E w = (Raise e, w1) -> is_Exception e = true.
Proof.
  unfold vna_sweep_cycle, query_ascii_values, task_sleep, blocked, bind, get,
    set_vna_sweep_count, emit, print, emit, time_time, get, raise, ret, sleep.
  simpl.
  destruct (experiment_start_time w); simpl.
  - destruct (stop_during E (blocking_points w)); simpl;
      destruct (sweep_of E (vna_queries w)); simpl;
      try (destruct (stop_during E (S (blocking_points w))); simpl);
      intros H; inversion H; reflexivity.
  - intros H; inversion H; reflexivity.
Qed.

(** Every pass of the task's loop that finds the flag set assigns exactly
    the next number and comes back for another pass, whether or not the
    acquisition failed. *)
Lemma vna_sweep_iteration_run (w : World) :
  if experiment_running w then
    exists w1 evs,
      vna_sweep_iteration E tt w = (Ret (inl tt), w1) /\
      vna_sweep_count w1 = S (vna_sweep_count w) /\
      trace w1 = trace w ++ evs /\
      assigned_numbers evs = [S (vna_sweep_count w)]
  else vna_sweep_iteration E tt w = (Ret (inr tt), w).
Proof.
  unfold vna_sweep_iteration, try_except, vna_sweep_handler, vna_sweep_cycle,
    query_ascii_values, task_sleep, blocked, when, bind, get,
    set_vna_sweep_count, emit, print, emit, time_time, get, raise, ret, sleep.
  destruct (experiment_running w) eqn:Hrun; [|reflexivity].
  simpl. rewrite Nat.add_1_r.
  destruct (experiment_start_time w); simpl.
  - destruct (stop_during E (blocking_points w)); simpl;
      destruct (sweep_of E (vna_queries w)); simpl;
      rewrite ?Hrun; simpl;
      destruct (stop_during E (S (blocking_points w))); simpl;
      eexists; eexists; (split; [reflexivity|]); simpl;
      (split; [reflexivity|]); rewrite <- ?app_assoc; simpl;
      (split; [reflexivity|reflexivity]).
  - rewrite Hrun. simpl.
    destruct (stop_during E (blocking_points w)); simpl;
      eexists; eexists; (split; [reflexivity|]); simpl;
      (split; [reflexivity|]); rewrite <- ?app_assoc; simpl;
      (split; [reflexivity|reflexivity]).
Qed.

Lemma vna_loop_numbers (fuel : nat) :
  forall w : World,
    (fst (iterate fuel (vna_sweep_iteration E) tt w) = Ret tt \/
     fst (iterate fuel (vna_sweep_iteration E) tt w) = OutOfFuel) /\
    exists n evs,
      vna_sweep_count (snd (iterate fuel (vna_sweep_iteration E) tt w))
      = (vna_sweep_count w + n)%nat /\
      trace (snd (iterate fuel (vna_sweep_iteration E) tt w))
      = trace w ++ evs /\
      assigned_numbers evs = seq (S (vna_sweep_count w)) n.
Proof.
  induction fuel as [|fuel IH]; intros w.
  - simpl. split; [auto|]. exists 0%nat, [].
    rewrite Nat.add_0_r, app_nil_r. auto.
  - simpl. unfold bind.
    pose proof (vna_sweep_iteration_run w) as Hit.
    destruct (experiment_running w).
    + destruct Hit as (w1 & evs1 & Hrun & Hcount & Ht & Hnum).
      rewrite Hrun.
      destruct (IH w1) as (Hres & n & evs & Hcount' & Ht' & Hnum').
      split; [exact Hres|].
      exists (S n), (evs1 ++ evs).
      rewrite Hcount', Ht', Ht, Hcount, app_assoc.
      split; [lia|]. split; [reflexivity|].
      rewrite assigned_numbers_app, Hnum, Hnum', Hcount. reflexivity.
    + rewrite Hit. simpl. split; [auto|]. exists 0%nat, [].
      rewrite Nat.add_0_r, app_nil_r. auto.
Qed.



End Sampling.



(** In that run the second acquisition fails: the numbers 1, 2 and 3 are
    assigned all the same, and the failure is reported. *)
Example sweep_numbers_example :
  let run := vna_sweep_thread
               (sampling [inr [1; 2; 3; 4; 5; 6]; inl "timeout"%string;
                          inr [1; 2; 3]] 5) 10 running_world in
  assigned_numbers (trace (snd run)) = [1; 2; 3]%nat /\
  error_lines (trace (snd run)) = [Exception "timeout"].
Proof. vm_compute. auto. Qed.

(** C6 as stated fails: an acquisition error that is handled after the
    stop signal has landed leaves no log line.  Here the signal lands
    while the first query is in flight and the query times out. *)
Lemma sweep_error_unlogged :
  exists w1 w2,
    vna_sweep_cycle (sampling [inl "timeout"%string] 0) running_world
    = (Raise (Exception "timeout"), w1) /\
    try_except (vna_sweep_cycle (sampling [inl "timeout"%string] 0))
               is_Exception
               (vna_sweep_handler (sampling [inl "timeout"%string] 0))
               running_world
    = (Ret tt, w2) /\
    error_lines (new_events running_world w2) = [].
Proof.
  eexists. eexists.
  split; [vm_compute; reflexivity|].
  split; [vm_compute; reflexivity|].
  vm_compute. reflexivity.
Qed.

(** C6, amended.  An error raised inside a sampling-task cycle is caught;
    when the stop flag is still set to running at that moment one log
    line for the error is emitted before the retry sleep, and when the
    stop signal has already landed nothing is logged; in both cases the
    task then sleeps 5 seconds and the cycle ends normally. *)
Theorem sweep_error_logged_while_running (E : Env) (w w1 : World) (e : exn) :
  vna_sweep_cycle E w = (Raise e, w1) ->
  exists w2,
    try_except (vna_sweep_cycle E) is_Exception (vna_sweep_handler E) w
    = (Ret tt, w2) /\
    new_events w1 w2
    = (if experiment_running w1 then [EvPrint (MsgSweepError e)] else [])
      ++ [EvSleep 5].
Proof.
  intros Hraise.
  pose proof (cycle_raises_Exception E w w1 e Hraise) as Hexc.
  unfold try_except. rewrite Hraise, Hexc.
  unfold vna_sweep_handler, task_sleep, blocked, when, bind, get, print,
    emit, sleep, ret.
  destruct (experiment_running w1); simpl;
    destruct (stop_during E (blocking_points w1)); simpl;
    eexists; (split; [reflexivity|]);
    apply new_events_app; simpl; rewrite <- ?app_assoc; reflexivity.
Qed.

Lemma sweep_error_logged_while_running_witness :
  let E := sampling [inl "timeout"%string] 5 in
  let w1 := snd (vna_sweep_cycle E running_world) in
  vna_sweep_cycle E running_world = (Raise (Exception "timeout"), w1) /\
  exists w2,
    try_except (vna_sweep_cycle E) is_Exception (vna_sweep_handler E)
               running_world
    = (Ret tt, w2) /\
    new_events w1 w2
    = (if experiment_running w1
       then [EvPrint (MsgSweepError (Exception "timeout"))] else [])
      ++ [EvSleep 5].
Proof.
  intros E w1.
  assert (Hraise : vna_sweep_cycle E running_world
                   = (Raise (Exception "timeout"), w1)).
  { vm_compute. reflexivity. }
  split; [exact Hraise|].
  apply (sweep_error_logged_while_running E running_world w1
           (Exception "timeout") Hraise).
Defined.

(** ** Example runs of the orchestrator *)

(** Ctrl+C during the stabilization of the first of two targets: the
    interrupt is handled, the experiment is finalized once and reported
    as not completed. *)
Example interrupted_run :
  let run := collect_data
               (scripted_fault [30; 20; 11; 10.5; 10; 10] 10 7
                               KeyboardInterrupt)
               20 [10; 12] None false 10 initial_world in
  fst run = Ret false /\
  map completed (metadata_writes (trace (snd run))) = [false] /\
  stop_signals (trace (snd run)) = 1%nat /\
  idle_calls (trace (snd run)) = 1%nat /\
  keyboard_interrupt_count (snd run) = 1%nat /\
  experiment_running (snd run) = false.
Proof. vm_compute. auto 10. Qed.

(** A device error at the same place: the experiment is finalized once
    and the error propagates to the caller. *)
Example failed_run :
  let run := collect_data
               (scripted_fault [30; 20; 11; 10.5; 10; 10] 10 7
                               (Exception "serial"))
               20 [10; 12] None false 10 initial_world in
  fst run = Raise (Exception "serial") /\
  map completed (metadata_writes (trace (snd run))) = [false] /\
  stop_signals (trace (snd run)) = 1%nat /\
  idle_calls (trace (snd run)) = 1%nat /\
  experiment_running (snd run) = false.
Proof. vm_compute. auto 10. Qed.

(** The temperature read of line 533 precedes the [try] statement: when
    it fails, [collect_data] is left before the guarded region is
    entered and nothing is finalized.  The sampling thread has not been
    started at that point. *)
Example read_failure_before_try :
  let run := collect_data (scripted_fault [] 10 0 (Exception "serial"))
                          20 [10; 12] None false 10 initial_world in
  fst run = Raise (Exception "serial") /\
  trace (snd run)
  = [EvSignal true; EvDev CGetTemp (Failed (Exception "serial"))].
Proof. vm_compute. auto. Qed.

(** * Further properties *)

(** ** Elapsed-time formatting *)

Lemma Qfloor_unique (x : Q) (z : Z) :
  inject_Z z <= x -> x < inject_Z z + 1 -> Qfloor x = z.
Proof.
  intros Hlo Hhi.
  pose proof (Qfloor_le x) as Hfl. pose proof (Qlt_floor x) as Hfh.
  rewrite inject_Z_plus in Hfh. change (inject_Z 1) with 1 in Hfh.
  assert (H1 : inject_Z z < inject_Z (Qfloor x) + 1) by lra.
  assert (H2 : inject_Z (Qfloor x) < inject_Z z + 1) by lra.
  change 1 with (inject_Z 1) in H1, H2.
  rewrite <- inject_Z_plus in H1, H2.
  rewrite <- Zlt_Qlt in H1, H2. lia.
Qed.

Lemma py_int_inject (z : Z) : py_int (inject_Z z) = z.
Proof. unfold py_int. simpl. apply Z.quot_1_r. Qed.

Lemma floordiv_bounds (x y : Q) :
  0 < y ->
  y * py_floordiv x y <= x /\ x < y * py_floordiv x y + y.
Proof.
  intros Hy. unfold py_floordiv.
  pose proof (Qfloor_le (x / y)) as Hlo.
  pose proof (Qlt_floor (x / y)) as Hhi.
  rewrite inject_Z_plus in Hhi. change (inject_Z 1) with 1 in Hhi.
  set (q := inject_Z (Qfloor (x / y))) in *.
  assert (Hx : x == y * (x / y)) by (field; lra).
  assert (Hlo' : y * q <= y * (x / y)) by (apply Qmult_le_l; assumption).
  assert (Hhi' : y * (x / y) < y * (q + 1)) by (apply Qmult_lt_l; assumption).
  rewrite <- Hx in Hlo', Hhi'.
  split; [exact Hlo'|].
  setoid_replace (y * q + y) with (y * (q + 1)) by ring. exact Hhi'.
Qed.

Lemma elapsed_fields_recompose (seconds : Q) :
  let '(hours, minutes, secs) := elapsed_fields seconds in
  (hours * 3600 + minutes * 60 + secs = Qfloor seconds)%Z /\
  (0 <= minutes < 60)%Z /\ (0 <= secs < 60)%Z /\
  (0 <= seconds -> (0 <= hours)%Z).
Proof.
  unfold elapsed_fields, py_mod.
  destruct (floordiv_bounds seconds 3600) as [Hh1 Hh2]; [reflexivity|].
  destruct (floordiv_bounds seconds 60) as [Hs1 Hs2]; [reflexivity|].
  destruct (floordiv_bounds (seconds - 3600 * py_floordiv seconds 3600) 60)
    as [Hm1 Hm2]; [reflexivity|].
  unfold py_floordiv in *.
  rewrite !py_int_inject.
  set (h := Qfloor (seconds / 3600)) in *.
  set (k := Qfloor (seconds / 60)) in *.
  set (m := Qfloor ((seconds - 3600 * inject_Z h) / 60)) in *.
  assert (Hk : k = (60 * h + m)%Z).
  { assert (Hq : seconds / 60 == seconds * (1 # 60)) by (field).
    unfold k. rewrite Hq. apply Qfloor_unique.
    - rewrite inject_Z_plus, inject_Z_mult. change (inject_Z 60) with 60. lra.
    - rewrite inject_Z_plus, inject_Z_mult. change (inject_Z 60) with 60. lra. }
  assert (Hrem0 : 0 <= seconds - 60 * inject_Z k) by lra.
  rewrite (py_int_floor _ Hrem0).
  set (s := Qfloor (seconds - 60 * inject_Z k)) in *.
  pose proof (Qfloor_le (seconds - 60 * inject_Z k)) as Hsl.
  pose proof (Qlt_floor (seconds - 60 * inject_Z k)) as Hsh.
  fold s in Hsl, Hsh.
  rewrite inject_Z_plus in Hsh. change (inject_Z 1) with 1 in Hsh.
  assert (Hs : (0 <= s < 60)%Z).
  { assert (H1 : inject_Z (-1) < inject_Z s)
      by (change (inject_Z (-1)) with (-1); lra).
    assert (H2 : inject_Z s < inject_Z 60)
      by (change (inject_Z 60) with 60; lra).
    rewrite <- Zlt_Qlt in H1, H2. lia. }
  assert (Hm : (0 <= m < 60)%Z).
  { assert (H1 : inject_Z (-1) < inject_Z m)
      by (change (inject_Z (-1)) with (-1); lra).
    assert (H2 : inject_Z m < inject_Z 60)
      by (change (inject_Z 60) with 60; lra).
    rewrite <- Zlt_Qlt in H1, H2. lia. }
  split.
  - symmetry. apply Qfloor_unique.
    + rewrite !inject_Z_plus, !inject_Z_mult.
      change (inject_Z 3600) with 3600. change (inject_Z 60) with 60.
      rewrite Hk, inject_Z_plus, inject_Z_mult in Hsl.
      change (inject_Z 60) with 60 in Hsl. lra.
    + rewrite !inject_Z_plus, !inject_Z_mult.
      change (inject_Z 3600) with 3600. change (inject_Z 60) with 60.
      rewrite Hk, inject_Z_plus, inject_Z_mult in Hsh.
      change (inject_Z 60) with 60 in Hsh. lra.
  - split; [exact Hm|]. split; [exact Hs|].
    intros Hpos.
    assert (H1 : inject_Z (-1) < inject_Z h)
      by (change (inject_Z (-1)) with (-1); lra).
    rewrite <- Zlt_Qlt in H1. lia.
Qed.

Lemma pad2_length (z : Z) :
  (0 <= z < 100)%Z -> String.length (pad2 z) = 2%nat.
Proof.
  intros Hz. rewrite <- (Z2Nat.id z) by lia.
  assert (Hn : (Z.to_nat z < 100)%nat) by lia.
  generalize dependent (Z.to_nat z). intros n Hn.
  do 100 (destruct n as [|n]; [reflexivity|]). lia.
Qed.

Lemma string_length_append (a b : string) :
  String.length (a ++ b) = (String.length a + String.length b)%nat.
Proof. induction a as [|c a IH]; simpl; [reflexivity|rewrite IH; reflexivity]. Qed.

(** X1.  For an elapsed time that is not negative [format_elapsed_time]
    splits the whole seconds of its argument into hours, minutes in
    0..59 and seconds in 0..59 (the fields recompose to
    [floor(seconds)]), and below 100 hours the string is exactly the
    eight characters [HH:MM:SS].  The argument is of ordinary size and
    not so close below a whole second that storing it as a float would
    round it up to the next one. *)
Theorem format_elapsed_time_fields (seconds : Q) :
  0 <= seconds <= 1000000 ->
  seconds - inject_Z (Qfloor seconds) <= 1 - margin ->
  exists hours minutes secs,
    elapsed_fields seconds = (hours, minutes, secs) /\
    format_elapsed_time seconds
    = (pad2 hours ++ ":" ++ pad2 minutes ++ ":" ++ pad2 secs)%string /\
    (hours * 3600 + minutes * 60 + secs = Qfloor seconds)%Z /\
    (0 <= hours)%Z /\ (0 <= minutes < 60)%Z /\ (0 <= secs < 60)%Z /\
    (seconds < 360000 ->
     String.length (format_elapsed_time seconds) = 8%nat).
Proof.
  intros [Hpos _] _.
  pose proof (elapsed_fields_recompose seconds) as H.
  unfold format_elapsed_time.
  destruct (elapsed_fields seconds) as [[hours minutes] secs].
  destruct H as (Hsum & Hm & Hs & Hh).
  exists hours, minutes, secs.
  split; [reflexivity|]. split; [reflexivity|].
  split; [exact Hsum|]. split; [apply Hh; exact Hpos|].
  split; [exact Hm|]. split; [exact Hs|].
  intros Hlt.
  assert (Hhours : (0 <= hours < 100)%Z).
  { split; [apply Hh; exact Hpos|].
    pose proof (Qfloor_le seconds) as Hfl.
    assert (Hz : inject_Z (Qfloor seconds) < inject_Z 360000)
      by (change (inject_Z 360000) with 360000; lra).
    rewrite <- Zlt_Qlt in Hz. lia. }
  rewrite !string_length_append, !pad2_length by lia. reflexivity.
Qed.

Lemma format_elapsed_time_fields_witness :
  0 <= 3725.5 <= 1000000 /\
  3725.5 - inject_Z (Qfloor 3725.5) <= 1 - margin /\
  format_elapsed_time 3725.5 = "01:02:05"%string /\
  exists hours minutes secs,
    elapsed_fields 3725.5 = (hours, minutes, secs) /\
    format_elapsed_time 3725.5
    = (pad2 hours ++ ":" ++ pad2 minutes ++ ":" ++ pad2 secs)%string /\
    (hours * 3600 + minutes * 60 + secs = Qfloor 3725.5)%Z /\
    (0 <= hours)%Z /\ (0 <= minutes < 60)%Z /\ (0 <= secs < 60)%Z /\
    (3725.5 < 360000 ->
     String.length (format_elapsed_time 3725.5) = 8%nat).
Proof.
  assert (H1 : 0 <= 3725.5 <= 1000000)
    by (split; vm_compute; discriminate).
  assert (H2 : 3725.5 - inject_Z (Qfloor 3725.5) <= 1 - margin)
    by (vm_compute; discriminate).
  split; [exact H1|]. split; [exact H2|].
  split; [vm_compute; reflexivity|].
  exact (format_elapsed_time_fields 3725.5 H1 H2).
Defined.

(** ** Ramp planner: range of the setpoints *)

(** In exact arithmetic every setpoint of a plan lies between the
    current temperature and the target. *)
Lemma plan_between (current_temp target_temp ramp_rate : Q)
    (temps : list Q) (dwell : Q) :
  0 < ramp_rate ->
  Planner.calculate_intermediate_temps current_temp target_temp ramp_rate
  = Ret (temps, dwell) ->
  Forall (fun sp =>
            (current_temp <= target_temp ->
             current_temp <= sp <= target_temp) /\
            (target_temp <= current_temp ->
             target_temp <= sp <= current_temp)) temps /\
  0 <= dwell.
Proof.
  intros Hrate Hplan.
  destruct (Qlt_le_dec (Qabs (target_temp - current_temp)) 1) as [Hnear|Hfar].
  - rewrite (plan_without_whole_step _ _ _ Hnear) in Hplan.
    inversion Hplan; subst.
    split; [|apply Qle_refl].
    constructor; [|constructor]. split; intros H; split; lra.
  - destruct (plan_shape _ _ _ Hrate Hfar)
      as (n & d & _ & [Hlo _] & Hdir & Hshape).
    cbv zeta in Hshape. rewrite Hshape in Hplan.
    remember (map (Planner.whole_step current_temp d) (seq 1 (S n)))
      as whole eqn:Hw.
    assert (Hwhole : Forall (fun sp =>
              (current_temp <= target_temp ->
               current_temp <= sp <= target_temp) /\
              (target_temp <= current_temp ->
               target_temp <= sp <= current_temp)) whole).
    { apply Forall_forall. intros sp Hin. rewrite Hw in Hin.
      apply in_map_iff in Hin. destruct Hin as (k & Hk & Hin).
      apply in_seq in Hin. subst sp.
      pose proof (PlannerFacts.whole_step_val current_temp d k) as Hval.
      assert (Hk1 : inject_Z 1 <= inject_Z (Z.of_nat k))
        by (rewrite <- Zle_Qle; lia).
      assert (Hk2 : inject_Z (Z.of_nat k) <= inject_Z (Z.of_nat (S n)))
        by (rewrite <- Zle_Qle; lia).
      change (inject_Z 1) with 1 in Hk1.
      destruct Hdir as [[Hlt ->]|[Hlt ->]].
      - rewrite (Qabs_pos (target_temp - current_temp)) in Hlo by lra.
        split; intros H; split; lra.
      - rewrite (Qabs_neg (target_temp - current_temp)) in Hlo by lra.
        split; intros H; split; lra. }
    assert (Hdwell : 0 <= INTERMEDIATE_STEP_SIZE / ramp_rate * 60).
    { unfold INTERMEDIATE_STEP_SIZE.
      assert (Hinv : 0 < / ramp_rate) by (apply Qinv_lt_0_compat; exact Hrate).
      unfold Qdiv. lra. }
    destruct (Qlt_bool 0.1 (Qabs (last whole 0 - target_temp)));
      inversion Hplan; subst; (split; [|exact Hdwell]).
    + apply Forall_app. split; [exact Hwhole|].
      constructor; [|constructor]. split; intros H; split; lra.
    + exact Hwhole.
Qed.

(** X2.  Every setpoint of a plan lies between the current temperature
    and the target, up to rounding: the planner never asks for a
    temperature beyond the target or behind the start.  The dwell is
    never negative. *)
Theorem plan_within_bounds (current_temp target_temp ramp_rate : Q)
    (temps : list Q) (dwell : Q) :
  0 < ramp_rate ->
  ordinary current_temp = true ->
  ordinary target_temp = true ->
  Planner.calculate_intermediate_temps current_temp target_temp ramp_rate
  = Ret (temps, dwell) ->
  Forall (fun sp =>
            (current_temp <= target_temp ->
             current_temp - margin <= sp <= target_temp + margin) /\
            (target_temp <= current_temp ->
             target_temp - margin <= sp <= current_temp + margin)) temps /\
  0 <= dwell.
Proof.
  intros Hrate _ _ Hplan.
  destruct (plan_between _ _ _ _ _ Hrate Hplan) as [Hall Hdwell].
  split; [|exact Hdwell].
  assert (Hm : 0 < margin) by reflexivity.
  eapply Forall_impl; [|exact Hall].
  intros sp [Hup Hdown]. simpl in *.
  split; intros H; [destruct (Hup H)|destruct (Hdown H)]; split; lra.
Qed.

Lemma plan_within_bounds_witness :
  0 < 2 /\ ordinary 24.3 = true /\ ordinary 20 = true /\
  Planner.calculate_intermediate_temps 24.3 20 2
  = Ret ([23.3; 22.3; 21.3; 20.3; 20], INTERMEDIATE_STEP_SIZE / 2 * 60) /\
  Forall (fun sp => (24.3 <= 20 -> 24.3 - margin <= sp <= 20 + margin) /\
                    (20 <= 24.3 -> 20 - margin <= sp <= 24.3 + margin))
         [23.3; 22.3; 21.3; 20.3; 20] /\
  0 <= INTERMEDIATE_STEP_SIZE / 2 * 60.
Proof.
  assert (Hplan : Planner.calculate_intermediate_temps 24.3 20 2
                  = Ret ([23.3; 22.3; 21.3; 20.3; 20],
                         INTERMEDIATE_STEP_SIZE / 2 * 60)).
  { vm_compute. reflexivity. }
  split; [reflexivity|]. split; [reflexivity|]. split; [reflexivity|].
  split; [exact Hplan|].
  apply (plan_within_bounds 24.3 20 2 _ _);
    [reflexivity|reflexivity|reflexivity|exact Hplan].
Defined.

(** ** Sweep files *)

Lemma nth_firstn_lt {A} (l : list A) (i p : nat) (d : A) :
  (i < p)%nat -> nth i (firstn p l) d = nth i l d.
Proof.
  revert i p. induction l as [|a l IH]; intros i p Hi.
  - rewrite firstn_nil. reflexivity.
  - destruct p as [|p]; [lia|]. destruct i as [|i]; simpl; [reflexivity|].
    apply IH. lia.
Qed.

Lemma nth_skipn {A} (l : list A) (i p : nat) (d : A) :
  nth i (skipn p l) d = nth (p + i) l d.
Proof.
  revert l. induction p as [|p IH]; intros l; simpl; [reflexivity|].
  destruct l as [|a l]; [destruct i; reflexivity|]. apply IH.
Qed.

(** X3.  A sweep file has one row per whole third of the values the
    analyzer returned: row [i] (numbered from 1) pairs the [i]-th
    frequency with the [i]-th value of the second and of the third block;
    values beyond three whole blocks are dropped, and fewer than three
    values give a file without rows. *)
Theorem sweep_rows_layout (temp_values : list Q) :
  let p := (length temp_values / 3)%nat in
  length (sweep_rows temp_values) = p /\
  (forall i, (i < p)%nat ->
     nth i (sweep_rows temp_values) (0%Z, 0, 0, 0)
     = ((Z.of_nat i + 1)%Z,
        nth i temp_values 0,
        nth (p + i) temp_values 0,
        nth (2 * p + i) temp_values 0)) /\
  ((length temp_values < 3)%nat -> sweep_rows temp_values = []).
Proof.
  intros p. unfold sweep_rows. fold p.
  split; [rewrite length_map, length_seq; reflexivity|].
  split.
  - intros i Hi.
    rewrite (nth_indep _ (0%Z, 0, 0, 0)
               ((fun i => ((Z.of_nat i + 1)%Z,
                           nth i (firstn p temp_values) 0,
                           nth i (firstn p (skipn p temp_values)) 0,
                           nth i (firstn p (skipn (2 * p) temp_values)) 0))
                  0%nat))
      by (rewrite length_map, length_seq; exact Hi).
    rewrite (map_nth (fun i => ((Z.of_nat i + 1)%Z,
                           nth i (firstn p temp_values) 0,
                           nth i (firstn p (skipn p temp_values)) 0,
                           nth i (firstn p (skipn (2 * p) temp_values)) 0))).
    rewrite seq_nth by exact Hi. simpl Nat.add at 1.
    rewrite !nth_firstn_lt by exact Hi. rewrite !nth_skipn. reflexivity.
  - intros Hshort. assert (Hp : p = 0%nat).
    { unfold p. apply Nat.div_small. exact Hshort. }
    rewrite Hp. reflexivity.
Qed.


(** ** Footprints of the phases *)

Section Confinement.

Variable E : Env.
Variable p : event -> bool.

Lemma confined_pure {A} (r : outcome A) : confined p (lift r).
Proof.
  intros w. simpl. split; [reflexivity|]. split; [reflexivity|].
  exists []. rewrite app_nil_r. auto.
Qed.

Lemma confined_ret {A} (a : A) : confined p (ret a).
Proof. apply (confined_pure (Ret a)). Qed.

Lemma confined_get {A} (field : World -> A) : confined p (get field).
Proof.
  intros w. simpl. split; [reflexivity|]. split; [reflexivity|].
  exists []. rewrite app_nil_r. auto.
Qed.

Lemma confined_bind {A B} (m : M A) (f : A -> M B) :
  confined p m -> (forall a, confined p (f a)) -> confined p (bind m f).
Proof.
  intros Hm Hf w. destruct (Hm w) as (Hg & Hc & evs1 & Ht & Hp).
  unfold bind. destruct (m w) as [[a|e|] w1]; simpl in *.
  - destruct (Hf a w1) as (Hg2 & Hc2 & evs2 & Ht2 & Hp2).
    split; [congruence|]. split; [congruence|].
    exists (evs1 ++ evs2). rewrite Ht2, Ht, app_assoc, forallb_app, Hp, Hp2.
    auto.
  - split; [exact Hg|]. split; [exact Hc|]. exists evs1. auto.
  - split; [exact Hg|]. split; [exact Hc|]. exists evs1. auto.
Qed.

Lemma confined_emit (ev : event) : p ev = true -> confined p (emit ev).
Proof.
  intros Hp w. simpl. split; [reflexivity|]. split; [reflexivity|].
  exists [ev]. simpl. rewrite Hp. auto.
Qed.

Lemma confined_sleep (d : Q) : p (EvSleep d) = true -> confined p (sleep d).
Proof.
  intros Hp w. simpl. split; [reflexivity|]. split; [reflexivity|].
  exists [EvSleep d]. simpl. rewrite Hp. auto.
Qed.

Lemma confined_set_tracker (t : Q) : confined p (set_tracker t).
Proof.
  intros w. simpl. split; [reflexivity|]. split; [reflexivity|].
  exists []. rewrite app_nil_r. auto.
Qed.

Lemma confined_device (c : dev_call) :
  (forall r, p (EvDev c r) = true) -> confined p (device E c).
Proof.
  intros Hp w. unfold device.
  destruct (fault_of E (dev_calls w)) as [e|].
  - simpl. split; [reflexivity|]. split; [reflexivity|].
    exists [EvDev c (Failed e)]. simpl. rewrite Hp. auto.
  - destruct c; simpl; (split; [reflexivity|]); (split; [reflexivity|]);
      eexists; (split; [reflexivity|]); simpl; rewrite Hp; reflexivity.
Qed.

Lemma confined_when (b : bool) (m : M unit) :
  confined p m -> confined p (when b m).
Proof. intros Hm. destruct b; simpl; [exact Hm|apply confined_ret]. Qed.

Lemma confined_iterate {S R} (fuel : nat) (body : S -> M (S + R)) (s : S) :
  (forall s, confined p (body s)) -> confined p (iterate fuel body s).
Proof.
  intros Hb. revert s. induction fuel as [|fuel IH]; intros s; simpl.
  - apply confined_pure.
  - apply confined_bind; [apply Hb|].
    intros [s'|r]; [apply IH|apply confined_ret].
Qed.

Lemma confined_for_each {X} (xs : list X) (body : X -> M unit) :
  (forall x, confined p (body x)) -> confined p (for_each xs body).
Proof.
  intros Hb. induction xs as [|x xs IH]; simpl.
  - apply confined_ret.
  - apply confined_bind; [apply Hb|intros _; exact IH].
Qed.

(** *** The stabilization loop, for any class of events that contains
    what it does *)

Hypothesis p_get_temp : forall r, p (EvDev CGetTemp r) = true.
Hypothesis p_get_temp2 : forall r, p (EvDev CGetTemp2 r) = true.
Hypothesis p_row : forall row, p (EvLogRow row) = true.
Hypothesis p_sleep : forall d, p (EvSleep d) = true.
Hypothesis p_print : forall m, p (EvPrint m) = true.

Lemma confined_writerow (t : Q) (el : Z) (target cur : Q) (i : nat) :
  confined p (writerow E t el target cur i).
Proof.
  apply confined_bind; [apply confined_device, p_get_temp2|].
  intros t2. apply confined_emit, p_row.
Qed.

Lemma confined_log_if (logging : option Q) (target cur : Q) (i : nat) :
  confined p (log_if E logging target cur i).
Proof.
  destruct logging as [st|]; simpl; [|apply confined_ret].
  apply confined_bind; [apply confined_get|]. intros t.
  apply confined_writerow.
Qed.

Lemma confined_stability_loop fuel target track logging i ss :
  confined p (stability_loop E fuel target track logging i ss).
Proof.
  apply confined_iterate. clear ss. intros ss. unfold stability_poll.
  apply confined_bind; [apply confined_device, p_get_temp|]. intros cur.
  apply confined_bind; [apply confined_when, confined_set_tracker|].
  intros _.
  apply confined_bind; [apply confined_log_if|]. intros _.
  apply confined_bind; [apply confined_get|]. intros t.
  destruct (stability_check target ss t cur) as [s d|s|s|b].
  - apply confined_bind; [apply confined_emit, p_print|].
    intros _. apply confined_ret.
  - apply confined_bind; [apply confined_emit, p_print|]. intros _.
    apply confined_bind; [apply confined_sleep, p_sleep|]. intros _.
    apply confined_ret.
  - apply confined_bind; [apply confined_sleep, p_sleep|]. intros _.
    apply confined_ret.
  - apply confined_bind; [apply confined_when, confined_emit, p_print|].
    intros _.
    apply confined_bind; [apply confined_sleep, p_sleep|]. intros _.
    apply confined_ret.
Qed.

Lemma confined_plain_wait fuel target amount track logging i :
  confined p (wait_for_stability E fuel target false amount track logging i).
Proof.
  unfold wait_for_stability.
  apply confined_bind; [apply confined_device, p_get_temp|]. intros cur.
  apply confined_bind; [apply confined_ret|]. intros _.
  apply confined_stability_loop.
Qed.

(** *** The phases that also command setpoints *)

Hypothesis p_set_temp : forall sp r, p (EvDev (CSetTemp sp) r) = true.
Hypothesis p_get_output : forall r, p (EvDev CGetOutput r) = true.

Lemma confined_set_temp (sp : Q) : confined p (set_temp E sp).
Proof.
  apply confined_bind; [apply confined_device, p_set_temp|].
  intros _. apply confined_ret.
Qed.

Lemma confined_wait_for_stability fuel target ov amount track logging i :
  confined p (wait_for_stability E fuel target ov amount track logging i).
Proof.
  destruct ov; [|apply confined_plain_wait].
  unfold wait_for_stability.
  apply confined_bind; [apply confined_device, p_get_temp|]. intros cur.
  apply confined_bind; [|intros _; apply confined_stability_loop].
  simpl. unfold overshoot_phase.
  destruct (overshoot_setpoint cur target amount) as [cooling osp].
  apply confined_bind; [apply confined_emit, p_print|]. intros _.
  apply confined_bind; [apply confined_set_temp|]. intros _.
  apply confined_bind; [|intros _; apply confined_sleep, p_sleep].
  apply confined_iterate. intros u. unfold overshoot_poll.
  apply confined_bind; [apply confined_device, p_get_temp|]. intros cur'.
  apply confined_bind; [apply confined_when, confined_set_tracker|].
  intros _.
  apply confined_bind; [apply confined_log_if|]. intros _.
  destruct (has_crossed cooling target cur').
  - apply confined_bind; [apply confined_emit, p_print|]. intros _.
    apply confined_bind; [apply confined_set_temp|]. intros _.
    apply confined_bind; [apply confined_sleep, p_sleep|]. intros _.
    apply confined_ret.
  - apply confined_bind; [apply confined_emit, p_print|]. intros _.
    apply confined_bind; [apply confined_sleep, p_sleep|]. intros _.
    apply confined_ret.
Qed.

Lemma confined_ramp_poll target st i : confined p (ramp_poll E target st i).
Proof.
  unfold ramp_poll.
  apply confined_bind; [apply confined_device, p_get_temp|]. intros cur.
  apply confined_bind; [apply confined_set_tracker|]. intros _.
  apply confined_bind; [apply confined_get|]. intros t.
  apply confined_bind; [apply confined_device, p_get_output|]. intros pw.
  apply confined_bind; [apply confined_writerow|]. intros _.
  apply confined_bind; [apply confined_emit, p_print|]. intros _.
  apply confined_ret.
Qed.

Lemma confined_ramp_to_temperature fuel target rate st i :
  confined p (ramp_to_temperature E fuel target rate st i).
Proof.
  unfold ramp_to_temperature.
  apply confined_bind; [apply confined_device, p_get_temp|]. intros cur.
  destruct rate as [rate|].
  - apply confined_bind; [apply confined_pure|]. intros [temps dwell].
    apply confined_for_each. intros [k sp].
    apply confined_bind; [apply confined_set_temp|]. intros _.
    apply confined_bind; [apply confined_get|]. intros t0.
    apply confined_iterate. intros u. unfold dwell_poll.
    apply confined_bind; [apply confined_get|]. intros t.
    destruct (Qlt_bool (t - t0) dwell); [|apply confined_ret].
    apply confined_bind; [apply confined_ramp_poll|]. intros _.
    apply confined_bind; [apply confined_sleep, p_sleep|]. intros _.
    apply confined_ret.
  - apply confined_bind; [apply confined_set_temp|]. intros _.
    apply confined_iterate. intros u. unfold fast_poll.
    apply confined_bind; [apply confined_ramp_poll|]. intros cur'.
    destruct (Qle_bool _ _); [apply confined_ret|].
    apply confined_bind; [apply confined_sleep, p_sleep|]. intros _.
    apply confined_ret.
Qed.

End Confinement.

(** X4.  With overshoot disabled [wait_for_stability] only observes:
    whatever the controller does and however the call ends, it reads the
    two sensors, logs, prints and sleeps, commands no setpoint, and
    leaves the stop flag, the sweep counter, the interrupt count and the
    start time as they were.  The setpoint in force is the one the ramp
    left. *)
Theorem plain_wait_is_read_only (E : Env) (fuel : nat) (target amount : Q)
    (track : bool) (logging : option Q) (i : nat) (w : World) :
  let w' := snd (wait_for_stability E fuel target false amount
                                    track logging i w) in
  forallb reads_only (new_events w w') = true /\
  setpoint_calls (new_events w w') = [] /\
  orchestrator_globals w' = orchestrator_globals w.
Proof.
  intros w'.
  destruct (confined_plain_wait E reads_only
              (fun _ => eq_refl) (fun _ => eq_refl) (fun _ => eq_refl)
              (fun _ => eq_refl) (fun _ => eq_refl)
              fuel target amount track logging i w)
    as (Hg & _ & evs & Ht & Hp).
  fold w' in Hg, Ht.
  rewrite (new_events_app _ _ _ Ht).
  split; [exact Hp|]. split; [|exact Hg].
  clear Ht. induction evs as [|ev evs IH]; [reflexivity|].
  simpl in Hp. apply andb_true_iff in Hp. destruct Hp as [Hev Hp].
  simpl. rewrite (IH Hp).
  destruct ev as [c r| | | | | | | |]; try reflexivity.
  destruct c; simpl in Hev; try discriminate; reflexivity.
Qed.

(** X5.  The ramp and the stabilization phase, in every mode, talk to
    the controller, log, print and sleep and do nothing else: they never
    idle the controller, never write the stop flag, the sweep counter,
    the interrupt count or the start time, and never write metadata or
    sweep files. *)
Theorem phases_are_confined (E : Env) (fuel : nat) (target : Q)
    (rate : option Q) (ov : bool) (amount st : Q) (track : bool)
    (logging : option Q) (i : nat) (w : World) :
  let w1 := snd (ramp_to_temperature E fuel target rate st i w) in
  let w2 := snd (wait_for_stability E fuel target ov amount
                                    track logging i w) in
  (forallb controller_io (new_events w w1) = true /\
   orchestrator_globals w1 = orchestrator_globals w) /\
  (forallb controller_io (new_events w w2) = true /\
   orchestrator_globals w2 = orchestrator_globals w).
Proof.
  intros w1 w2. split.
  - destruct (confined_ramp_to_temperature E controller_io
                (fun _ => eq_refl) (fun _ => eq_refl) (fun _ => eq_refl)
                (fun _ => eq_refl) (fun _ => eq_refl)
                (fun _ _ => eq_refl) (fun _ => eq_refl)
                fuel target rate st i w)
      as (Hg & _ & evs & Ht & Hp).
    fold w1 in Hg, Ht. rewrite (new_events_app _ _ _ Ht). auto.
  - destruct (confined_wait_for_stability E controller_io
                (fun _ => eq_refl) (fun _ => eq_refl) (fun _ => eq_refl)
                (fun _ => eq_refl) (fun _ => eq_refl)
                (fun _ _ => eq_refl)
                fuel target ov amount track logging i w)
      as (Hg & _ & evs & Ht & Hp).
    fold w2 in Hg, Ht. rewrite (new_events_app _ _ _ Ht). auto.
Qed.

(** ** Footprint and shutdown of the sampling task *)

Section SamplingFootprint.

Variable E : Env.

(** Everything one pass of the task's loop does. *)
Lemma vna_sweep_iteration_facts (w : World) :
  if experiment_running w then
    exists w1 evs,
      vna_sweep_iteration E tt w = (Ret (inl tt), w1) /\
      trace w1 = trace w ++ evs /\
      forallb sampler_event evs = true /\
      vna_sweep_count w1 = S (vna_sweep_count w) /\
      (file_numbers evs = [] \/ file_numbers evs = [S (vna_sweep_count w)]) /\
      (tracker w1, dev_calls w1, temp_reads w1, keyboard_interrupt_count w1,
       experiment_start_time w1, experiment_completed w1)
      = (tracker w, dev_calls w, temp_reads w, keyboard_interrupt_count w,
         experiment_start_time w, experiment_completed w) /\
      (blocking_points w < blocking_points w1 <= blocking_points w + 2)%nat /\
      (experiment_running w1 = true ->
       forall b, (blocking_points w <= b < blocking_points w1)%nat ->
                 stop_during E b = false) /\
      (experiment_start_time w = None ->
       vna_queries w1 = vna_queries w /\
       file_numbers evs = [] /\
       error_lines evs = [Exception "TypeError"])
  else vna_sweep_iteration E tt w = (Ret (inr tt), w).
Proof.
  unfold vna_sweep_iteration, try_except, vna_sweep_handler, vna_sweep_cycle,
    query_ascii_values, task_sleep, blocked, when, bind, get,
    set_vna_sweep_count, emit, print, emit, time_time, get, raise, ret, sleep.
  destruct (experiment_running w) eqn:Hrun; [|reflexivity].
  simpl. rewrite Nat.add_1_r.
  assert (Hone : forall b, (blocking_points w <= b < S (blocking_points w))%nat
                           -> b = blocking_points w) by (intros; lia).
  assert (Htwo : forall b,
             (blocking_points w <= b < S (S (blocking_points w)))%nat ->
             b = blocking_points w \/ b = S (blocking_points w))
    by (intros; lia).
  destruct (experiment_start_time w) eqn:Hst; simpl.
  - destruct (stop_during E (blocking_points w)) eqn:Hs1; simpl;
      destruct (sweep_of E (vna_queries w)); simpl;
      rewrite ?Hrun; simpl;
      destruct (stop_during E (S (blocking_points w))) eqn:Hs2; simpl;
      eexists; eexists; (split; [reflexivity|]); simpl;
      rewrite <- ?app_assoc; simpl;
      (split; [reflexivity|]); (split; [reflexivity|]);
      (split; [reflexivity|]); (split; [auto|]);
      rewrite ?Hst; (split; [reflexivity|]); (split; [lia|]);
      (split; [|discriminate]);
      try discriminate;
      intros _ b Hb; destruct (Htwo b Hb); subst b; assumption.
  - rewrite Hrun. simpl.
    destruct (stop_during E (blocking_points w)) eqn:Hs1; simpl;
      eexists; eexists; (split; [reflexivity|]); simpl;
      rewrite <- ?app_assoc; simpl;
      (split; [reflexivity|]); (split; [reflexivity|]);
      (split; [reflexivity|]); (split; [auto|]);
      rewrite ?Hst; (split; [reflexivity|]); (split; [lia|]);
      (split; [|auto]);
      try discriminate;
      intros _ b Hb; rewrite (Hone b Hb); assumption.
Qed.

Lemma file_numbers_app (a b : list event) :
  file_numbers (a ++ b) = file_numbers a ++ file_numbers b.
Proof. apply flat_map_app. Qed.

(** What a run of the task's loop does, however long it runs. *)
Lemma sampler_loop_facts (fuel : nat) :
  forall w : World,
    exists evs,
      trace (snd (iterate fuel (vna_sweep_iteration E) tt w))
      = trace w ++ evs /\
      forallb sampler_event evs = true /\
      (tracker (snd (iterate fuel (vna_sweep_iteration E) tt w)),
       dev_calls (snd (iterate fuel (vna_sweep_iteration E) tt w)),
       temp_reads (snd (iterate fuel (vna_sweep_iteration E) tt w)),
       keyboard_interrupt_count
         (snd (iterate fuel (vna_sweep_iteration E) tt w)),
       experiment_start_time
         (snd (iterate fuel (vna_sweep_iteration E) tt w)),
       experiment_completed
         (snd (iterate fuel (vna_sweep_iteration E) tt w)))
      = (tracker w, dev_calls w, temp_reads w, keyboard_interrupt_count w,
         experiment_start_time w, experiment_completed w) /\
      (vna_sweep_count w
       <= vna_sweep_count (snd (iterate fuel (vna_sweep_iteration E) tt w)))%nat /\
      StronglySorted lt (file_numbers evs) /\
      Forall (fun n =>
                (vna_sweep_count w < n
                 <= vna_sweep_count
                      (snd (iterate fuel (vna_sweep_iteration E) tt w)))%nat)
             (file_numbers evs) /\
      (experiment_running (snd (iterate fuel (vna_sweep_iteration E) tt w))
       = true -> experiment_running w = true) /\
      (experiment_start_time w = None ->
       vna_queries (snd (iterate fuel (vna_sweep_iteration E) tt w))
       = vna_queries w /\
       file_numbers evs = [] /\
       error_lines evs
       = repeat (Exception "TypeError")
           (vna_sweep_count (snd (iterate fuel (vna_sweep_iteration E) tt w))
            - vna_sweep_count w)).
Proof.
  induction fuel as [|fuel IH]; intros w.
  - simpl. exists []. rewrite app_nil_r, Nat.sub_diag.
    change (file_numbers []) with (@nil nat).
    split; [reflexivity|]. split; [reflexivity|]. split; [reflexivity|].
    split; [lia|]. split; [constructor|]. split; [constructor|].
    split; [auto|]. intros _. repeat split; reflexivity.
  - simpl. unfold bind.
    pose proof (vna_sweep_iteration_facts w) as Hit.
    destruct (experiment_running w) eqn:Hrun.
    + destruct Hit as (w1 & evs1 & Hstep & Ht1 & Hp1 & Hc1 & Hf1 & Hsame1
                       & _ & _ & Hnone1).
      rewrite Hstep.
      destruct (IH w1) as (evs2 & Ht2 & Hp2 & Hsame2 & Hc2 & Hs2 & Hb2
                           & _ & Hnone2).
      set (w' := snd (iterate fuel (vna_sweep_iteration E) tt w1)) in *.
      exists (evs1 ++ evs2).
      split; [rewrite Ht2, Ht1, app_assoc; reflexivity|].
      split; [rewrite forallb_app, Hp1, Hp2; reflexivity|].
      split; [rewrite Hsame2; exact Hsame1|].
      split; [lia|].
      rewrite file_numbers_app.
      split.
      { destruct Hf1 as [-> | ->]; simpl; [exact Hs2|].
        constructor; [exact Hs2|].
        eapply Forall_impl; [|exact Hb2]. simpl. intros n Hn. lia. }
      split.
      { apply Forall_app. split.
        - destruct Hf1 as [-> | ->]; constructor; [lia|constructor].
        - eapply Forall_impl; [|exact Hb2]. simpl. intros n Hn. lia. }
      split; [reflexivity|].
      intros Hst. destruct (Hnone1 Hst) as (Hq1 & Hfn1 & He1).
      assert (Hst1 : experiment_start_time w1 = None).
      { inversion Hsame1. congruence. }
      destruct (Hnone2 Hst1) as (Hq2 & Hfn2 & He2).
      split; [congruence|].
      split; [rewrite Hfn1, Hfn2; reflexivity|].
      rewrite error_lines_app, He1, He2, Hc1.
      replace (vna_sweep_count w' - vna_sweep_count w)%nat
        with (S (vna_sweep_count w' - S (vna_sweep_count w))) by lia.
      reflexivity.
    + rewrite Hit. simpl. exists []. rewrite app_nil_r, Nat.sub_diag.
      change (file_numbers []) with (@nil nat).
      split; [reflexivity|]. split; [reflexivity|]. split; [reflexivity|].
      split; [lia|]. split; [constructor|]. split; [constructor|].
      split; [congruence|]. intros _. repeat split; reflexivity.
Qed.

End SamplingFootprint.

(** X6.  The sampling task keeps to itself: whatever the analyzer does,
    it never calls the temperature controller, it writes neither the
    temperature snapshot nor the interrupt count nor the start time, and
    it never sets the stop flag back to running.  What it adds to the
    trace are its messages, its number assignments, sweep files and
    sleeps. *)
Theorem sampler_footprint (E : Env) (fuel : nat) (w : World) :
  let w' := snd (vna_sweep_thread E fuel w) in
  forallb sampler_event (new_events w w') = true /\
  dev_calls w' = dev_calls w /\
  temp_reads w' = temp_reads w /\
  tracker w' = tracker w /\
  keyboard_interrupt_count w' = keyboard_interrupt_count w /\
  experiment_start_time w' = experiment_start_time w /\
  (experiment_running w' = true -> experiment_running w = true).
Proof.
  intros w'. subst w'.
  unfold vna_sweep_thread, bind, print, emit. simpl.
  match goal with
  | |- context [iterate fuel _ tt ?W] =>
    destruct (sampler_loop_facts E fuel W)
      as (evs & Ht & Hp & Hsame & _ & _ & _ & Hflag & _);
    destruct (iterate fuel (vna_sweep_iteration E) tt W) as [rl wl]
  end.
  simpl in Ht, Hsame, Hflag. rewrite <- app_assoc in Ht.
  injection Hsame as H1 H2 H3 H4 H5 H6.
  assert (Hall : forallb sampler_event (new_events w wl) = true /\
                 dev_calls wl = dev_calls w /\
                 temp_reads wl = temp_reads w /\
                 tracker wl = tracker w /\
                 keyboard_interrupt_count wl = keyboard_interrupt_count w /\
                 experiment_start_time wl = experiment_start_time w /\
                 (experiment_running wl = true -> experiment_running w = true)).
  { rewrite (new_events_app _ _ _ Ht). simpl. auto 10. }
  destruct rl as [[]|e|]; exact Hall.
Qed.

(** X8.  While [experiment_start_time] is still unset -- the thread is
    started at line 540, the start time is assigned at line 556 -- every
    cycle fails with a [TypeError] before the analyzer is queried: the
    failure is logged, no file is written, and the cycle still uses up
    a sequence number. *)
Theorem unset_start_time_burns_numbers (E : Env) (fuel : nat) (w : World) :
  experiment_start_time w = None ->
  let w' := snd (vna_sweep_thread E fuel w) in
  vna_queries w' = vna_queries w /\
  file_numbers (new_events w w') = [] /\
  error_lines (new_events w w')
  = repeat (Exception "TypeError") (vna_sweep_count w' - vna_sweep_count w) /\
  assigned_numbers (new_events w w')
  = seq (S (vna_sweep_count w)) (vna_sweep_count w' - vna_sweep_count w).
Proof.
  intros Hst w'. subst w'.
  unfold vna_sweep_thread, bind, print, emit. simpl.
  match goal with
  | |- context [iterate fuel _ tt ?W] =>
    destruct (sampler_loop_facts E fuel W)
      as (evs & Ht & _ & _ & _ & _ & _ & _ & Hnone);
    destruct (vna_loop_numbers E fuel W)
      as (_ & n & evs' & Hc & Ht' & Hnum);
    destruct (iterate fuel (vna_sweep_iteration E) tt W) as [rl wl]
  end.
  simpl in Ht, Hnone, Hc, Ht', Hnum.
  rewrite Ht in Ht'. apply app_inv_head in Ht'. subst evs'.
  destruct (Hnone Hst) as (Hq & Hfn & He).
  rewrite <- app_assoc in Ht.
  assert (Hall :
    vna_queries wl = vna_queries w /\
    file_numbers (new_events w wl) = [] /\
    error_lines (new_events w wl)
    = repeat (Exception "TypeError") (vna_sweep_count wl - vna_sweep_count w) /\
    assigned_numbers (new_events w wl)
    = seq (S (vna_sweep_count w)) (vna_sweep_count wl - vna_sweep_count w)).
  { rewrite (new_events_app _ _ _ Ht).
    split; [exact Hq|]. split; [exact Hfn|]. split; [exact He|].
    change (assigned_numbers ([EvPrint MsgThreadStarted] ++ evs))
      with (assigned_numbers evs).
    rewrite Hnum. f_equal. lia. }
  destruct rl as [[]|e|]; exact Hall.
Qed.

Lemma unset_start_time_burns_numbers_witness :
  let w' := snd (vna_sweep_thread (sampling [] 100) 3 initial_world) in
  experiment_start_time initial_world = None /\
  vna_queries w' = vna_queries initial_world /\
  file_numbers (new_events initial_world w') = [] /\
  error_lines (new_events initial_world w')
  = repeat (Exception "TypeError")
           (vna_sweep_count w' - vna_sweep_count initial_world) /\
  assigned_numbers (new_events initial_world w')
  = seq (S (vna_sweep_count initial_world))
        (vna_sweep_count w' - vna_sweep_count initial_world).
Proof.
  intros w'. split; [reflexivity|].
  apply (unset_start_time_burns_numbers (sampling [] 100) 3 initial_world).
  reflexivity.
Defined.

(** ** Controlled ramp *)



Lemma plan_with_zero_rate (current_temp target_temp : Q) :
  1 <= Qabs (target_temp - current_temp) ->
  Planner.calculate_intermediate_temps current_temp target_temp 0
  = Raise (Exception "ZeroDivisionError").
Proof.
  intros Hfar. unfold Planner.calculate_intermediate_temps.
  destruct (py_int (Qabs (target_temp - current_temp)
                    / INTERMEDIATE_STEP_SIZE) =? 0)%Z eqn:Hz.
  - apply Z.eqb_eq in Hz. apply num_steps_zero in Hz. lra.
  - reflexivity.
Qed.

(** X12.  The rate is not validated by the ramp: a rate of zero with at
    least one whole step to go raises [ZeroDivisionError] in the planner,
    after the entry reading and before any setpoint is commanded.
    Whether there is a whole step is decided the same way with and
    without rounding. *)
Theorem zero_rate_ramp_raises (E : Env) (fuel : nat) (target st : Q)
    (i : nat) (w : World) :
  fault_free E ->
  clear_of INTERMEDIATE_STEP_SIZE target (temp_of E (temp_reads w)) = true ->
  1 <= Qabs (target - temp_of E (temp_reads w)) ->
  exists w',
    ramp_to_temperature E fuel target (Some 0) st i w
    = (Raise (Exception "ZeroDivisionError"), w') /\
    new_events w w' = [EvDev CGetTemp (Done (temp_of E (temp_reads w)))].
Proof.
  intros Hff _ Hfar.
  unfold ramp_to_temperature, bind at 1, get_temp, device.
  rewrite Hff. simpl. unfold bind at 1, lift.
  rewrite (plan_with_zero_rate _ _ Hfar).
  eexists. split; [reflexivity|].
  apply new_events_app. reflexivity.
Qed.

Lemma zero_rate_ramp_raises_witness :
  let E := scripted [20] 20 in
  fault_free E /\
  clear_of INTERMEDIATE_STEP_SIZE 24.3
           (temp_of E (temp_reads initial_world)) = true /\
  1 <= Qabs (24.3 - temp_of E (temp_reads initial_world)) /\
  exists w',
    ramp_to_temperature E 5 24.3 (Some 0) 0 1 initial_world
    = (Raise (Exception "ZeroDivisionError"), w') /\
    new_events initial_world w'
    = [EvDev CGetTemp (Done (temp_of E (temp_reads initial_world)))].
Proof.
  intros E.
  assert (Hff : fault_free E) by (intros n; reflexivity).
  split; [exact Hff|]. split; [reflexivity|].
  split; [vm_compute; discriminate|].
  apply (zero_rate_ramp_raises E 5 24.3 0 1 initial_world Hff);
    [reflexivity|vm_compute; discriminate].
Defined.

(** ** Progress of the stabilization detector *)

Section Progress.

Variable E : Env.
Hypothesis Hff : fault_free E.

(** Without device faults a pass of the core loop always completes. *)
Lemma stability_poll_pass target track logging i ss (w : World) :
  exists x w1, stability_poll E target track logging i ss w = (Ret x, w1).
Proof.
  unfold stability_poll, log_if, writerow, when, bind, get_temp, get_temp2,
    device, set_tracker, time_time, get, print, emit, sleep, ret.
  destruct track, logging as [st|]; simpl; rewrite ?Hff; simpl;
    rewrite ?Hff; simpl;
    destruct (stability_check target ss (now w) (temp_of E (temp_reads w)))
      as [s d|s|s|[|]];
    simpl; eexists; eexists; reflexivity.
Qed.

(** One pass of the loop, seen from the front. *)
Lemma loop_step_forward target track logging i fuel ss (w : World) :
  exists w1,
    temp_reads w1 = S (temp_reads w) /\
    match stability_check target ss (now w) (temp_of E (temp_reads w)) with
    | Stabilized _ _ =>
      stability_loop E (S fuel) target track logging i ss w = (Ret true, w1)
    | Entered s | Holding s =>
      now w1 = now w + 2 /\
      stability_loop E (S fuel) target track logging i ss w
      = stability_loop E fuel target track logging i (Some s) w1
    | Reset _ =>
      now w1 = now w + 2 /\
      stability_loop E (S fuel) target track logging i ss w
      = stability_loop E fuel target track logging i None w1
    end.
Proof.
  destruct (stability_poll_pass target track logging i ss w)
    as (x & w1 & Hp).
  pose proof (stability_poll_ret E target track logging i ss w w1 x Hp)
    as [Hreads Hv].
  exists w1. split; [exact Hreads|].
  unfold stability_loop. simpl. unfold bind. rewrite Hp.
  destruct (stability_check target ss (now w) (temp_of E (temp_reads w)))
    as [s d|s|s|b].
  - destruct Hv as (-> & _). reflexivity.
  - destruct Hv as (-> & Hnow). auto.
  - destruct Hv as (-> & Hnow). auto.
  - destruct Hv as (-> & Hnow). auto.
Qed.

(** With a window open and the readings staying in the band, the loop
    returns as soon as the window is long enough. *)
Lemma window_completes target track logging i (s : Q) :
  forall d fuel (w : World),
    (forall m, (m <= d)%nat -> in_band E target (temp_reads w + m) = true) ->
    STABILITY_DURATION <= poll_time (now w) d - s ->
    (d < fuel)%nat ->
    exists w' k,
      stability_loop E fuel target track logging i (Some s) w = (Ret true, w')
      /\ (k <= d)%nat /\ temp_reads w' = (temp_reads w + S k)%nat.
Proof.
  induction d as [|d IH]; intros fuel w Hin Hlong Hfuel;
    (destruct fuel as [|fuel]; [lia|]);
    destruct (loop_step_forward target track logging i fuel (Some s) w)
      as (w1 & Hreads & Hv);
    assert (Hin0 : in_tolerance target (temp_of E (temp_reads w)) = true)
      by (specialize (Hin 0%nat); rewrite Nat.add_0_r in Hin;
          apply Hin; lia).
  - rewrite check_done in Hv by assumption.
    exists w1, 0%nat. split; [exact Hv|]. split; [lia|]. lia.
  - destruct (Qlt_le_dec (now w - s) STABILITY_DURATION) as [Hshort|Hdone].
    + rewrite check_hold in Hv by assumption.
      destruct Hv as [Hnow Heq].
      destruct (IH fuel w1) as (w' & k & Hrun & Hk & Hr).
      * intros m Hm. rewrite Hreads.
        replace (S (temp_reads w) + m)%nat with (temp_reads w + S m)%nat
          by lia.
        apply Hin. lia.
      * rewrite Hnow, poll_time_shift. exact Hlong.
      * lia.
      * exists w', (S k). rewrite Heq. split; [exact Hrun|].
        split; lia.
    + rewrite check_done in Hv by assumption.
      exists w1, 0%nat. split; [exact Hv|]. split; lia.
Qed.

Lemma stabilizes_from target track logging i :
  forall n fuel (w : World) ss,
    (forall s, ss = Some s -> s <= now w) ->
    (forall m, (n <= m <= n + 3)%nat ->
               in_band E target (temp_reads w + m) = true) ->
    (n + 3 < fuel)%nat ->
    exists w' k,
      stability_loop E fuel target track logging i ss w = (Ret true, w') /\
      (k <= n + 3)%nat /\ temp_reads w' = (temp_reads w + S k)%nat.
Proof.
  induction n as [|n IH]; intros fuel w ss Hpast Hin Hfuel.
  - destruct ss as [s|].
    + apply (window_completes target track logging i s 3 fuel w).
      * intros m Hm. apply Hin. lia.
      * specialize (Hpast s eq_refl). simpl. unfold STABILITY_DURATION. lra.
      * lia.
    + destruct fuel as [|fuel]; [lia|].
      destruct (loop_step_forward target track logging i fuel None w)
        as (w1 & Hreads & Hv).
      rewrite check_enter in Hv
        by (specialize (Hin 0%nat); rewrite Nat.add_0_r in Hin;
            apply Hin; lia).
      destruct Hv as [Hnow Heq].
      destruct (window_completes target track logging i (now w) 2 fuel w1)
        as (w' & k & Hrun & Hk & Hr).
      * intros m Hm. rewrite Hreads.
        replace (S (temp_reads w) + m)%nat with (temp_reads w + S m)%nat
          by lia.
        apply Hin. lia.
      * rewrite Hnow. simpl. unfold STABILITY_DURATION. lra.
      * lia.
      * exists w', (S k). rewrite Heq. split; [exact Hrun|]. split; lia.
  - destruct fuel as [|fuel]; [lia|].
    destruct (loop_step_forward target track logging i fuel ss w)
      as (w1 & Hreads & Hv).
    pose proof (stability_check_cases target ss (now w)
                  (temp_of E (temp_reads w))) as Hc.
    assert (Hin1 : forall m, (n <= m <= n + 3)%nat ->
                             in_band E target (temp_reads w1 + m) = true).
    { intros m Hm. rewrite Hreads.
      replace (S (temp_reads w) + m)%nat with (temp_reads w + S m)%nat by lia.
      apply Hin. lia. }
    destruct (stability_check target ss (now w) (temp_of E (temp_reads w)))
      as [s d|s|s|b].
    + exists w1, 0%nat. split; [exact Hv|]. split; lia.
    + destruct Hv as [Hnow Heq]. destruct Hc as (_ & _ & ->).
      destruct (IH fuel w1 (Some (now w))) as (w' & k & Hrun & Hk & Hr);
        [intros s Hs; inversion Hs; subst; rewrite Hnow; lra
        |exact Hin1|lia|].
      exists w', (S k). rewrite Heq. split; [exact Hrun|]. split; lia.
    + destruct Hv as [Hnow Heq]. destruct Hc as (-> & _ & _).
      destruct (IH fuel w1 (Some s)) as (w' & k & Hrun & Hk & Hr);
        [intros s' Hs; inversion Hs; subst;
         specialize (Hpast s' eq_refl); rewrite Hnow; lra
        |exact Hin1|lia|].
      exists w', (S k). rewrite Heq. split; [exact Hrun|]. split; lia.
    + destruct Hv as [Hnow Heq].
      destruct (IH fuel w1 None) as (w' & k & Hrun & Hk & Hr);
        [intros s Hs; discriminate|exact Hin1|lia|].
      exists w', (S k). rewrite Heq. split; [exact Hrun|]. split; lia.
Qed.

End Progress.

(** X13.  The detector makes progress: with no device fault, as soon as
    four consecutive readings lie within the tolerance band -- six
    seconds from the first to the fourth poll -- the core loop has
    returned [True], at the fourth of them at the latest, whatever it
    read before.  The four readings are inside the band by more than
    rounding can change. *)
Theorem stabilization_progress (E : Env) (fuel : nat) (target : Q)
    (track : bool) (logging : option Q) (i : nat) (w : World) (n : nat) :
  fault_free E ->
  (forall m, (n <= m <= n + 3)%nat ->
             clear_of TEMP_TOLERANCE (temp_of E (temp_reads w + m)) target
             = true /\
             in_band E target (temp_reads w + m) = true) ->
  (n + 3 < fuel)%nat ->
  exists w' k,
    stability_loop E fuel target track logging i None w = (Ret true, w') /\
    (k <= n + 3)%nat /\
    temp_reads w' = (temp_reads w + S k)%nat.
Proof.
  intros Hff Hin Hfuel.
  apply (stabilizes_from E Hff target track logging i n fuel w None);
    [intros s Hs; discriminate| |exact Hfuel].
  intros m Hm. apply Hin. exact Hm.
Qed.

Lemma stabilization_progress_witness :
  let E := scripted [12; 10.2; 11; 10.1; 10; 9.9; 10.3] 15 in
  fault_free E /\
  (forall m, (3 <= m <= 3 + 3)%nat ->
             clear_of TEMP_TOLERANCE
                      (temp_of E (temp_reads initial_world + m)) 10 = true /\
             in_band E 10 (temp_reads initial_world + m) = true) /\
  (3 + 3 < 7)%nat /\
  exists w' k,
    stability_loop E 7 10 true (Some 0) 1 None initial_world = (Ret true, w')
    /\ (k <= 3 + 3)%nat /\
    temp_reads w' = (temp_reads initial_world + S k)%nat.
Proof.
  intros E.
  assert (Hff : fault_free E) by (intros n; reflexivity).
  assert (Hin : forall m, (3 <= m <= 3 + 3)%nat ->
                  clear_of TEMP_TOLERANCE
                           (temp_of E (temp_reads initial_world + m)) 10
                  = true /\
                  in_band E 10 (temp_reads initial_world + m) = true).
  { intros m Hm.
    destruct m as [|[|[|[|[|[|[|m]]]]]]]; try lia; split; reflexivity. }
  split; [exact Hff|]. split; [exact Hin|]. split; [lia|].
  apply (stabilization_progress E 7 10 true (Some 0) 1 initial_world 3
           Hff Hin).
  lia.
Defined.

(** ** An overshoot that never crosses *)

Section Stuck.

Variable E : Env.
Hypothesis Hff : fault_free E.

Lemma overshoot_poll_clock cooling osp target track logging i (w : World) :
  exists w1 evs,
    overshoot_poll E cooling osp target track logging i tt w
    = (Ret (if has_crossed cooling target (temp_of E (temp_reads w))
            then inr tt else inl tt), w1) /\
    temp_reads w1 = S (temp_reads w) /\
    now w1 = now w + 2 /\
    trace w1 = trace w ++ evs /\
    thermals evs = Reading (temp_of E (temp_reads w))
                   :: (if has_crossed cooling target (temp_of E (temp_reads w))
                       then [Setpoint target] else []).
Proof.
  unfold overshoot_poll, log_if, writerow, when, set_temp, bind, get_temp,
    get_temp2, device, set_tracker, time_time, get, print, emit, sleep, ret.
  destruct track, logging as [st|]; simpl; rewrite ?Hff; simpl;
    rewrite ?Hff; simpl;
    destruct (has_crossed _ _ _); simpl; rewrite ?Hff; simpl;
    eexists; eexists; (split; [reflexivity|]); simpl;
    (split; [reflexivity|]); (split; [reflexivity|]);
    rewrite <- ?app_assoc; simpl;
    (split; [reflexivity|reflexivity]).
Qed.

(** While no reading satisfies the crossing predicate the overshoot loop
    keeps polling: every bound on the number of passes is used up, one
    reading per pass, and no setpoint is commanded. *)
Lemma overshoot_stuck cooling osp target track logging i :
  forall fuel (w : World),
    (forall j, has_crossed cooling target (temp_of E (temp_reads w + j))
               = false) ->
    exists w' evs,
      iterate fuel (overshoot_poll E cooling osp target track logging i) tt w
      = (OutOfFuel, w') /\
      temp_reads w' = (temp_reads w + fuel)%nat /\
      now w' == now w + 2 * inject_Z (Z.of_nat fuel) /\
      trace w' = trace w ++ evs /\
      thermals evs = map Reading (readings E (temp_reads w) fuel).
Proof.
  induction fuel as [|fuel IH]; intros w Hnever.
  - exists w, [].
    split; [reflexivity|]. split; [lia|].
    split; [change (inject_Z (Z.of_nat 0)) with 0; lra|].
    split; [rewrite app_nil_r; reflexivity|reflexivity].
  - destruct (overshoot_poll_clock cooling osp target track logging i w) as (w1 & evs & Hrun & Hreads & Hnow
                                          & Ht & Hth).
    assert (H0 : has_crossed cooling target (temp_of E (temp_reads w))
                 = false).
    { specialize (Hnever 0%nat). rewrite Nat.add_0_r in Hnever.
      exact Hnever. }
    rewrite H0 in Hrun, Hth.
    destruct (IH w1) as (w' & evs' & Hrun' & Hreads' & Hnow' & Ht' & Hth').
    { intros j. rewrite Hreads.
      replace (S (temp_reads w) + j)%nat with (temp_reads w + S j)%nat by lia.
      apply Hnever. }
    exists w', (evs ++ evs').
    split; [simpl; unfold bind; rewrite Hrun; exact Hrun'|].
    split; [lia|].
    split.
    { rewrite Hnow', Hnow, Nat2Z.inj_succ. unfold Z.succ.
      rewrite inject_Z_plus. change (inject_Z 1) with 1. lra. }
    split; [rewrite Ht', Ht, app_assoc; reflexivity|].
    rewrite thermals_app, Hth, Hth', Hreads, readings_cons. reflexivity.
Qed.

End Stuck.

(** X14.  The overshoot sub-phase has no other exit than the crossing:
    with no device fault, if no polled reading ever satisfies the
    crossing predicate, [wait_for_stability] is still polling after any
    number of passes -- one reading every two seconds -- and the only
    setpoint it has commanded is the overshoot setpoint, which stays in
    force; the true target is never applied. *)
Theorem overshoot_without_crossing (E : Env) (fuel : nat) (target delta : Q)
    (track : bool) (logging : option Q) (i : nat) (w : World) :
  fault_free E ->
  (forall j, has_crossed (Qlt_bool target (temp_of E (temp_reads w))) target
                         (temp_of E (temp_reads w + 1 + j)) = false) ->
  exists w',
    wait_for_stability E fuel target true delta track logging i w
    = (OutOfFuel, w') /\
    commanded (thermals (new_events w w'))
    = [if Qlt_bool target (temp_of E (temp_reads w))
       then target - delta else target + delta] /\
    temp_reads w' = (temp_reads w + 1 + fuel)%nat /\
    now w' == now w + 2 * inject_Z (Z.of_nat fuel).
Proof.
  intros Hff Hnever.
  unfold wait_for_stability, when, overshoot_phase, overshoot_setpoint.
  set (cooling := Qlt_bool target (temp_of E (temp_reads w))) in *.
  set (osp := if cooling then target - delta else target + delta).
  unfold set_temp, get_temp, print, emit, bind, device.
  simpl. rewrite ?Hff. simpl. fold cooling.
  assert (Hpair : (if cooling then (true, target - delta)
                   else (false, target + delta)) = (cooling, osp)).
  { unfold osp. destruct cooling; reflexivity. }
  rewrite Hpair. simpl. rewrite ?Hff. simpl.
  match goal with
  | |- context [iterate fuel _ tt ?W] =>
    destruct (overshoot_stuck E Hff cooling osp target track logging i
                              fuel W)
      as (w' & evs & Hrun & Hreads & Hnow & Ht & Hth)
  end.
  { intros j. simpl.
    replace (S (temp_reads w + j)) with (temp_reads w + 1 + j)%nat by lia.
    apply Hnever. }
  rewrite Hrun. simpl.
  exists w'. split; [reflexivity|].
  simpl in Ht, Hreads, Hnow. rewrite <- !app_assoc in Ht. simpl in Ht.
  split.
  { erewrite new_events_app by exact Ht.
    change (thermals (EvDev CGetTemp (Done (temp_of E (temp_reads w)))
                      :: EvPrint (MsgOvershoot cooling osp)
                      :: EvDev (CSetTemp osp) (Done 0) :: evs))
      with (Reading (temp_of E (temp_reads w))
            :: Setpoint osp :: thermals evs).
    rewrite Hth. simpl. rewrite commanded_readings. reflexivity. }
  split; [lia|exact Hnow].
Qed.

Lemma overshoot_without_crossing_witness :
  let E := scripted [30] 20 in
  fault_free E /\
  (forall j, has_crossed
               (Qlt_bool 10 (temp_of E (temp_reads initial_world))) 10
               (temp_of E (temp_reads initial_world + 1 + j)) = false) /\
  exists w',
    wait_for_stability E 50 10 true 5 true (Some 0) 1 initial_world
    = (OutOfFuel, w') /\
    commanded (thermals (new_events initial_world w'))
    = [if Qlt_bool 10 (temp_of E (temp_reads initial_world))
       then 10 - 5 else 10 + 5] /\
    temp_reads w' = (temp_reads initial_world + 1 + 50)%nat /\
    now w' == now initial_world + 2 * inject_Z (Z.of_nat 50).
Proof.
  intros E.
  assert (Hff : fault_free E) by (intros n; reflexivity).
  assert (Hnever : forall j,
             has_crossed
               (Qlt_bool 10 (temp_of E (temp_reads initial_world))) 10
               (temp_of E (temp_reads initial_world + 1 + j)) = false).
  { intros j. simpl. destruct j; reflexivity. }
  split; [exact Hff|]. split; [exact Hnever|].
  exact (overshoot_without_crossing E 50 10 5 true (Some 0) 1 initial_world
           Hff Hnever).
Defined.

(** ** The temperature snapshot on return *)

Section Snapshot.

Variable E : Env.



End Snapshot.




(** ** Setpoints of a fast-mode experiment *)

Lemma setpoint_calls_app (a b : list event) :
  setpoint_calls (a ++ b) = setpoint_calls a ++ setpoint_calls b.
Proof. apply flat_map_app. Qed.

Lemma no_setpoint_calls (evs : list event) :
  forallb no_setpoint evs = true -> setpoint_calls evs = [].
Proof.
  induction evs as [|ev evs IH]; simpl; [reflexivity|].
  rewrite andb_true_iff. intros [Hev Hp]. rewrite (IH Hp).
  destruct ev as [c r| | | | | | | |]; try reflexivity.
  destruct c; simpl in Hev; try discriminate; reflexivity.
Qed.

Lemma emits_conj {A} (m : M A) (P Q : outcome A -> list event -> Prop) :
  emits m P -> emits m Q -> emits m (fun r evs => P r evs /\ Q r evs).
Proof.
  intros HP HQ w.
  destruct (HP w) as (Hc & evs1 & Ht1 & H1).
  destruct (HQ w) as (_ & evs2 & Ht2 & H2).
  split; [exact Hc|]. exists evs1. split; [exact Ht1|].
  rewrite Ht1 in Ht2. apply app_inv_head in Ht2. subst evs2. auto.
Qed.

Lemma emits_impl {A} (m : M A) (P Q : outcome A -> list event -> Prop) :
  emits m P -> (forall r evs, P r evs -> Q r evs) -> emits m Q.
Proof.
  intros HP HPQ w. destruct (HP w) as (Hc & evs & Ht & H).
  split; [exact Hc|]. exists evs. auto.
Qed.

(** A computation confined to events other than setpoint commands
    commands no setpoint. *)
Lemma emits_no_setpoint {A} (m : M A) :
  confined no_setpoint m -> emits m (fun _ evs => setpoint_calls evs = []).
Proof.
  intros Hm w. destruct (Hm w) as (_ & Hc & evs & Ht & Hp).
  split; [exact Hc|]. exists evs. split; [exact Ht|].
  apply no_setpoint_calls. exact Hp.
Qed.

Section FastSetpoints.

Variable E : Env.

Lemma set_temp_setpoint (sp : Q) :
  emits (set_temp E sp) (fun _ evs => setpoint_calls evs = [sp]).
Proof.
  intros w. unfold set_temp, bind, device.
  destruct (fault_of E (dev_calls w)) as [e|]; simpl;
    (split; [reflexivity|]); eexists; (split; [reflexivity|reflexivity]).
Qed.

Lemma fast_loop_no_setpoint fuel target st i :
  confined no_setpoint (iterate fuel (fast_poll E target st i) tt).
Proof.
  apply confined_iterate. intros u. unfold fast_poll.
  apply confined_bind.
  { apply (confined_ramp_poll E no_setpoint
             (fun _ => eq_refl) (fun _ => eq_refl) (fun _ => eq_refl)
             (fun _ => eq_refl) (fun _ => eq_refl)). }
  intros cur. destruct (Qle_bool _ _); [apply confined_ret|].
  apply confined_bind; [apply confined_sleep; reflexivity|]. intros _.
  apply confined_ret.
Qed.

Lemma fast_ramp_setpoints fuel target st i :
  emits (ramp_to_temperature E fuel target None st i)
        (step_setpoints target).
Proof.
  unfold ramp_to_temperature.
  eapply emits_bind with
    (P := fun _ evs => setpoint_calls evs = [])
    (Q := fun _ evs => setpoint_calls evs = [target]).
  - apply emits_no_setpoint, confined_device. reflexivity.
  - intros _.
    eapply emits_bind with
      (P := fun _ evs => setpoint_calls evs = [target])
      (Q := fun _ evs => setpoint_calls evs = []).
    + apply set_temp_setpoint.
    + intros _. apply emits_no_setpoint, fast_loop_no_setpoint.
    + intros _ evs1 r evs2 H1 H2.
      rewrite setpoint_calls_app, H1, H2. reflexivity.
    + auto.
    + auto.
  - intros _ evs1 r evs2 H1 H2. left.
    rewrite setpoint_calls_app, H1, H2. reflexivity.
  - intros e evs H. right. auto.
  - intros evs H. right. auto.
Qed.

(** After the ramp a step without overshoot commands nothing more. *)
Lemma step_rest_no_setpoint fuel target amount st i :
  confined no_setpoint
    (_ <- wait_for_stability E fuel target false amount
                             true (Some st) i ;;
     current_temp <- get_temp E ;;
     set_tracker current_temp ;;
     t <- time_time ;;
     writerow E t (py_round (t - st)) target current_temp i ;;
     print (MsgStepComplete i current_temp)).
Proof.
  apply confined_bind.
  { apply (confined_plain_wait E no_setpoint
             (fun _ => eq_refl) (fun _ => eq_refl) (fun _ => eq_refl)
             (fun _ => eq_refl) (fun _ => eq_refl)). }
  intros _.
  apply confined_bind; [apply confined_device; reflexivity|]. intros cur.
  apply confined_bind; [apply confined_set_tracker|]. intros _.
  apply confined_bind; [apply confined_get|]. intros t.
  apply confined_bind.
  { apply (confined_writerow E no_setpoint
             (fun _ => eq_refl) (fun _ => eq_refl)). }
  intros _. apply confined_emit. reflexivity.
Qed.

Lemma fast_step_setpoints fuel amount st (i : nat) (target : Q) :
  emits (experiment_step E fuel None false amount st (i, target))
        (fun r evs =>
           step_setpoints target r evs /\
           completed_steps evs = if returned r then [i] else []).
Proof.
  apply emits_conj.
  - unfold experiment_step.
    eapply emits_bind with
      (P := step_setpoints target)
      (Q := fun _ evs => setpoint_calls evs = []).
    + apply fast_ramp_setpoints.
    + intros _. apply emits_no_setpoint, step_rest_no_setpoint.
    + intros a evs1 r evs2 [H1|[H1 _]] H2; [|discriminate].
      left. rewrite setpoint_calls_app, H1, H2. reflexivity.
    + intros e evs [H|H]; [left; exact H|right; split; [reflexivity|apply H]].
    + intros evs [H|H]; [left; exact H|right; split; [reflexivity|apply H]].
  - eapply emits_impl; [apply experiment_step_events|].
    intros r evs [_ H]. exact H.
Qed.

Lemma fast_loop_progress fuel amount st (temps : list Q) (i0 : nat) :
  emits (for_each (combine (seq i0 (length temps)) temps)
                  (experiment_step E fuel None false amount st))
        (loop_progress i0 temps).
Proof.
  revert i0. induction temps as [|t temps IH]; intros i0.
  - intros w. simpl. split; [reflexivity|]. exists [].
    rewrite app_nil_r. split; [reflexivity|].
    exists 0%nat. simpl. auto.
  - simpl.
    eapply emits_bind;
      [apply fast_step_setpoints|intros _; apply (IH (S i0))| | |].
    + intros a evs1 r evs2 [[H1|[H1 _]] H2] (k & Hk & Hs & Hsp & Hret);
        [|discriminate].
      simpl in H2. exists (S k).
      split; [simpl; lia|].
      split; [rewrite completed_steps_app, H2, Hs; reflexivity|].
      rewrite setpoint_calls_app, H1. simpl.
      split.
      * destruct Hsp as [Hsp|Hsp]; rewrite Hsp; auto.
      * intros Hr. destruct (Hret Hr) as [-> ->]. auto.
    + intros e evs [Hsp Hs]. simpl in Hs. exists 0%nat.
      split; [simpl; lia|]. split; [exact Hs|].
      split; [|discriminate].
      destruct Hsp as [Hsp|[_ Hsp]]; rewrite Hsp; simpl; auto.
    + intros evs [Hsp Hs]. simpl in Hs. exists 0%nat.
      split; [simpl; lia|]. split; [exact Hs|].
      split; [|discriminate].
      destruct Hsp as [Hsp|[_ Hsp]]; rewrite Hsp; simpl; auto.
Qed.

(** The [try] suite of a fast-mode experiment without overshoot. *)
Lemma fast_body_progress fuel temps amount st (w : World) :
  let r := fst (experiment_body E fuel temps None false amount st w) in
  let w' := snd (experiment_body E fuel temps None false amount st w) in
  exists evs,
    trace w' = trace w ++ evs /\
    loop_progress 1 temps r evs /\
    (returned r = false -> experiment_completed w' = experiment_completed w).
Proof.
  unfold experiment_body, enumerate1, bind.
  destruct (fast_loop_progress fuel amount st temps 1 w)
    as (Hc & evs & Ht & k & Hk & Hs & Hsp & Hret).
  destruct (for_each _ _ w) as [[[]|e|] w1]; simpl in *.
  - exists (evs ++ [EvPrint MsgAllComplete]).
    rewrite Ht, app_assoc. split; [reflexivity|].
    split; [|discriminate].
    exists k. rewrite completed_steps_app, setpoint_calls_app. simpl.
    rewrite !app_nil_r. auto.
  - exists evs. split; [exact Ht|]. split; [|intros _; exact Hc].
    exists k. auto.
  - exists evs. split; [exact Ht|]. split; [|intros _; exact Hc].
    exists k. auto.
Qed.

(** What the handler and the [finally] suite add after the [try] suite:
    no setpoint and no completed step. *)
Lemma guarded_tail fuel started temps rate ov amount st (w : World) :
  let wb := snd (experiment_body E fuel temps rate ov amount st w) in
  let w' := snd (guarded_experiment E fuel started temps rate ov amount st w) in
  exists tail,
    trace w' = trace wb ++ tail /\
    setpoint_calls tail = [] /\
    completed_steps tail = [] /\
    experiment_completed w' = experiment_completed wb.
Proof.
  unfold guarded_experiment, try_finally, try_except.
  destruct (experiment_body E fuel temps rate ov amount st w)
    as [rb wb].
  simpl.
  destruct rb as [[]|[|what]|]; simpl.
  - destruct (finalization_run E started temps rate ov amount wb)
      as (w2 & Hfin & _ & Hc2 & Ht2).
    rewrite Hfin. simpl. eexists. split; [exact Ht2|].
    destruct (fault_of E (dev_calls wb)); simpl; auto.
  - unfold interrupted, bind, print, emit, set_keyboard_interrupt_count.
    simpl.
    match goal with
    | |- context [finalization E started temps rate ov amount ?w1] =>
      destruct (finalization_run E started temps rate ov amount w1)
        as (w2 & Hfin & _ & Hc2 & Ht2)
    end.
    rewrite Hfin. simpl. simpl in Ht2, Hc2.
    rewrite <- app_assoc in Ht2.
    eexists. split; [exact Ht2|].
    destruct (fault_of E (dev_calls wb)); simpl; auto.
  - destruct (finalization_run E started temps rate ov amount wb)
      as (w2 & Hfin & _ & Hc2 & Ht2).
    rewrite Hfin. simpl. eexists. split; [exact Ht2|].
    destruct (fault_of E (dev_calls wb)); simpl; auto.
  - exists []. rewrite app_nil_r. auto.
Qed.

End FastSetpoints.

(** X17.  In a fast-mode experiment without overshoot the controller is
    only ever commanded to the targets of the profile, in order and each
    at most once: however the run ends, the setpoints commanded are the
    targets of the steps logged as complete, followed at most by the
    target of the step in progress; a run that returns [True] has
    commanded exactly the profile.  Neither the handler nor the
    finalization commands a setpoint. *)
Theorem fast_experiment_setpoints (E : Env) (fuel : nat) (temps : list Q)
    (amount : Q) (w : World) :
  let r := fst (collect_data E fuel temps None false amount w) in
  let evs := new_events w (snd (collect_data E fuel temps None false
                                             amount w)) in
  exists k,
    (k <= length temps)%nat /\
    completed_steps evs = seq 1 k /\
    (setpoint_calls evs = firstn k temps \/
     setpoint_calls evs = firstn (S k) temps) /\
    (r = Ret true -> k = length temps /\ setpoint_calls evs = temps).
Proof.
  intros r evs. subst r evs.
  unfold collect_data, bind, set_vna_sweep_count, set_experiment_running,
    set_keyboard_interrupt_count, time_time, get, get_temp, device,
    set_tracker, emit, set_experiment_start_time, set_experiment_completed.
  simpl.
  destruct (fault_of E (dev_calls w)) as [e|] eqn:Hf; simpl.
  - erewrite new_events_app by (rewrite <- app_assoc; reflexivity).
    exists 0%nat. simpl. split; [lia|]. split; [reflexivity|].
    split; [auto|discriminate].
  - match goal with
    | |- context [guarded_experiment E fuel ?a temps None false amount ?b ?w0] =>
      pose proof (guarded_tail E fuel a temps None false amount b w0) as Hg;
      pose proof (fast_body_progress E fuel temps amount b w0) as Hb;
      destruct (guarded_experiment E fuel a temps None false amount b w0)
        as [rg wg]
    end.
    simpl in Hg, Hb.
    destruct Hg as (tail & Ht & Hsp0 & Hs0 & Hc).
    destruct Hb as (evs & Htb & (k & Hk & Hs & Hsp & Hret) & Hkeep).
    rewrite Htb, <- !app_assoc in Ht. simpl in Ht.
    assert (Hnew : new_events w wg
                   = EvSignal true
                     :: EvDev CGetTemp (Done (temp_of E (temp_reads w)))
                     :: EvThreadStart :: evs ++ tail).
    { apply new_events_app. exact Ht. }
    assert (Hall : completed_steps (new_events w wg) = seq 1 k /\
                   setpoint_calls (new_events w wg) = setpoint_calls evs).
    { rewrite Hnew.
      change (completed_steps (EvSignal true
                :: EvDev CGetTemp (Done (temp_of E (temp_reads w)))
                :: EvThreadStart :: evs ++ tail))
        with (completed_steps (evs ++ tail)).
      change (setpoint_calls (EvSignal true
                :: EvDev CGetTemp (Done (temp_of E (temp_reads w)))
                :: EvThreadStart :: evs ++ tail))
        with (setpoint_calls (evs ++ tail)).
      rewrite completed_steps_app, setpoint_calls_app, Hs0, Hsp0, !app_nil_r.
      auto. }
    destruct Hall as [Hall1 Hall2].
    assert (Hgoal : forall r' : outcome bool,
               (r' = Ret true -> experiment_completed wg = true) ->
               exists k0,
                 (k0 <= length temps)%nat /\
                 completed_steps (new_events w wg) = seq 1 k0 /\
                 (setpoint_calls (new_events w wg) = firstn k0 temps \/
                  setpoint_calls (new_events w wg) = firstn (S k0) temps) /\
                 (r' = Ret true ->
                  k0 = length temps /\
                  setpoint_calls (new_events w wg) = temps)).
    { intros r' Hr'. exists k. rewrite Hall1, Hall2.
      split; [exact Hk|]. split; [reflexivity|]. split; [exact Hsp|].
      intros Hr. apply Hr' in Hr. rewrite Hc in Hr.
      apply Hret.
      match goal with
      | |- returned ?rb = true =>
        destruct (returned rb) eqn:Hrb; [reflexivity|]
      end.
      rewrite (Hkeep eq_refl) in Hr. discriminate. }
    destruct rg as [[]|e|]; simpl; apply Hgoal.
    + intros H. inversion H. reflexivity.
    + discriminate.
    + discriminate.
Qed.


(** ** The operator's answers *)

Lemma answered_refl (d : desk) : answered d d 0.
Proof. exists []. rewrite app_nil_r. split; [reflexivity|simpl; lia]. Qed.

Lemma answered_trans (d d1 d2 : desk) (a b : nat) :
  answered d d1 a -> answered d1 d2 b -> answered d d2 (a + b).
Proof.
  intros (cs1 & Hc1 & Ha1) (cs2 & Hc2 & Ha2).
  exists (cs1 ++ cs2). rewrite Hc2, Hc1, app_assoc, length_app.
  split; [reflexivity|lia].
Qed.

Lemma cbind_returns {A B} (m : console A) (f : A -> console B)
    (d d' : desk) (b : B) :
  cbind m f d = (Ret b, d') ->
  exists a d1, m d = (Ret a, d1) /\ f a d1 = (Ret b, d').
Proof.
  unfold cbind. destruct (m d) as [[a|e|] d1]; try discriminate.
  intros H. exists a, d1. split; [reflexivity|exact H].
Qed.

(** A retry loop returns a value its attempt accepted; every attempt
    before was turned down with one complaint. *)
Lemma retry_accepts {A} (attempt : console (option A)) (P : A -> Prop) :
  (forall d x d1,
      attempt d = (Ret x, d1) ->
      asked d1 = S (asked d) /\
      match x with
      | Some a => complaints d1 = complaints d /\ P a
      | None => exists c, complaints d1 = complaints d ++ [c]
      end) ->
  forall fuel d a d',
    retry fuel attempt d = (Ret a, d') ->
    P a /\ answered d d' 1.
Proof.
  intros Hattempt. induction fuel as [|fuel IH]; intros d a d' Hrun.
  - discriminate.
  - simpl in Hrun. apply cbind_returns in Hrun.
    destruct Hrun as (x & d1 & Hx & Hrest).
    destruct (Hattempt d x d1 Hx) as [Hasked Hcase].
    destruct x as [a0|].
    + inversion Hrest; subst. destruct Hcase as [Hc HP].
      split; [exact HP|]. exists []. rewrite app_nil_r.
      split; [exact Hc|simpl; lia].
    + destruct Hcase as [c Hc].
      destruct (IH d1 a d' Hrest) as [HP (cs & Hcs & Hasked')].
      split; [exact HP|]. exists (c :: cs).
      rewrite Hcs, Hc, <- app_assoc. split; [reflexivity|simpl; lia].
Qed.

Section OperatorFacts.

Variable keyboard : nat -> keystroke.

Lemma input_returns (d d1 : desk) (l : line) :
  input keyboard d = (Ret l, d1) ->
  asked d1 = S (asked d) /\ complaints d1 = complaints d.
Proof.
  unfold input. destruct (keyboard (asked d)); intros H; inversion H; auto.
Qed.

Lemma ask_num_temps_accepts fuel (d d' : desk) (n : Z) :
  ask_num_temps keyboard fuel d = (Ret n, d') ->
  (1 <= n <= 8)%Z /\ answered d d' 1.
Proof.
  apply (retry_accepts _ (fun n => (1 <= n <= 8)%Z)).
  intros d0 x d1 H.
  apply cbind_returns in H. destruct H as (l & d2 & Hin & H).
  apply input_returns in Hin. destruct Hin as [Ha Hc].
  destruct (as_int l) as [k|].
  - destruct ((1 <=? k)%Z && (k <=? 8)%Z) eqn:Hk.
    + inversion H; subst. split; [exact Ha|]. split; [exact Hc|].
      apply andb_true_iff in Hk. destruct Hk as [H1 H2].
      apply Z.leb_le in H1. apply Z.leb_le in H2. lia.
    + inversion H; subst. simpl. split; [exact Ha|].
      exists CountOutOfRange. rewrite Hc. reflexivity.
  - inversion H; subst. simpl. split; [exact Ha|].
    exists CountNotInteger. rewrite Hc. reflexivity.
Qed.

Lemma ask_temp_accepts fuel (d d' : desk) (t : pyfloat) :
  ask_temp keyboard fuel d = (Ret t, d') -> answered d d' 1.
Proof.
  intros H.
  apply (retry_accepts _ (fun _ => True)) in H; [apply H|].
  clear. intros d0 x d1 H.
  apply cbind_returns in H. destruct H as (l & d2 & Hin & H).
  apply input_returns in Hin. destruct Hin as [Ha Hc].
  destruct (as_float l) as [t|].
  - inversion H; subst. auto.
  - inversion H; subst. simpl. split; [exact Ha|].
    exists TargetNotNumber. rewrite Hc. reflexivity.
Qed.

Lemma ask_temps_accepts fuel :
  forall n temps (d d' : desk) (result : list pyfloat),
    ask_temps keyboard fuel n temps d = (Ret result, d') ->
    length result = (length temps + n)%nat /\ answered d d' n.
Proof.
  induction n as [|n IH]; intros temps d d' result H.
  - inversion H; subst. split; [lia|apply answered_refl].
  - simpl in H. apply cbind_returns in H.
    destruct H as (t & d1 & Ht & H).
    apply ask_temp_accepts in Ht.
    apply IH in H. destruct H as [Hlen Hans].
    rewrite length_app in Hlen. simpl in Hlen.
    split; [lia|].
    change (S n) with (1 + n)%nat. eapply answered_trans; eassumption.
Qed.

Lemma ask_choice_accepts fuel (d d' : desk) (c : Z) :
  ask_choice keyboard fuel d = (Ret c, d') ->
  (c = 1 \/ c = 2)%Z /\ answered d d' 1.
Proof.
  apply (retry_accepts _ (fun c => (c = 1 \/ c = 2)%Z)).
  intros d0 x d1 H.
  apply cbind_returns in H. destruct H as (l & d2 & Hin & H).
  apply input_returns in Hin. destruct Hin as [Ha Hc].
  destruct (as_int l) as [k|].
  - destruct ((k =? 1)%Z || (k =? 2)%Z) eqn:Hk.
    + inversion H; subst. split; [exact Ha|]. split; [exact Hc|].
      apply orb_true_iff in Hk. destruct Hk as [H1|H1];
        apply Z.eqb_eq in H1; auto.
    + inversion H; subst. simpl. split; [exact Ha|].
      exists ChoiceOutOfRange. rewrite Hc. reflexivity.
  - inversion H; subst. simpl. split; [exact Ha|].
    exists ChoiceNotInteger. rewrite Hc. reflexivity.
Qed.

Lemma ask_ramp_rate_accepts fuel (d d' : desk) (r : pyfloat) :
  ask_ramp_rate keyboard fuel d = (Ret r, d') ->
  is_positive r = true /\ answered d d' 1.
Proof.
  apply (retry_accepts _ (fun r => is_positive r = true)).
  intros d0 x d1 H.
  apply cbind_returns in H. destruct H as (l & d2 & Hin & H).
  apply input_returns in Hin. destruct Hin as [Ha Hc].
  destruct (as_float l) as [v|].
  - destruct (is_positive v) eqn:Hv.
    + inversion H; subst. auto.
    + inversion H; subst. simpl. split; [exact Ha|].
      exists RateNotPositive. rewrite Hc. reflexivity.
  - inversion H; subst. simpl. split; [exact Ha|].
    exists RateNotNumber. rewrite Hc. reflexivity.
Qed.

Lemma ask_overshoot_choice_accepts fuel (d d' : desk) (s : string) :
  ask_overshoot_choice keyboard fuel d = (Ret s, d') ->
  answered d d' 1.
Proof.
  intros H.
  apply (retry_accepts _ (fun _ => True)) in H; [apply H|].
  clear. intros d0 x d1 H.
  apply cbind_returns in H. destruct H as (l & d2 & Hin & H).
  apply input_returns in Hin. destruct Hin as [Ha Hc].
  destruct (_ || _).
  - inversion H; subst. auto.
  - inversion H; subst. simpl. split; [exact Ha|].
    exists AnswerNotYesNo. rewrite Hc. reflexivity.
Qed.

Lemma ask_overshoot_amount_accepts fuel (d d' : desk) (a : pyfloat) :
  ask_overshoot_amount keyboard fuel d = (Ret a, d') ->
  is_positive a = true /\ answered d d' 1.
Proof.
  apply (retry_accepts _ (fun a => is_positive a = true)).
  intros d0 x d1 H.
  apply cbind_returns in H. destruct H as (l & d2 & Hin & H).
  apply input_returns in Hin. destruct Hin as [Ha Hc].
  destruct (if is_empty l then Some (Finite 10) else as_float l) as [v|].
  - destruct (is_positive v) eqn:Hv.
    + inversion H; subst. auto.
    + inversion H; subst. simpl. split; [exact Ha|].
      exists AmountNotPositive. rewrite Hc. reflexivity.
  - inversion H; subst. simpl. split; [exact Ha|].
    exists AmountNotNumber. rewrite Hc. reflexivity.
Qed.

End OperatorFacts.

(** A positive rate never makes the planner raise. *)
Lemma plan_with_positive_rate (current_temp target_temp ramp_rate : Q) :
  0 < ramp_rate ->
  exists plan,
    Planner.calculate_intermediate_temps current_temp target_temp ramp_rate
    = Ret plan.
Proof.
  intros Hpos. unfold Planner.calculate_intermediate_temps.
  cbv zeta.
  destruct (_ =? 0)%Z; [eexists; reflexivity|].
  destruct (Qeq_bool ramp_rate 0) eqn:Hz.
  - apply Qeq_bool_iff in Hz. lra.
  - eexists. reflexivity.
Qed.

(** X18.  What [get_temperature_profile] returns has been validated:
    between one and eight targets, a ramp rate that is absent (fast
    mode) or positive, an overshoot amount that is positive and is the
    default 10 when overshoot is off.  Every answer that was not used
    was turned down with exactly one complaint and asked again.  A
    finite rate that passed the check never makes the ramp planner
    divide by zero. *)
Theorem profile_validated (keyboard : nat -> keystroke) (fuel : nat)
    (d d' : desk) (temps : list pyfloat) (ramp_rate : option pyfloat)
    (use_overshoot : bool) (overshoot_amount : pyfloat) :
  get_temperature_profile keyboard fuel d
  = (Ret (temps, ramp_rate, use_overshoot, overshoot_amount), d') ->
  (1 <= length temps <= 8)%nat /\
  (forall r, ramp_rate = Some r -> is_positive r = true) /\
  is_positive overshoot_amount = true /\
  (use_overshoot = false -> overshoot_amount = Finite 10) /\
  answered d d' (answers_used temps ramp_rate use_overshoot) /\
  (forall r, ramp_rate = Some (Finite r) ->
     forall current_temp target_temp,
     exists plan,
       Planner.calculate_intermediate_temps current_temp target_temp r
       = Ret plan).
Proof.
  intros H. unfold get_temperature_profile in H.
  apply cbind_returns in H. destruct H as (n & d1 & Hn & H).
  apply ask_num_temps_accepts in Hn. destruct Hn as [Hn A1].
  apply cbind_returns in H. destruct H as (ts & d2 & Hts & H).
  apply ask_temps_accepts in Hts. destruct Hts as [Hlen A2].
  simpl in Hlen.
  apply cbind_returns in H. destruct H as (c & d3 & Hc & H).
  apply ask_choice_accepts in Hc. destruct Hc as [Hc A3].
  apply cbind_returns in H. destruct H as (rate & d4 & Hrate & H).
  apply cbind_returns in H. destruct H as (oc & d5 & Hoc & H).
  apply ask_overshoot_choice_accepts in Hoc. rename Hoc into A5.
  apply cbind_returns in H. destruct H as (amount & d6 & Hamount & H).
  unfold cret in H. injection H as Et Er Eo Ea Ed.
  subst temps ramp_rate use_overshoot overshoot_amount d'.
  assert (Hr : (forall r, rate = Some r -> is_positive r = true) /\
               answered d3 d4 (match rate with Some _ => 1 | None => 0 end)).
  { destruct (c =? 2)%Z.
    - apply cbind_returns in Hrate. destruct Hrate as (r & d0 & Hr & Hrate).
      inversion Hrate; subst.
      apply ask_ramp_rate_accepts in Hr. destruct Hr as [Hr A4].
      split; [intros r0 H0; inversion H0; subst; exact Hr|exact A4].
    - inversion Hrate; subst. split; [discriminate|apply answered_refl]. }
  destruct Hr as [Hr A4].
  assert (Ha : is_positive amount = true /\
               ((oc =? "y")%string = false -> amount = Finite 10) /\
               answered d5 d6
                 (if (oc =? "y")%string then 1 else 0)).
  { destruct (oc =? "y")%string.
    - apply ask_overshoot_amount_accepts in Hamount.
      destruct Hamount as [Hp A6]. split; [exact Hp|].
      split; [discriminate|exact A6].
    - inversion Hamount; subst.
      split; [reflexivity|]. split; [reflexivity|apply answered_refl]. }
  destruct Ha as (Hp & Hdefault & A6).
  split; [lia|]. split; [exact Hr|]. split; [exact Hp|].
  split; [exact Hdefault|]. split.
  - unfold answers_used. rewrite Hlen.
    pose proof (answered_trans _ _ _ _ _
                  (answered_trans _ _ _ _ _
                     (answered_trans _ _ _ _ _
                        (answered_trans _ _ _ _ _
                           (answered_trans _ _ _ _ _ A1 A2) A3) A4) A5) A6)
      as Hall.
    exact Hall.
  - intros r Hrate' cur tgt. apply plan_with_positive_rate.
    specialize (Hr _ Hrate'). simpl in Hr.
    apply Qlt_bool_iff in Hr. exact Hr.
Qed.

Lemma profile_validated_witness :
  let keyboard :=
    typing [typed "0" (Some 0%Z) (Some (Finite 0));
            typed "2" (Some 2%Z) (Some (Finite 2));
            typed "warm" None None;
            typed "20" (Some 20%Z) (Some (Finite 20));
            typed "-5.5" None (Some (Finite (-5.5)));
            typed "3" (Some 3%Z) (Some (Finite 3));
            typed "2" (Some 2%Z) (Some (Finite 2));
            typed "0" (Some 0%Z) (Some (Finite 0));
            typed "1.5" None (Some (Finite 1.5));
            typed "maybe" None None;
            typed "y" None None;
            typed EmptyString None None] in
  let temps := [Finite 20; Finite (-5.5)] in
  let d' := {| asked := 12;
               complaints := [CountOutOfRange; TargetNotNumber;
                              ChoiceOutOfRange; RateNotPositive;
                              AnswerNotYesNo] |} in
  get_temperature_profile keyboard 3 initial_desk
  = (Ret (temps, Some (Finite 1.5), true, Finite 10), d') /\
  (1 <= length temps <= 8)%nat /\
  (forall r, Some (Finite 1.5) = Some r -> is_positive r = true) /\
  is_positive (Finite 10) = true /\
  (true = false -> Finite 10 = Finite 10) /\
  answered initial_desk d' (answers_used temps (Some (Finite 1.5)) true) /\
  (forall r, Some (Finite 1.5) = Some (Finite r) ->
     forall current_temp target_temp,
     exists plan,
       Planner.calculate_intermediate_temps current_temp target_temp r
       = Ret plan).
Proof.
  intros keyboard temps d'.
  assert (Hrun : get_temperature_profile keyboard 3 initial_desk
                 = (Ret (temps, Some (Finite 1.5), true, Finite 10), d'))
    by (vm_compute; reflexivity).
  split; [exact Hrun|].
  exact (profile_validated keyboard 3 initial_desk d' temps
           (Some (Finite 1.5)) true (Finite 10) Hrun).
Defined.
